(** * Fix-It-Now failure predictor: the forest trainer and its inference engines

    A shallow embedding of
      - [scripts/train_model.py]  (class [SimpleRandomForest], the evaluation
        loop of [main], [generate_suggested_actions]),
      - [scripts/verify_model.py] ([predict_tree], [predict], the evaluation
        loop of [main]),
      - [api/main.py]             ([predict_tree], [make_prediction] with its
        heuristic fallback, its explanations and its cost estimate, and the
        analytics, ticket and schedule endpoints).

    Python floats are read as exact rationals ([Qc]), so a result of the
    code can differ from the one computed here by a rounding error, and a
    rounding ([round], [int]) or a comparison of the code can go the other way
    where the exact value sits on the boundary; the statements about rounded
    or compared values say how far they are from the exact ones instead of
    fixing the digit or the winner of an exact tie.  Python dictionaries whose
    iteration order is observable ([Counter], [feature_importances], the
    [votes] tally) are association lists in insertion order; the read-only
    feature dictionaries are [gmap string Qc].  A call that can raise returns
    a [result]; the state of the [random] module is passed explicitly; the
    operations of [str] that the service uses are the methods of a class
    [StrOps]. *)

From Stdlib Require Import QArith Qcanon Qround Qabs ZArith Lia.
From stdpp Require Import gmap strings list numbers sorting pretty.

Open Scope Qc_scope.

(** ** Python numerics *)

Definition Qc_of_Z (z : Z) : Qc := Q2Qc (inject_Z z).
Definition Qc_of_nat (n : nat) : Qc := Qc_of_Z (Z.of_nat n).

#[global] Instance Qc_inhabited : Inhabited Qc := populate 0.

(** [sum(xs)]: left-to-right accumulation starting from the integer 0. *)
Definition py_sum (xs : list Qc) : Qc := fold_left Qcplus xs 0.

Definition py_sum_Z (xs : list Z) : Z := fold_left Z.add xs 0%Z.

(** [round(x)]: nearest integer, exact halves go to the even neighbour. *)
Definition py_round (x : Qc) : Z :=
  let n := Qnum (this x) in
  let d := Zpos (Qden (this x)) in
  let f := (n / d)%Z in
  let r := (n mod d)%Z in
  match (2 * r ?= d)%Z with
  | Lt => f
  | Gt => (f + 1)%Z
  | Eq => if Z.even f then f else (f + 1)%Z
  end.

(** [round(x, ndigits)]. *)
Definition py_round_n (x : Qc) (ndigits : nat) : Qc :=
  let scale := Qc_of_Z (10 ^ Z.of_nat ndigits) in
  Qc_of_Z (py_round (x * scale)) / scale.

(** [int(x)]: truncation towards zero. *)
Definition py_int (x : Qc) : Z :=
  Z.quot (Qnum (this x)) (Zpos (Qden (this x))).

(** ** Python exceptions *)

Inductive exn : Type :=
  | ZeroDivisionError
  | IndexError
  | ValueError
  | KeyError (key : string).

Inductive result (A : Type) : Type :=
  | Ok (a : A)
  | Raise (e : exn).
Arguments Ok {A} a.
Arguments Raise {A} e.

Definition bind {A B} (m : result A) (k : A → result B) : result B :=
  match m with
  | Ok a => k a
  | Raise e => Raise e
  end.

Notation "'do' x <- m ; k" := (bind m (fun x => k))
  (at level 10, x name, m at level 100, k at level 200).

Fixpoint mapM {A B} (f : A → result B) (l : list A) : result (list B) :=
  match l with
  | [] => Ok []
  | x :: l' => do y <- f x; do ys <- mapM f l'; Ok (y :: ys)
  end.

(** [a / b] on numbers, raising on a zero divisor. *)
Definition py_div (a b : Qc) : result Qc :=
  if decide (b = 0) then Raise ZeroDivisionError else Ok (a / b).

(** ** Insertion-ordered dictionaries *)

Section Dict.
Context {V : Type}.

Fixpoint dict_get (d : list (string * V)) (k : string) : option V :=
  match d with
  | [] => None
  | (k', v) :: d' => if decide (k' = k) then Some v else dict_get d' k
  end.

(** [d[k] = v]: an existing key keeps its position, a new one goes last. *)
Fixpoint dict_set (d : list (string * V)) (k : string) (v : V)
  : list (string * V) :=
  match d with
  | [] => [(k, v)]
  | (k', v') :: d' =>
      if decide (k' = k) then (k', v) :: d' else (k', v') :: dict_set d' k v
  end.

Definition dict_keys (d : list (string * V)) : list string := d.*1.
Definition dict_values (d : list (string * V)) : list V := d.*2.

(** [d[k]] as an expression: [KeyError] on a missing key. *)
Definition dict_item (d : list (string * V)) (k : string) : result V :=
  match dict_get d k with
  | Some v => Ok v
  | None => Raise (KeyError k)
  end.
End Dict.

(** [d[k] += 1]. *)
Definition dict_incr (d : list (string * nat)) (k : string)
  : result (list (string * nat)) :=
  do v <- dict_item d k; Ok (dict_set d k (v + 1)%nat).

(** [max(xs, key=key)]: the first element whose key is maximal. *)
Fixpoint py_max_from {A} (key : A → nat) (best : A) (xs : list A) : A :=
  match xs with
  | [] => best
  | x :: xs' =>
      if decide (key best < key x)%nat then py_max_from key x xs'
      else py_max_from key best xs'
  end.

Definition py_max {A} (key : A → nat) (xs : list A) : option A :=
  match xs with
  | [] => None
  | x :: xs' => Some (py_max_from key x xs')
  end.

(** [collections.Counter(labels)]. *)
Definition counter_add (c : list (string * nat)) (k : string)
  : list (string * nat) :=
  dict_set c k (default 0%nat (dict_get c k) + 1)%nat.

Definition Counter (labels : list string) : list (string * nat) :=
  fold_left counter_add labels [].

(** [c.most_common(1)]: [heapq.nlargest(1, items, key=count)], i.e. [max]. *)
Definition most_common1 (c : list (string * nat)) : list (string * nat) :=
  match py_max snd c with
  | Some kv => [kv]
  | None => []
  end.

(** [sorted(set(xs))]. *)
Definition py_sorted_set (xs : list Qc) : list Qc :=
  merge_sort Qcle (remove_dups xs).

(** ** Data model *)

(** The [target] dictionary built by [get_target]. *)
Record Target : Type := {
  failure_probability : Qc;
  risk_level : string;
  estimated_days_to_failure : Z
}.

(** One training record [{'features': ..., 'target': ...}].  [features] holds
    the numeric entries produced by [preprocess_features]; the three
    categorical entries are never read by the functions below. *)
Record Sample : Type := {
  features : gmap string Qc;
  target : Target
}.

(** [fs.get(name, 0)]. *)
Definition feature_get (fs : gmap string Qc) (name : string) : Qc :=
  default 0 (fs !! name).

Record LeafData : Type := {
  prediction : string;
  probability : Qc;
  days : Z;
  samples : nat
}.

(** The node dictionaries built by [_build_tree]:
    [{'type': 'leaf', ...}] and [{'type': 'split', ...}]. *)
Inductive TreeNode : Type :=
  | Leaf (l : LeafData)
  | Split (feature : string) (threshold : Qc) (left right : TreeNode).

Record SimpleRandomForest : Type := {
  n_trees : nat;
  trees : list TreeNode;
  feature_importances : list (string * Qc)
}.

(** [SimpleRandomForest.__init__]. *)
Definition __init__ (n : nat) : SimpleRandomForest :=
  {| n_trees := n; trees := []; feature_importances := [] |}.

Record Prediction : Type := {
  p_risk_level : string;
  p_failure_probability : Qc;
  p_estimated_days_to_failure : Z
}.

(** ** The [random] module

    The state of the module-level generator is threaded explicitly.  A
    generator is any deterministic source of raw outputs; every bounded draw
    reduces one raw output below its bound. *)

Class Generator (G : Type) := genrand : G → nat * G.

(** A finite tape of raw outputs, read left to right (0 once exhausted). *)
#[global] Instance tape_generator : Generator (list nat) := λ g,
  match g with
  | [] => (0%nat, [])
  | r :: g' => (r, g')
  end.

Section Random.
Context {G : Type} `{!Generator G}.

Definition randbelow (n : nat) (g : G) : nat * G :=
  let '(r, g') := genrand g in ((r mod n)%nat, g').

(** [random.choices(population, k=k)]:
    [[population[floor(random() * n)] for i in range(k)]]. *)
Fixpoint random_choices {A} (population : list A) (k : nat) (g : G)
  : list A * G :=
  match k with
  | O => ([], g)
  | S k' =>
      let '(i, g1) := randbelow (length population) g in
      let '(rest, g2) := random_choices population k' g1 in
      (match population !! i with
       | Some x => x :: rest
       | None => rest
       end, g2)
  end.

(** The pool loop of [random.sample] (the branch taken for populations of
    at most 21 elements); [n] is the number of pool slots still live. *)
Fixpoint sample_pool (pool : list string) (n k : nat) (g : G)
  : list string * G :=
  match k with
  | O => ([], g)
  | S k' =>
      let '(j, g1) := randbelow n g in
      let picked := pool !!! j in
      let pool' := <[j := pool !!! (n - 1)%nat]> pool in
      let '(rest, g2) := sample_pool pool' (n - 1) k' g1 in
      (picked :: rest, g2)
  end.

Definition random_sample (population : list string) (k : nat) (g : G)
  : list string * G :=
  sample_pool population (length population) k g.
End Random.

(** ** [train_model.py]: class [SimpleRandomForest] *)

Definition label_of (d : Sample) : string := risk_level (target d).

(** The nested helper [entropy(subset)] of [_calculate_split_gain]. *)
Definition entropy (subset : list Sample) : Qc :=
  if decide (length subset = 0%nat) then 0
  else
    let counts := Counter (label_of <$> subset) in
    let total := Qc_of_nat (length subset) in
    - py_sum ((λ c : nat, (Qc_of_nat c / total) * (Qc_of_nat c / total))
                <$> filter (λ c : nat, (0 < c)%nat) (dict_values counts)).

Definition _calculate_split_gain
    (data : list Sample) (feature : string) (threshold : Qc) : Qc :=
  let left := filter (λ d, feature_get (features d) feature < threshold) data in
  let right := filter (λ d, threshold ≤ feature_get (features d) feature) data in
  if decide (length left = 0%nat ∨ length right = 0%nat) then 0
  else
    let parent_entropy := entropy data in
    let weighted_child :=
      (Qc_of_nat (length left) / Qc_of_nat (length data)) * entropy left
      + (Qc_of_nat (length right) / Qc_of_nat (length data)) * entropy right in
    parent_entropy - weighted_child.

(** The running best of [_find_best_split]: [best_feature] and
    [best_threshold] are assigned together, so they are [None] together. *)
Definition Best : Type := option (string * Qc) * Qc.

Definition percentiles : list Qc := [Q2Qc (1 # 4); Q2Qc (1 # 2); Q2Qc (3 # 4)].

(** [sorted(set(d['features'].get(feature, 0) for d in data
                 if isinstance(d['features'].get(feature), (int, float))))]. *)
Definition feature_values (data : list Sample) (feature : string) : list Qc :=
  py_sorted_set (omap (λ d, features d !! feature) data).

(** [values[min(int(len(values) * percentile), len(values) - 1)]]. *)
Definition percentile_threshold (values : list Qc) (percentile : Qc) : Qc :=
  let idx := Z.to_nat (py_int (Qc_of_nat (length values) * percentile)) in
  values !!! (idx `min` (length values - 1))%nat.

(** One iteration of the inner loop. *)
Definition try_percentile (data : list Sample) (feature : string)
    (values : list Qc) (best : Best) (percentile : Qc) : Best :=
  let threshold := percentile_threshold values percentile in
  let gain := _calculate_split_gain data feature threshold in
  if decide (best.2 < gain) then (Some (feature, threshold), gain) else best.

(** One iteration of the outer loop. *)
Definition try_feature (data : list Sample) (best : Best) (feature : string)
  : Best :=
  let values := feature_values data feature in
  if decide (length values < 2)%nat then best
  else fold_left (try_percentile data feature values) percentiles best.

Definition numeric_features : list string :=
  [ "asset_age_months"; "days_since_last_maintenance";
    "total_maintenance_count"; "avg_monthly_usage_hours";
    "ambient_temperature_avg"; "humidity_level_avg";
    "power_outage_events_last_year"; "manufacturer_rating";
    "building_age_years"; "seasonal_load_factor" ]%string.

(** The leaf dictionary built at both leaf sites of [_build_tree]. *)
Definition make_leaf (data : list Sample) : TreeNode :=
  let risk_counts := Counter (label_of <$> data) in
  let majority_class :=
    match most_common1 risk_counts with
    | kv :: _ => kv.1
    | [] => "medium"%string
    end in
  let avg_prob :=
    if decide (data = []) then Q2Qc (1 # 2)
    else py_sum ((λ d, failure_probability (target d)) <$> data)
         / Qc_of_nat (length data) in
  let avg_days :=
    if decide (data = []) then Qc_of_Z 100
    else Qc_of_Z (py_sum_Z ((λ d, estimated_days_to_failure (target d)) <$> data))
         / Qc_of_nat (length data) in
  Leaf {| prediction := majority_class;
          probability := py_round_n avg_prob 4;
          days := py_round avg_days;
          samples := length data |}.

Section Trainer.
Context {G : Type} `{!Generator G}.

Definition _find_best_split (data : list Sample) (features : list string)
    (g : G) : Best * G :=
  let '(sampled_features, g') :=
    random_sample features (5 `min` length features)%nat g in
  (fold_left (try_feature data) sampled_features (None, - (1)), g').

(** [_build_tree], by recursion on [max_depth - depth]; the state is the
    forest's [feature_importances] and the generator. *)
Fixpoint build_tree_rem (remaining : nat) (data : list Sample)
    (st : list (string * Qc) * G) : TreeNode * (list (string * Qc) * G) :=
  match remaining with
  | O => (make_leaf data, st)
  | S remaining' =>
      if decide (length data < 10)%nat then (make_leaf data, st)
      else
        let '(best, gain, g1) := _find_best_split data numeric_features st.2 in
        match best with
        | None => (make_leaf data, (st.1, g1))
        | Some (best_feature, best_threshold) =>
            if decide (gain < Q2Qc (1 # 1000)) then (make_leaf data, (st.1, g1))
            else
              let importances :=
                dict_set st.1 best_feature
                  (default 0 (dict_get st.1 best_feature) + gain) in
              let left_data :=
                filter (λ d, feature_get (features d) best_feature
                             < best_threshold) data in
              let right_data :=
                filter (λ d, best_threshold
                             ≤ feature_get (features d) best_feature) data in
              let '(left_node, st1) :=
                build_tree_rem remaining' left_data (importances, g1) in
              let '(right_node, st2) :=
                build_tree_rem remaining' right_data st1 in
              (Split best_feature (py_round_n best_threshold 2)
                     left_node right_node, st2)
        end
  end.

Definition _build_tree (data : list Sample) (depth max_depth : nat)
    (st : list (string * Qc) * G) : TreeNode * (list (string * Qc) * G) :=
  build_tree_rem (max_depth - depth) data st.

(** The [for i in range(self.n_trees)] loop of [fit]. *)
Fixpoint fit_loop (count : nat) (data : list Sample)
    (self : SimpleRandomForest) (g : G) : SimpleRandomForest * G :=
  match count with
  | O => (self, g)
  | S count' =>
      let '(sample, g1) := random_choices data (length data) g in
      let '(tree, (importances, g2)) :=
        _build_tree sample 0 5 (feature_importances self, g1) in
      fit_loop count' data
        {| n_trees := n_trees self;
           trees := trees self ++ [tree];
           feature_importances := importances |} g2
  end.

(** The normalisation at the end of [fit]. *)
Definition normalize (importances : list (string * Qc)) : list (string * Qc) :=
  let total_importance := py_sum (dict_values importances) in
  if decide (0 < total_importance) then
    fold_left
      (λ d f, dict_set d f (default 0 (dict_get d f) / total_importance))
      (dict_keys importances) importances
  else importances.

Definition fit (self : SimpleRandomForest) (data : list Sample) (g : G)
  : SimpleRandomForest * G :=
  let '(self', g') := fit_loop (n_trees self) data self g in
  ({| n_trees := n_trees self';
      trees := trees self';
      feature_importances := normalize (feature_importances self') |}, g').
End Trainer.

Fixpoint _predict_tree (tree : TreeNode) (fs : gmap string Qc) : LeafData :=
  match tree with
  | Leaf l => l
  | Split feature threshold left_node right_node =>
      if decide (feature_get fs feature < threshold)
      then _predict_tree left_node fs
      else _predict_tree right_node fs
  end.

(** [xs[0]]. *)
Definition py_first {A} (xs : list A) : result A :=
  match xs with
  | x :: _ => Ok x
  | [] => Raise IndexError
  end.

(** [SimpleRandomForest.predict]. *)
Definition predict (self : SimpleRandomForest) (fs : gmap string Qc)
  : result Prediction :=
  let predictions := (λ tree, _predict_tree tree fs) <$> trees self in
  let risk_votes := Counter (prediction <$> predictions) in
  do avg_prob <- py_div (py_sum (probability <$> predictions))
                        (Qc_of_nat (length predictions));
  do avg_days <- py_div (Qc_of_Z (py_sum_Z (days <$> predictions)))
                        (Qc_of_nat (length predictions));
  do top <- py_first (most_common1 risk_votes);
  Ok {| p_risk_level := top.1;
        p_failure_probability := py_round_n avg_prob 4;
        p_estimated_days_to_failure := py_round avg_days |}.

(** The class labels and the zeroed per-class tally
    [{'high': 0, 'medium': 0, 'low': 0}] of both evaluation loops. *)
Definition levels : list string := ["high"; "medium"; "low"]%string.

Definition zero_counts : list (string * nat) :=
  [("high", 0); ("medium", 0); ("low", 0)]%string%nat.

(** The evaluation block of [train_model.main] (step 4/5), up to the accuracy
    it stores in the metadata: the whole block sits under [if test_data:]. *)
Definition train_tally_row (model : SimpleRandomForest)
    (acc : nat * list (string * nat) * list (string * nat)) (sample : Sample)
  : result (nat * list (string * nat) * list (string * nat)) :=
  let '(correct, risk_correct, risk_total) := acc in
  do pred <- predict model (features sample);
  let actual := risk_level (target sample) in
  do risk_total' <- dict_incr risk_total actual;
  if decide (p_risk_level pred = actual) then
    do risk_correct' <- dict_incr risk_correct actual;
    Ok ((correct + 1)%nat, risk_correct', risk_total')
  else Ok (correct, risk_correct, risk_total').

Fixpoint train_tally_rows (model : SimpleRandomForest)
    (acc : nat * list (string * nat) * list (string * nat))
    (test_data : list Sample)
  : result (nat * list (string * nat) * list (string * nat)) :=
  match test_data with
  | [] => Ok acc
  | sample :: rest =>
      do acc' <- train_tally_row model acc sample;
      train_tally_rows model acc' rest
  end.

Definition train_accuracy (model : SimpleRandomForest) (test_data : list Sample)
  : result (option Qc) :=
  if decide (test_data = []) then Ok None
  else
    do acc <- train_tally_rows model
                (0%nat, zero_counts, zero_counts)
                test_data;
    do ratio <- py_div (Qc_of_nat acc.1.1) (Qc_of_nat (length test_data));
    Ok (Some (ratio * Qc_of_Z 100)).

(** ** The serialized forest document

    What [json.load] hands to the inference engines: node dictionaries in
    which any key may be absent and the [type] tag is an arbitrary string.
    A key that is present holds a value of the type [json.dump] writes for a
    trainer node (a string, a number, a node); a [null] or a value of another
    type, on which the engines would raise [TypeError], is not among the
    documents considered here. *)

#[warnings="-register-all"]
Inductive RawNode : Type := mkRawNode {
  r_type : option string;
  r_prediction : option string;
  r_probability : option Qc;
  r_days : option Qc;
  r_samples : option nat;
  r_feature : option string;
  r_threshold : option Qc;
  r_left : option RawNode;
  r_right : option RawNode
}.

Record ModelDoc : Type := {
  doc_model_type : string;
  doc_n_trees : nat;
  doc_trees : list RawNode;
  doc_feature_importances : list (string * Qc)
}.

(** [node[key]] on a node dictionary. *)
Definition item {A} (field : option A) (key : string) : result A :=
  match field with
  | Some v => Ok v
  | None => Raise (KeyError key)
  end.

(** What [json.dump] writes for a trainer node and [json.load] reads back. *)
Fixpoint node_to_json (tree : TreeNode) : RawNode :=
  match tree with
  | Leaf l =>
      {| r_type := Some "leaf"%string;
         r_prediction := Some (prediction l);
         r_probability := Some (probability l);
         r_days := Some (Qc_of_Z (days l));
         r_samples := Some (samples l);
         r_feature := None; r_threshold := None;
         r_left := None; r_right := None |}
  | Split feature threshold left_node right_node =>
      {| r_type := Some "split"%string;
         r_prediction := None; r_probability := None;
         r_days := None; r_samples := None;
         r_feature := Some feature;
         r_threshold := Some threshold;
         r_left := Some (node_to_json left_node);
         r_right := Some (node_to_json right_node) |}
  end.

(** [SimpleRandomForest.export_to_json]. *)
Definition export_to_json (self : SimpleRandomForest) : ModelDoc :=
  {| doc_model_type := "random_forest";
     doc_n_trees := n_trees self;
     doc_trees := node_to_json <$> trees self;
     doc_feature_importances := feature_importances self |}.

(** The [metadata] block that [main] adds to the exported model (the three
    constant name lists are omitted). *)
Record Metadata : Type := {
  trained_on : nat;
  tested_on : nat;
  meta_accuracy : option Qc
}.

(** Steps 3 to 5 of [train_model.main]: fit a fresh forest of [n] trees,
    evaluate it, and assemble the dictionary handed to [json.dump]. *)
Definition training_pipeline {G} `{!Generator G} (n : nat)
    (train_data test_data : list Sample) (g : G)
  : result (ModelDoc * Metadata) :=
  let model := (fit (__init__ n) train_data g).1 in
  do accuracy <- train_accuracy model test_data;
  Ok (export_to_json model,
      {| trained_on := length train_data;
         tested_on := length test_data;
         meta_accuracy := (λ a, py_round_n a 2) <$> accuracy |}).

(** ** [verify_model.py] *)

Module verify_model.

Fixpoint predict_tree (tree : RawNode) (fs : gmap string Qc) : result RawNode :=
  match tree with
  | mkRawNode ty _ _ _ _ feature threshold left_node right_node =>
      match ty with
      | None => Raise (KeyError "type")
      | Some tag =>
          if decide (tag = "leaf"%string) then Ok tree
          else
            match feature with
            | None => Raise (KeyError "feature")
            | Some f =>
                let value := feature_get fs f in
                match threshold with
                | None => Raise (KeyError "threshold")
                | Some t =>
                    if decide (value < t) then
                      match left_node with
                      | None => Raise (KeyError "left")
                      | Some l => predict_tree l fs
                      end
                    else
                      match right_node with
                      | None => Raise (KeyError "right")
                      | Some r => predict_tree r fs
                      end
                end
            end
      end
  end.

Record VerifyPrediction : Type := {
  v_prediction : Prediction;
  vote_distribution : list (string * nat)
}.

Definition predict (model : ModelDoc) (fs : gmap string Qc)
  : result VerifyPrediction :=
  do predictions <- mapM (λ tree, predict_tree tree fs) (doc_trees model);
  do labels <- mapM (λ p, item (r_prediction p) "prediction") predictions;
  let risk_votes := Counter labels in
  do probs <- mapM (λ p, item (r_probability p) "probability") predictions;
  do avg_prob <- py_div (py_sum probs) (Qc_of_nat (length predictions));
  do dayss <- mapM (λ p, item (r_days p) "days") predictions;
  do avg_days <- py_div (py_sum dayss) (Qc_of_nat (length predictions));
  do top <- py_first (most_common1 risk_votes);
  Ok {| v_prediction :=
          {| p_risk_level := top.1;
             p_failure_probability := py_round_n avg_prob 4;
             p_estimated_days_to_failure := py_round avg_days |};
        vote_distribution := risk_votes |}.

(** One row of the test file after [preprocess_features]. *)
Record TestRow : Type := {
  row_features : gmap string Qc;
  row_risk_level : string
}.

Record Tally : Type := {
  correct : nat;
  risk_correct : list (string * nat);
  risk_total : list (string * nat);
  confusion : list (string * list (string * nat))
}.

Definition tally0 : Tally :=
  {| correct := 0;
     risk_correct := zero_counts;
     risk_total := zero_counts;
     confusion := [("high", zero_counts); ("medium", zero_counts);
                   ("low", zero_counts)]%string |}.

(** The body of [for row in test_data]. *)
Definition tally_row (model : ModelDoc) (t : Tally) (row : TestRow)
  : result Tally :=
  do pred <- predict model (row_features row);
  let actual := row_risk_level row in
  let predicted := p_risk_level (v_prediction pred) in
  do risk_total' <- dict_incr (risk_total t) actual;
  do conf_row <- dict_item (confusion t) actual;
  do conf_row' <- dict_incr conf_row predicted;
  let confusion' := dict_set (confusion t) actual conf_row' in
  if decide (predicted = actual) then
    do risk_correct' <- dict_incr (risk_correct t) actual;
    Ok {| correct := (correct t + 1)%nat; risk_correct := risk_correct';
          risk_total := risk_total'; confusion := confusion' |}
  else
    Ok {| correct := correct t; risk_correct := risk_correct t;
          risk_total := risk_total'; confusion := confusion' |}.

Fixpoint tally_rows (model : ModelDoc) (t : Tally) (rows : list TestRow)
  : result Tally :=
  match rows with
  | [] => Ok t
  | row :: rows' => do t' <- tally_row model t row; tally_rows model t' rows'
  end.

Record ClassMetrics : Type := {
  precision : Qc;
  recall : Qc;
  f1 : Qc
}.

Record Report : Type := {
  accuracy : Qc;
  class_accuracy : list (string * option Qc);
  confusion_matrix : list (string * list (string * nat));
  class_metrics : list (string * ClassMetrics)
}.

(** The line printed (or not) for [level] under "Per-Class Accuracy". *)
Definition per_class_accuracy (t : Tally) (level : string)
  : result (option Qc) :=
  do total <- dict_item (risk_total t) level;
  if decide (0 < total)%nat then
    do ok <- dict_item (risk_correct t) level;
    do q <- py_div (Qc_of_nat ok) (Qc_of_nat total);
    Ok (Some (q * Qc_of_Z 100))
  else Ok None.

(** [sum(confusion[a][level] for a in ['high', 'medium', 'low'])]. *)
Definition predicted_total (t : Tally) (level : string) : result nat :=
  do column <- mapM (λ a, do r <- dict_item (confusion t) a; dict_item r level)
                    levels;
  Ok (fold_left Nat.add column 0%nat).

(** The body of the "Precision & Recall" loop. *)
Definition metrics_of (t : Tally) (level : string) : result ClassMetrics :=
  do pred_total <- predicted_total t level;
  do precision <-
    (if decide (0 < pred_total)%nat then
       do r <- dict_item (confusion t) level;
       do hit <- dict_item r level;
       do q <- py_div (Qc_of_nat hit) (Qc_of_nat pred_total);
       Ok (q * Qc_of_Z 100)
     else Ok 0);
  do total <- dict_item (risk_total t) level;
  do recall <-
    (if decide (0 < total)%nat then
       do ok <- dict_item (risk_correct t) level;
       do q <- py_div (Qc_of_nat ok) (Qc_of_nat total);
       Ok (q * Qc_of_Z 100)
     else Ok 0);
  do f1 <-
    (if decide (0 < precision + recall) then
       py_div (Qc_of_Z 2 * precision * recall) (precision + recall)
     else Ok 0);
  Ok {| precision := precision; recall := recall; f1 := f1 |}.

(** The evaluation block of [main] (step 4/5), given the loaded test rows. *)
Definition evaluate (model : ModelDoc) (test_data : list TestRow)
  : result Report :=
  let total := length test_data in
  do t <- tally_rows model tally0 test_data;
  do ratio <- py_div (Qc_of_nat (correct t)) (Qc_of_nat total);
  let accuracy := ratio * Qc_of_Z 100 in
  do per_class <- mapM (λ level, do a <- per_class_accuracy t level;
                                 Ok (level, a)) levels;
  do metrics <- mapM (λ level, do m <- metrics_of t level;
                               Ok (level, m)) levels;
  Ok {| accuracy := accuracy; class_accuracy := per_class;
        confusion_matrix := confusion t; class_metrics := metrics |}.

End verify_model.

(** ** [api/main.py] *)

Module api_main.

Fixpoint predict_tree (tree : RawNode) (fs : gmap string Qc) : result RawNode :=
  match tree with
  | mkRawNode ty _ _ _ _ feature threshold left_node right_node =>
      match ty with
      | None => Raise (KeyError "type")
      | Some tag =>
          if decide (tag = "leaf"%string) then Ok tree
          else
            match feature with
            | None => Raise (KeyError "feature")
            | Some f =>
                let value := feature_get fs f in
                match threshold with
                | None => Raise (KeyError "threshold")
                | Some t =>
                    if decide (value < t) then
                      match left_node with
                      | None => Raise (KeyError "left")
                      | Some l => predict_tree l fs
                      end
                    else
                      match right_node with
                      | None => Raise (KeyError "right")
                      | Some r => predict_tree r fs
                      end
                end
            end
      end
  end.

(** The accumulators of the vote loop: [votes], [total_prob], [total_days]. *)
Definition Votes : Type := list (string * nat) * Qc * Qc.

Definition votes0 : Votes :=
  ([("low", 0); ("medium", 0); ("high", 0)]%string%nat, 0, 0).

(** The body of [for pred in predictions]. *)
Definition vote (acc : Votes) (pred : RawNode) : Votes :=
  let '(votes, total_prob, total_days) := acc in
  let risk := default "medium"%string (r_prediction pred) in
  (dict_set votes risk (default 0%nat (dict_get votes risk) + 1)%nat,
   total_prob + default (Q2Qc (1 # 2)) (r_probability pred),
   total_days + default (Qc_of_Z 100) (r_days pred)).

(** [max(votes, key=votes.get)]. *)
Definition max_key (votes : list (string * nat)) : result string :=
  match py_max snd votes with
  | Some kv => Ok kv.1
  | None => Raise ValueError
  end.

(** The [if model_loaded and model_data] branch of [make_prediction], up to
    the three values it computes from the model. *)
Definition make_prediction (model_data : ModelDoc) (feature_dict : gmap string Qc)
  : result Prediction :=
  do predictions <- mapM (λ tree, predict_tree tree feature_dict)
                         (doc_trees model_data);
  let '(votes, total_prob, total_days) := fold_left vote predictions votes0 in
  do risk_level <- max_key votes;
  do avg_prob <- py_div total_prob (Qc_of_nat (length predictions));
  do avg_days <- py_div total_days (Qc_of_nat (length predictions));
  Ok {| p_risk_level := risk_level;
        p_failure_probability := py_round_n avg_prob 4;
        p_estimated_days_to_failure := py_round avg_days |}.

End api_main.

(** ** Further operations of Python *)

(** [min(a, b)] and [max(a, b)] on numbers. *)
Definition py_min2 (a b : Qc) : Qc := if decide (b < a) then b else a.
Definition py_max2 (a b : Qc) : Qc := if decide (a < b) then b else a.

(** The operations of [str] that the service relies on: [s.lower()], the
    decimal rendering [str(n)] of an integer inside an f-string, and the
    fixed-point rendering [f"{x:.nf}"] of a float. *)
Class StrOps : Type := {
  str_lower : string → string;
  str_of_int : Z → string;
  format_fixed : nat → Qc → string
}.

(** [lst.append(x)] under a condition. *)
Definition append_if (P : Prop) `{!Decision P} (x : string) (lst : list string)
  : list string :=
  if decide P then lst ++ [x] else lst.

(** [keyword in text] on strings: [keyword] occurs somewhere in [text]. *)
Fixpoint str_contains (text keyword : string) : bool :=
  String.prefix keyword text
  || match text with
     | EmptyString => false
     | String _ rest => str_contains rest keyword
     end.

(** [d[k] += n]. *)
Definition dict_add (d : list (string * nat)) (k : string) (n : nat)
  : result (list (string * nat)) :=
  do v <- dict_item d k; Ok (dict_set d k (v + n)%nat).

(** [max(xs)] on a list of counts. *)
Definition py_max_list (xs : list nat) : result nat :=
  match xs with
  | [] => Raise ValueError
  | x :: xs' => Ok (fold_left Nat.max xs' x)
  end.

(** Tuples of two integers compare lexicographically. *)
Definition pair_lt (a b : Z * Z) : Prop :=
  (a.1 < b.1 ∨ (a.1 = b.1 ∧ a.2 < b.2))%Z.

#[global] Instance pair_lt_dec (a b : Z * Z) : Decision (pair_lt a b) :=
  or_dec _ _.

(** [lst.sort(key=f)].  The keys are computed first, for every element and in
    the order of the list, so that an exception of [f] aborts the sort.  The
    sort is stable, which fixes its result: each element is placed behind
    the elements whose key is smaller and before the later elements with an
    equal key. *)
Fixpoint insert_by {A} (x : (Z * Z) * A) (sorted : list ((Z * Z) * A))
  : list ((Z * Z) * A) :=
  match sorted with
  | [] => [x]
  | y :: rest =>
      if decide (pair_lt y.1 x.1) then y :: insert_by x rest else x :: y :: rest
  end.

Definition py_sort_by {A} (key : A → result (Z * Z)) (lst : list A)
  : result (list A) :=
  do keys <- mapM key lst;
  Ok ((foldr insert_by [] (zip keys lst)).*2).

(** ** [train_model.py]: the explanations *)

Module train_explain.

(** The dictionary that [preprocess_features] builds holds numbers and
    strings; it is kept as its numeric and its categorical entries. *)
Record Features : Type := {
  numeric : gmap string Qc;
  categorical : gmap string string
}.

Section Strings.
Context `{!StrOps}.

(** [generate_suggested_actions] of [train_model.py]. *)
Definition generate_suggested_actions (features : Features) (risk_level : string)
  : list string :=
  let actions := [] in
  let asset_type := default "other"%string (categorical features !! "asset_type"%string) in
  let days_since_maint :=
    default 0 (numeric features !! "days_since_last_maintenance"%string) in
  let age := default 0 (numeric features !! "asset_age_months"%string) in
  let maint_count :=
    default 0 (numeric features !! "total_maintenance_count"%string) in
  let temp :=
    default (Qc_of_Z 25) (numeric features !! "ambient_temperature_avg"%string) in
  let humidity :=
    default (Qc_of_Z 50) (numeric features !! "humidity_level_avg"%string) in
  let actions :=
    if decide (Qc_of_Z 180 < days_since_maint) then
      actions ++ ["Schedule immediate preventive maintenance - overdue by "
                  +:+ str_of_int (py_int (days_since_maint - Qc_of_Z 180))
                  +:+ " days"]
    else if decide (Qc_of_Z 90 < days_since_maint) then
      actions ++ ["Schedule routine maintenance within 2 weeks"]%string
    else actions in
  let actions :=
    if decide (asset_type = "hvac"%string) then
      let actions :=
        append_if (Qc_of_Z 35 < temp)
          "Check HVAC cooling efficiency - operating in high ambient temp"
          actions in
      let actions :=
        append_if (Qc_of_Z 75 < humidity)
          "Inspect HVAC dehumidification system" actions in
      actions ++ ["Replace air filters if not done recently"]%string
    else if decide (asset_type = "elevator"%string) then
      let actions :=
        actions ++ ["Inspect hydraulic fluid levels and pressures"]%string in
      append_if (Qc_of_Z 120 < age)
        "Consider modernization assessment for aging elevator" actions
    else if decide (asset_type = "electrical"%string) then
      let actions :=
        append_if (Qc_of_Z 80 < humidity)
          "Check electrical insulation and moisture barriers" actions in
      actions ++ ["Test circuit breakers and safety switches"]%string
    else if decide (asset_type = "plumbing"%string) then
      let actions :=
        actions ++ ["Check for leaks and water pressure consistency"]%string in
      append_if (Qc_of_Z 60 < age)
        "Inspect pipe condition for corrosion" actions
    else actions in
  let actions :=
    append_if (Qc_of_Z 120 < age)
      "Evaluate replacement cost vs. ongoing maintenance" actions in
  let expected_maint := age / Qc_of_Z 6 in
  let actions :=
    append_if (expected_maint * Qc_of_Z 2 < maint_count)
      "Asset showing signs of end-of-life - plan replacement" actions in
  let actions :=
    if decide (actions = []) then
      if decide (risk_level = "high"%string) then
        actions ++ ["Urgent inspection required"]%string
      else if decide (risk_level = "medium"%string) then
        actions ++ ["Schedule inspection within one week"]%string
      else actions ++ ["Continue routine monitoring"]%string
    else actions in
  take 5 actions.
End Strings.

End train_explain.

(** ** [api/main.py]: the endpoints *)

Module api_prediction.

(** The request model [AssetFeatures]. *)
Record AssetFeatures : Type := {
  asset_type : string;
  asset_age_months : Qc;
  days_since_last_maintenance : Qc;
  total_maintenance_count : Qc;
  avg_monthly_usage_hours : Qc;
  last_repair_severity : string;
  ambient_temperature_avg : Qc;
  humidity_level_avg : Qc;
  power_outage_events_last_year : Qc;
  manufacturer_rating : Qc;
  installation_quality : string;
  building_age_years : Qc;
  seasonal_load_factor : Qc
}.

(** The response model [PredictionResult]. *)
Record PredictionResult : Type := {
  risk_level : string;
  failure_probability : Qc;
  estimated_days_to_failure : Z;
  contributing_factors : list string;
  suggested_actions : list string;
  estimated_cost_if_ignored : Z
}.

(** The [feature_dict] that [make_prediction] hands to the trees. *)
Definition feature_dict (features : AssetFeatures) : gmap string Qc :=
  list_to_map
    [ ("asset_age_months", asset_age_months features);
      ("days_since_last_maintenance", days_since_last_maintenance features);
      ("total_maintenance_count", total_maintenance_count features);
      ("avg_monthly_usage_hours", avg_monthly_usage_hours features);
      ("ambient_temperature_avg", ambient_temperature_avg features);
      ("humidity_level_avg", humidity_level_avg features);
      ("power_outage_events_last_year", power_outage_events_last_year features);
      ("manufacturer_rating", manufacturer_rating features);
      ("building_age_years", building_age_years features);
      ("seasonal_load_factor", seasonal_load_factor features) ]%string.

(** The [risk_score] of the heuristic fallback of [make_prediction]. *)
Definition heuristic_risk_score (features : AssetFeatures) : Qc :=
  let risk_score := 0 in
  let risk_score :=
    if decide (Qc_of_Z 120 < asset_age_months features) then risk_score + Qc_of_Z 3
    else if decide (Qc_of_Z 60 < asset_age_months features)
         then risk_score + Q2Qc (3 # 2)
         else risk_score in
  let risk_score :=
    if decide (Qc_of_Z 180 < days_since_last_maintenance features)
    then risk_score + Qc_of_Z 3
    else if decide (Qc_of_Z 90 < days_since_last_maintenance features)
         then risk_score + Q2Qc (3 # 2)
         else risk_score in
  let expected_maint := asset_age_months features / Qc_of_Z 6 in
  let risk_score :=
    if decide (expected_maint * Qc_of_Z 2 < total_maintenance_count features)
    then risk_score + Qc_of_Z 2 else risk_score in
  let risk_score :=
    if decide (Qc_of_Z 38 < ambient_temperature_avg features)
    then risk_score + 1 else risk_score in
  let risk_score :=
    if decide (Qc_of_Z 80 < humidity_level_avg features)
    then risk_score + 1 else risk_score in
  let risk_score :=
    if decide (manufacturer_rating features ≤ Qc_of_Z 2)
    then risk_score + 1 else risk_score in
  let risk_score :=
    if decide (installation_quality features = "poor"%string)
    then risk_score + Qc_of_Z 2 else risk_score in
  risk_score.

(** The [else] branch of [make_prediction]: the class, the probability and
    the days the heuristic derives from the score. *)
Definition heuristic_prediction (features : AssetFeatures) : string * Qc * Z :=
  let risk_score := heuristic_risk_score features in
  if decide (Qc_of_Z 6 ≤ risk_score) then
    ("high"%string,
     py_min2 (Q2Qc (95 # 100)) (Q2Qc (65 # 100) + risk_score * Q2Qc (3 # 100)),
     (7 `max` (60 - py_int (risk_score * Qc_of_Z 4)))%Z)
  else if decide (Qc_of_Z 3 ≤ risk_score) then
    ("medium"%string,
     Q2Qc (30 # 100) + risk_score * Q2Qc (5 # 100),
     (30 `max` (150 - py_int (risk_score * Qc_of_Z 15)))%Z)
  else
    ("low"%string,
     py_max2 (Q2Qc (5 # 100)) (Q2Qc (10 # 100) + risk_score * Q2Qc (3 # 100)),
     (400 `min` (200 + py_int ((Qc_of_Z 3 - risk_score) * Qc_of_Z 40)))%Z).

Section Strings.
Context `{!StrOps}.

Definition generate_contributing_factors (features : AssetFeatures)
    (risk_level : string) : list string :=
  let factors := [] in
  let factors :=
    if decide (Qc_of_Z 120 < asset_age_months features) then
      factors ++ ["Asset age (" +:+ str_of_int (py_int (asset_age_months features))
                  +:+ " months) exceeds recommended lifecycle"]
    else if decide (Qc_of_Z 60 < asset_age_months features) then
      factors ++ ["Asset approaching mid-life at "
                  +:+ str_of_int (py_int (asset_age_months features))
                  +:+ " months"]
    else factors in
  let factors :=
    if decide (Qc_of_Z 180 < days_since_last_maintenance features) then
      factors ++ ["Maintenance overdue by "
                  +:+ str_of_int (py_int (days_since_last_maintenance features
                                          - Qc_of_Z 180))
                  +:+ " days"]
    else if decide (Qc_of_Z 90 < days_since_last_maintenance features) then
      factors ++ ["Last maintenance was "
                  +:+ str_of_int (py_int (days_since_last_maintenance features))
                  +:+ " days ago"]
    else factors in
  let expected_maint := asset_age_months features / Qc_of_Z 6 in
  let factors :=
    append_if (expected_maint * Qc_of_Z 2 < total_maintenance_count features)
      ("Unusually high repair frequency ("
       +:+ str_of_int (py_int (total_maintenance_count features)) +:+ " repairs)")
      factors in
  let factors :=
    append_if (Qc_of_Z 38 < ambient_temperature_avg features)
      ("High ambient temperature ("
       +:+ format_fixed 1 (ambient_temperature_avg features) +:+ "°C)")
      factors in
  let factors :=
    append_if (Qc_of_Z 80 < humidity_level_avg features)
      ("High humidity (" +:+ format_fixed 0 (humidity_level_avg features)
       +:+ "%) risk")
      factors in
  let factors :=
    append_if (manufacturer_rating features ≤ Qc_of_Z 2)
      "Low manufacturer quality rating" factors in
  let factors :=
    append_if (installation_quality features = "poor"%string)
      "Poor installation quality documented" factors in
  let factors :=
    if decide (factors = []) then
      if decide (risk_level = "low"%string) then
        ["No significant risk factors detected";
         "Asset operating within normal parameters"]%string
      else ["Multiple minor factors contributing to risk"]%string
    else factors in
  take 4 factors.

Definition generate_suggested_actions (features : AssetFeatures)
    (risk_level : string) : list string :=
  let actions := [] in
  let actions :=
    if decide (Qc_of_Z 180 < days_since_last_maintenance features) then
      actions ++ ["Schedule immediate preventive maintenance"]%string
    else if decide (Qc_of_Z 90 < days_since_last_maintenance features) then
      actions ++ ["Schedule routine maintenance within 2 weeks"]%string
    else actions in
  let asset_type := str_lower (asset_type features) in
  let actions :=
    if decide (asset_type = "hvac"%string) then
      let actions :=
        append_if (Qc_of_Z 35 < ambient_temperature_avg features)
          "Check cooling efficiency in high ambient temp" actions in
      actions ++ ["Replace air filters if needed"]%string
    else if decide (asset_type = "elevator"%string) then
      let actions := actions ++ ["Inspect hydraulic fluid levels"]%string in
      append_if (Qc_of_Z 120 < asset_age_months features)
        "Consider modernization assessment" actions
    else if decide (asset_type = "electrical"%string) then
      let actions :=
        append_if (Qc_of_Z 80 < humidity_level_avg features)
          "Check electrical insulation/moisture barriers" actions in
      actions ++ ["Test circuit breakers and safety switches"]%string
    else if decide (asset_type = "plumbing"%string) then
      actions ++ ["Check for leaks and pressure consistency"]%string
    else if decide (asset_type = "security"%string) then
      actions ++ ["Test all sensors and alarm systems"]%string
    else if decide (asset_type = "appliance"%string) then
      actions ++ ["Check for unusual noises or vibrations"]%string
    else actions in
  let actions :=
    append_if (Qc_of_Z 120 < asset_age_months features)
      "Evaluate replacement vs. maintenance costs" actions in
  let actions :=
    if decide (actions = []) then
      actions ++ [if decide (risk_level = "high"%string)
                  then "Urgent inspection required"%string
                  else "Continue routine monitoring"%string]
    else actions in
  take 5 actions.

Definition base_costs : list (string * Z) :=
  [ ("hvac", 8000000); ("elevator", 15000000); ("electrical", 4000000);
    ("plumbing", 3000000); ("security", 2500000); ("appliance", 2000000) ]%string%Z.

Definition risk_multipliers : list (string * Qc) :=
  [ ("high", Q2Qc (3 # 2)); ("medium", 1); ("low", Q2Qc (1 # 2)) ]%string.

Definition estimate_cost (asset_type risk_level : string) (days : Z) : Z :=
  let base := default 5000000%Z (dict_get base_costs (str_lower asset_type)) in
  let risk_mult := default 1 (dict_get risk_multipliers risk_level) in
  let urgency_mult := if decide (days < 30)%Z then Q2Qc (13 # 10) else 1 in
  py_int (Qc_of_Z base * risk_mult * urgency_mult).

(** [make_prediction]; [model] is the pair of globals [model_loaded] and
    [model_data], [None] while no model is loaded. *)
Definition make_prediction (model : option ModelDoc) (features : AssetFeatures)
  : result PredictionResult :=
  do core <-
    match model with
    | Some model_data =>
        do p <- api_main.make_prediction model_data (feature_dict features);
        Ok (p_risk_level p, p_failure_probability p, p_estimated_days_to_failure p)
    | None => Ok (heuristic_prediction features)
    end;
  let '(risk_level, failure_probability, estimated_days) := core in
  let factors := generate_contributing_factors features risk_level in
  let actions := generate_suggested_actions features risk_level in
  let cost := estimate_cost (asset_type features) risk_level estimated_days in
  Ok {| risk_level := risk_level;
        failure_probability := failure_probability;
        estimated_days_to_failure := estimated_days;
        contributing_factors := factors;
        suggested_actions := actions;
        estimated_cost_if_ignored := cost |}.
End Strings.

End api_prediction.

Module api_tickets.

(** The request model [TicketClassifyRequest]. *)
Record TicketClassifyRequest : Type := {
  title : string;
  description : string;
  category : option string
}.

Record TicketPriorityResponse : Type := {
  priority : string;
  confidence : Qc;
  reasoning : list string
}.

Record TicketCategoryResponse : Type := {
  suggested_category : string;
  category_confidence : Qc;
  all_categories : list (string * Qc)
}.

(** The table [PRIORITY_KEYWORDS]: for each priority its keywords and its
    score, in the order of the dictionary. *)
Definition PRIORITY_KEYWORDS : list (string * (list string * nat)) :=
  [ ("urgent",
     (["emergency"; "urgent"; "immediately"; "fire"; "flood"; "leak"; "gas";
       "danger"; "safety"; "hazard"; "broken"; "not working"; "stopped"], 3%nat));
    ("high",
     (["important"; "asap"; "critical"; "major"; "serious"; "elevator stuck";
       "no water"; "no power"; "overflowing"], 2%nat));
    ("medium",
     (["repair"; "fix"; "issue"; "problem"; "malfunction"; "noise"; "smell";
       "slow"; "intermittent"], 1%nat));
    ("low",
     (["minor"; "when possible"; "convenience"; "cosmetic"; "request";
       "upgrade"; "suggestion"], 0%nat)) ]%string.

(** The table [CATEGORY_KEYWORDS]. *)
Definition CATEGORY_KEYWORDS : list (string * list string) :=
  [ ("hvac", ["ac"; "air conditioning"; "heating"; "cooling"; "temperature";
              "thermostat"; "vent"; "hvac"; "ventilation"; "hot"; "cold";
              "freezing"; "warm"]);
    ("electrical", ["power"; "electric"; "light"; "outlet"; "socket"; "switch";
                    "circuit"; "fuse"; "breaker"; "wire"; "bulb"; "flickering"]);
    ("plumbing", ["water"; "pipe"; "leak"; "drain"; "faucet"; "toilet"; "sink";
                  "shower"; "clog"; "blocked"; "overflow"; "sewage"]);
    ("elevator", ["elevator"; "lift"; "stuck"; "floor"; "button"; "door"]);
    ("security", ["lock"; "door"; "camera"; "cctv"; "alarm"; "access"; "key";
                  "badge"; "intercom"; "security"]);
    ("appliance", ["washer"; "dryer"; "refrigerator"; "fridge"; "dishwasher";
                   "microwave"; "oven"; "stove"; "appliance"]) ]%string.

Section Strings.
Context `{!StrOps}.

(** The text both classifiers search:
    [f"{request.title} {request.description}".lower()]. *)
Definition ticket_text (request : TicketClassifyRequest) : string :=
  str_lower (title request +:+ " " +:+ description request).

(** The body of [for keyword in data['keywords']] of
    [classify_ticket_priority]; the state is [scores] and [reasons]. *)
Definition scan_priority_keyword (text priority : string) (score : nat)
    (state : result (list (string * nat) * list string)) (keyword : string)
  : result (list (string * nat) * list string) :=
  do st <- state;
  if str_contains text keyword then
    do scores <- dict_add st.1 priority score;
    Ok (scores,
        st.2 ++ ["Contains '" +:+ keyword +:+ "' (suggests " +:+ priority
                 +:+ " priority)"])
  else Ok st.

(** The body of [for priority, data in PRIORITY_KEYWORDS.items()]. *)
Definition scan_priority (text : string)
    (state : result (list (string * nat) * list string))
    (entry : string * (list string * nat))
  : result (list (string * nat) * list string) :=
  fold_left (scan_priority_keyword text entry.1 entry.2.2) entry.2.1 state.

Definition classify_ticket_priority (request : TicketClassifyRequest)
  : result TicketPriorityResponse :=
  let text := ticket_text request in
  do st <- fold_left (scan_priority text) PRIORITY_KEYWORDS
             (Ok ([("urgent", 0); ("high", 0); ("medium", 0); ("low", 0)]%string%nat,
                  []));
  let '(scores, reasons) := st in
  do max_score <- py_max_list (dict_values scores);
  do verdict <-
    (if decide (max_score = 0%nat) then
       Ok ("medium"%string, Q2Qc (1 # 2),
           ["No specific priority keywords found";
            "Defaulting to medium priority"]%string)
     else
       do priority <- api_main.max_key scores;
       Ok (priority,
           py_min2 (Q2Qc (95 # 100))
                   (Q2Qc (1 # 2) + Qc_of_nat max_score * Q2Qc (15 # 100)),
           reasons));
  let '(priority, confidence, reasons) := verdict in
  Ok {| priority := priority;
        confidence := py_round_n confidence 2;
        reasoning := take 5 reasons |}.

(** The body of [for keyword in keywords] of [classify_ticket_category]. *)
Definition scan_category_keyword (text category : string)
    (scores : result (list (string * nat))) (keyword : string)
  : result (list (string * nat)) :=
  do scores <- scores;
  if str_contains text keyword then dict_add scores category 1 else Ok scores.

Definition scan_category (text : string) (scores : result (list (string * nat)))
    (entry : string * list string) : result (list (string * nat)) :=
  fold_left (scan_category_keyword text entry.1) entry.2 scores.

Definition classify_ticket_category (request : TicketClassifyRequest)
  : result TicketCategoryResponse :=
  let text := ticket_text request in
  do scores <- fold_left (scan_category text) CATEGORY_KEYWORDS
                 (Ok ((λ entry, (entry.1, 0%nat)) <$> CATEGORY_KEYWORDS));
  let total := fold_left Nat.add (dict_values scores) 0%nat in
  do verdict <-
    (if decide (total = 0%nat) then
       Ok ("other"%string, Q2Qc (3 # 10), (λ kv, (kv.1, 0)) <$> scores)
     else
       do normalized <-
         mapM (λ kv : string * nat,
                 do share <- py_div (Qc_of_nat kv.2) (Qc_of_nat total);
                 Ok (kv.1, py_round_n share 2)) scores;
       do suggested <- api_main.max_key scores;
       do share <- dict_item normalized suggested;
       Ok (suggested, py_min2 (Q2Qc (95 # 100)) (share + Q2Qc (3 # 10)),
           normalized));
  let '(suggested, confidence, normalized) := verdict in
  Ok {| suggested_category := suggested;
        category_confidence := py_round_n confidence 2;
        all_categories := normalized |}.
End Strings.

End api_tickets.

Module api_health.

(** The request model [BuildingHealthRequest]. *)
Record BuildingHealthRequest : Type := {
  total_tickets : Z;
  open_tickets : Z;
  completed_tickets : Z;
  high_risk_assets : Z;
  medium_risk_assets : Z;
  low_risk_assets : Z;
  total_assets : Z
}.

(** The response model [BuildingHealthResponse]. *)
Record BuildingHealthResponse : Type := {
  health_score : Z;
  health_grade : string;
  breakdown : list (string * Qc)
}.

(** The three component scores of [calculate_health_score]. *)
Definition completion_rate (request : BuildingHealthRequest) : Qc :=
  if decide (0 < total_tickets request)%Z
  then Qc_of_Z (completed_tickets request) / Qc_of_Z (total_tickets request)
       * Qc_of_Z 100
  else Qc_of_Z 100.

Definition open_score (request : BuildingHealthRequest) : Qc :=
  let open_ratio :=
    if decide (0 < total_tickets request)%Z
    then Qc_of_Z (open_tickets request) / Qc_of_Z (total_tickets request)
         * Qc_of_Z 100
    else 0 in
  Qc_of_Z 100 - open_ratio.

Definition risk_score (request : BuildingHealthRequest) : Qc :=
  let high_risk_ratio :=
    if decide (0 < total_assets request)%Z
    then Qc_of_Z (high_risk_assets request) / Qc_of_Z (total_assets request)
         * Qc_of_Z 100
    else 0 in
  Qc_of_Z 100 - high_risk_ratio.

Definition calculate_health_score (request : BuildingHealthRequest)
  : BuildingHealthResponse :=
  let completion_rate := completion_rate request in
  let open_score := open_score request in
  let risk_score := risk_score request in
  let health_score :=
    py_int (completion_rate * Q2Qc (4 # 10) + open_score * Q2Qc (3 # 10)
            + risk_score * Q2Qc (3 # 10)) in
  let health_score := (0 `max` (100 `min` health_score))%Z in
  let grade :=
    if decide (90 ≤ health_score)%Z then "A"
    else if decide (80 ≤ health_score)%Z then "B"
    else if decide (70 ≤ health_score)%Z then "C"
    else if decide (60 ≤ health_score)%Z then "D"
    else "F" in
  {| health_score := health_score;
     health_grade := grade;
     breakdown :=
       [ ("completion_rate", py_round_n completion_rate 1);
         ("open_ticket_score", py_round_n open_score 1);
         ("risk_score", py_round_n risk_score 1) ]%string |}.

End api_health.

Module api_risk_summary.

(** The response model [RiskSummaryResponse]. *)
Record RiskSummaryResponse : Type := {
  total_assets : nat;
  high_risk : nat;
  medium_risk : nat;
  low_risk : nat;
  avg_failure_probability : Qc;
  urgent_actions_needed : nat;
  estimated_total_cost : Z
}.

Section Strings.
Context `{!StrOps}.

(** [calculate_risk_summary] on the list [request.assets]. *)
Definition calculate_risk_summary (model : option ModelDoc)
    (assets : list api_prediction.AssetFeatures) : result RiskSummaryResponse :=
  if decide (assets = []) then
    Ok {| total_assets := 0; high_risk := 0; medium_risk := 0; low_risk := 0;
          avg_failure_probability := 0; urgent_actions_needed := 0;
          estimated_total_cost := 0 |}
  else
    do predictions <- mapM (api_prediction.make_prediction model) assets;
    let high_count :=
      length (filter (λ p, api_prediction.risk_level p = "high"%string) predictions) in
    let medium_count :=
      length (filter (λ p, api_prediction.risk_level p = "medium"%string) predictions) in
    let low_count :=
      length (filter (λ p, api_prediction.risk_level p = "low"%string) predictions) in
    do avg_prob <- py_div (py_sum (api_prediction.failure_probability <$> predictions))
                          (Qc_of_nat (length predictions));
    let urgent :=
      length (filter (λ p, (api_prediction.estimated_days_to_failure p < 30)%Z)
                     predictions) in
    let total_cost :=
      py_sum_Z (api_prediction.estimated_cost_if_ignored <$> predictions) in
    Ok {| total_assets := length assets;
          high_risk := high_count;
          medium_risk := medium_count;
          low_risk := low_count;
          avg_failure_probability := py_round_n avg_prob 4;
          urgent_actions_needed := urgent;
          estimated_total_cost := total_cost |}.
End Strings.

End api_risk_summary.

Module api_schedule.

(** The request model [MaintenanceScheduleRequest]. *)
Record MaintenanceScheduleRequest : Type := {
  assets : list api_prediction.AssetFeatures;
  available_technicians : Z;
  work_hours_per_day : Z
}.

(** The model [MaintenanceTask]. *)
Record MaintenanceTask : Type := {
  asset_type : string;
  priority : nat;
  estimated_hours : Qc;
  suggested_day : Z;
  risk_level : string
}.

(** The response model [MaintenanceScheduleResponse]. *)
Record MaintenanceScheduleResponse : Type := {
  total_tasks : nat;
  estimated_days : Z;
  tasks_by_priority : list (string * nat);
  schedule : list MaintenanceTask
}.

Definition risk_priority : list (string * Z) :=
  [ ("high", 0); ("medium", 1); ("low", 2) ]%string%Z.

Definition hours_by_type : list (string * Qc) :=
  [ ("hvac", Qc_of_Z 4); ("elevator", Qc_of_Z 6); ("electrical", Q2Qc (5 # 2));
    ("plumbing", Qc_of_Z 3); ("security", Qc_of_Z 2);
    ("appliance", Q2Qc (3 # 2)) ]%string.

(** The [key] of the sort: [(risk_priority[x[1].risk_level],
    x[1].estimated_days_to_failure)]. *)
Definition sort_key
    (x : api_prediction.AssetFeatures * api_prediction.PredictionResult)
  : result (Z * Z) :=
  do rank <- dict_item risk_priority (api_prediction.risk_level x.2);
  Ok (rank, api_prediction.estimated_days_to_failure x.2).

Section Strings.
Context `{!StrOps}.

(** The loop over [enumerate(predictions)]; [idx] is the counter of
    [enumerate], the state is [(schedule, total_hours)]. *)
Fixpoint schedule_tasks (daily_capacity : Z) (idx : nat)
    (state : list MaintenanceTask * Qc)
    (predictions : list (api_prediction.AssetFeatures
                         * api_prediction.PredictionResult))
  : result (list MaintenanceTask * Qc) :=
  match predictions with
  | [] => Ok state
  | (asset, pred) :: predictions' =>
      let '(schedule, total_hours) := state in
      let hours :=
        default (Qc_of_Z 3)
                (dict_get hours_by_type
                          (str_lower (api_prediction.asset_type asset))) in
      do ratio <- py_div total_hours (Qc_of_Z daily_capacity);
      let day := (py_int ratio + 1)%Z in
      let schedule :=
        schedule ++ [{| asset_type := api_prediction.asset_type asset;
                        priority := idx + 1;
                        estimated_hours := hours;
                        suggested_day := day;
                        risk_level := api_prediction.risk_level pred |}] in
      schedule_tasks daily_capacity (S idx) (schedule, total_hours + hours)
                     predictions'
  end.

Definition optimize_maintenance_schedule (model : option ModelDoc)
    (request : MaintenanceScheduleRequest) : result MaintenanceScheduleResponse :=
  if decide (assets request = []) then
    Ok {| total_tasks := 0; estimated_days := 0; tasks_by_priority := [];
          schedule := [] |}
  else
    do predictions <-
      mapM (λ asset, do p <- api_prediction.make_prediction model asset;
                     Ok (asset, p))
           (assets request);
    do predictions <- py_sort_by sort_key predictions;
    let daily_capacity :=
      (available_technicians request * work_hours_per_day request)%Z in
    do state <- schedule_tasks daily_capacity 0 ([], 0) predictions;
    let '(schedule, total_hours) := state in
    do ratio <- py_div total_hours (Qc_of_Z daily_capacity);
    let estimated_days := (py_int ratio + 1)%Z in
    let tasks_by_priority :=
      [ ("high", length (filter (λ t, risk_level t = "high"%string) schedule));
        ("medium", length (filter (λ t, risk_level t = "medium"%string) schedule));
        ("low", length (filter (λ t, risk_level t = "low"%string) schedule)) ]%string in
    Ok {| total_tasks := length schedule;
          estimated_days := estimated_days;
          tasks_by_priority := tasks_by_priority;
          schedule := schedule |}.
End Strings.

End api_schedule.

(** * Specification-side notions *)

(** ** Class counts, majority and impurity *)

(** Number of occurrences of a class among the labels of a subset. *)
Definition class_count (k : string) (labels : list string) : nat :=
  length (filter (λ x, x = k) labels).

(** [m] is the majority class of [labels]: every other class occurs strictly
    less often, or equally often and is first met after [m]. *)
Definition is_majority_first (labels : list string) (m : string) : Prop :=
  m ∈ labels ∧
  ∀ c, c ∈ labels → c ≠ m →
    (class_count c labels < class_count m labels)%nat
    ∨ (class_count c labels = class_count m labels
       ∧ ∃ l1 l2, labels = l1 ++ m :: l2 ∧ (m ∉ l1) ∧ (c ∉ l1)).

(** [m] wins the vote outright: every other class has strictly fewer votes. *)
Definition strict_majority (labels : list string) (m : string) : Prop :=
  m ∈ labels
  ∧ ∀ c, c ≠ m → (class_count c labels < class_count m labels)%nat.

(** [classes] enumerates, without repetition, the classes present in
    [subset]. *)
Definition present_classes (subset : list Sample) (classes : list string) : Prop :=
  NoDup classes ∧ ∀ c, c ∈ classes ↔ c ∈ label_of <$> subset.

(** Impurity: minus the sum of the squared class frequencies. *)
Definition impurity (subset : list Sample) (classes : list string) : Qc :=
  - foldr (λ c acc,
            (Qc_of_nat (class_count c (label_of <$> subset))
               / Qc_of_nat (length subset)) ^ 2 + acc) 0 classes.

(** ** Split candidates *)

(** A split candidate: feature, threshold, gain. *)
Definition Candidate : Type := string * Qc * Qc.

(** The comparison at the heart of [_find_best_split]: a candidate replaces
    the running best only when its gain is strictly larger. *)
Definition consider (best : Best) (c : Candidate) : Best :=
  if decide (best.2 < c.2) then (Some c.1, c.2) else best.

(** [min(floor(n * p), n - 1)]. *)
Definition percentile_index (n : nat) (p : Qc) : nat :=
  (Z.to_nat (Qfloor (inject_Z (Z.of_nat n) * this p)) `min` (n - 1))%nat.

(** [values] lists, in strictly ascending order, the numbers that [feature]
    takes in [data]. *)
Definition distinct_sorted_values (data : list Sample) (feature : string)
    (values : list Qc) : Prop :=
  StronglySorted Qclt values
  ∧ ∀ v, v ∈ values ↔ ∃ d, d ∈ data ∧ features d !! feature = Some v.

(** The candidates a sampled feature contributes, in evaluation order. *)
Definition feature_candidates (data : list Sample) (feature : string)
  : list Candidate :=
  let values := feature_values data feature in
  if decide (length values < 2)%nat then []
  else (λ p, let threshold := values !!! percentile_index (length values) p in
             (feature, threshold, _calculate_split_gain data feature threshold))
       <$> percentiles.

(** The candidates of a split attempt, in evaluation order. *)
Definition candidates (data : list Sample) (sampled : list string)
  : list Candidate :=
  sampled ≫= feature_candidates data.

(** [c] is the first candidate of [cands] whose gain is maximal. *)
Definition first_best (cands : list Candidate) (c : Candidate) : Prop :=
  ∃ pre post, cands = pre ++ c :: post
    ∧ Forall (λ x : Candidate, x.2 < c.2) pre
    ∧ Forall (λ x : Candidate, x.2 ≤ c.2) post.






(** ** Leaves *)

(** Arithmetic mean. *)
Definition mean (xs : list Qc) : Qc :=
  foldr Qcplus 0 xs / Qc_of_nat (length xs).

(** The [failure_probability] and [estimated_days_to_failure] columns of a
    subset. *)
Definition probabilities (data : list Sample) : list Qc :=
  (λ d, failure_probability (target d)) <$> data.

Definition day_estimates (data : list Sample) : list Qc :=
  (λ d, Qc_of_Z (estimated_days_to_failure (target d))) <$> data.

(** What [make_leaf] computes from a subset, with the roundings carried out
    on the exact means. *)
Definition leaf_summary (data : list Sample) (l : LeafData) : Prop :=
  samples l = length data
  ∧ (data = [] →
       prediction l = "medium"%string ∧ probability l = Q2Qc (1 # 2)
       ∧ days l = 100%Z)
  ∧ (data ≠ [] →
       is_majority_first (label_of <$> data) (prediction l)
       ∧ probability l = py_round_n (mean (probabilities data)) 4
       ∧ days l = py_round (mean (day_estimates data))).

(** [x] is [v] rounded to a multiple of [1 / scale]: a multiple at distance
    at most half a unit from [v], whichever neighbour an exact tie takes. *)
Definition rounds_to (scale : Z) (v x : Qc) : Prop :=
  (∃ k : Z, x = Qc_of_Z k / Qc_of_Z scale)
  ∧ v - 1 / Qc_of_Z (2 * scale) ≤ x
  ∧ x ≤ v + 1 / Qc_of_Z (2 * scale).

(** What a leaf records about the subset it was built from, the probability
    rounded to four decimals and the days to an integer. *)
Definition leaf_rounds (data : list Sample) (l : LeafData) : Prop :=
  samples l = length data
  ∧ (data = [] →
       prediction l = "medium"%string ∧ probability l = Q2Qc (1 # 2)
       ∧ days l = 100%Z)
  ∧ (data ≠ [] →
       is_majority_first (label_of <$> data) (prediction l)
       ∧ rounds_to 10000 (mean (probabilities data)) (probability l)
       ∧ rounds_to 1 (mean (day_estimates data)) (Qc_of_Z (days l))).

(** The leaf summary with plain, unrounded means. *)
Definition leaf_summary_plain (data : list Sample) (l : LeafData) : Prop :=
  samples l = length data
  ∧ is_majority_first (label_of <$> data) (prediction l)
  ∧ probability l = mean (probabilities data)
  ∧ Qc_of_Z (days l) = mean (day_estimates data).

(** The three conditions under which [_build_tree] stops. *)
Definition must_stop {G} `{!Generator G} (data : list Sample)
    (depth max_depth : nat) (g : G) : Prop :=
  (max_depth ≤ depth)%nat
  ∨ (length data < 10)%nat
  ∨ (_find_best_split data numeric_features g).1.2 < Q2Qc (1 # 1000).

(** The leaf built over zero samples. *)
Definition default_leaf : TreeNode :=
  Leaf {| prediction := "medium"; probability := Q2Qc (1 # 2);
          days := 100; samples := 0 |}.

(** A tree records a split exactly when its root is a split node. *)
Definition is_split (tree : TreeNode) : Prop :=
  match tree with
  | Split _ _ _ _ => True
  | Leaf _ => False
  end.

(** The leaves reached by a feature vector, one per tree. *)
Definition leaves_of (self : SimpleRandomForest) (fs : gmap string Qc) : list LeafData :=
  (λ tree, _predict_tree tree fs) <$> trees self.

(** ** The serialization format *)

(** The serialization format of a node: a [leaf] carries [prediction],
    [probability] and [days]; a [split] carries [feature], [threshold] and two
    well-formed children; no other tag is allowed. *)
Fixpoint valid_node (tree : RawNode) : bool :=
  match tree with
  | mkRawNode (Some tag) prediction probability days _
              feature threshold left_node right_node =>
      if decide (tag = "leaf"%string) then
        bool_decide (is_Some prediction ∧ is_Some probability ∧ is_Some days)
      else if decide (tag = "split"%string) then
        bool_decide (is_Some feature ∧ is_Some threshold)
        && match left_node with Some l => valid_node l | None => false end
        && match right_node with Some r => valid_node r | None => false end
      else false
  | mkRawNode None _ _ _ _ _ _ _ _ => false
  end.

(** A document all of whose trees respect the format. *)
Definition valid_document (doc : ModelDoc) : Prop :=
  Forall (λ tree, valid_node tree = true) (doc_trees doc).

(** A reached leaf that lacks one of the fields read by the aggregation. *)
Definition bare_leaf (p : RawNode) : Prop :=
  r_prediction p = None ∨ r_probability p = None ∨ r_days p = None.

(** ** Recorded splits *)

(** The splits recorded while a tree was built over [data], in the order in
    which [_build_tree] records them (a node, then its left subtree, then its
    right one), each with its feature and its gain over the part of the data
    that reached the node; the node stores the threshold rounded to two
    decimals. *)
Inductive recorded_splits : list Sample → TreeNode → list (string * Qc) → Prop :=
  | recorded_leaf data l : recorded_splits data (Leaf l) []
  | recorded_split data feature threshold stored left_node right_node
                   log_left log_right :
      rounds_to 100 threshold stored →
      recorded_splits
        (filter (λ d, feature_get (features d) feature < threshold) data)
        left_node log_left →
      recorded_splits
        (filter (λ d, threshold ≤ feature_get (features d) feature) data)
        right_node log_right →
      recorded_splits data (Split feature stored left_node right_node)
        ((feature, _calculate_split_gain data feature threshold)
           :: log_left ++ log_right).

(** The gain accumulated for a feature over a list of recorded splits. *)
Definition gain_sum (feature : string) (log : list (string * Qc)) : Qc :=
  py_sum (snd <$> filter (λ e, e.1 = feature) log).

(** One update of the tally, [importances[f] = importances.get(f, 0) + gain]. *)
Definition record_gain (importances : list (string * Qc)) (e : string * Qc)
  : list (string * Qc) :=
  dict_set importances e.1 (default 0 (dict_get importances e.1) + e.2).

(** ** Proof invariants *)

(** Invariant of the tally built by [Counter]. *)
Record counter_inv (labels : list string) (c : list (string * nat)) : Prop := {
  inv_nodup : NoDup (dict_keys c);
  inv_get : ∀ k, dict_get c k =
                 if decide (k ∈ labels) then Some (class_count k labels) else None;
  inv_order : ∀ ks1 a ks2 b,
      dict_keys c = ks1 ++ a :: ks2 → b ∈ ks2 →
      ∃ l1 l2, labels = l1 ++ a :: l2 ∧ (a ∉ l1) ∧ (b ∉ l1)
}.

(** Invariant of the gain tally: distinct keys, strictly positive values. *)
Definition positive_tally (importances : list (string * Qc)) : Prop :=
  NoDup (dict_keys importances)
  ∧ Forall (λ v, 0 < v) (dict_values importances).

(** Every tally dictionary of the evaluator keeps the three levels as keys. *)
Definition tally_keys (t : verify_model.Tally) : Prop :=
  dict_keys (verify_model.risk_correct t) = levels
  ∧ dict_keys (verify_model.risk_total t) = levels
  ∧ dict_keys (verify_model.confusion t) = levels
  ∧ Forall (λ row, dict_keys row = levels)
           (dict_values (verify_model.confusion t)).

(** ** Notions of the further properties *)

Fixpoint tree_depth (tree : TreeNode) : nat :=
  match tree with
  | Leaf _ => 0
  | Split _ _ left_node right_node =>
      S (tree_depth left_node `max` tree_depth right_node)
  end.

Fixpoint tree_leaves (tree : TreeNode) : list LeafData :=
  match tree with
  | Leaf l => [l]
  | Split _ _ left_node right_node =>
      tree_leaves left_node ++ tree_leaves right_node
  end.

Fixpoint tree_splits (tree : TreeNode) : list (string * Qc) :=
  match tree with
  | Leaf _ => []
  | Split feature threshold left_node right_node =>
      (feature, threshold) :: tree_splits left_node ++ tree_splits right_node
  end.

(** [grown remaining data tree]: [tree] is a tree that [_build_tree] can
    return over [data] with [remaining] levels left. *)
Inductive grown : nat → list Sample → TreeNode → Prop :=
  | grown_leaf remaining data : grown remaining data (make_leaf data)
  | grown_split remaining data feature threshold left_node right_node :
      (10 ≤ length data)%nat →
      feature ∈ numeric_features →
      threshold ∈ feature_values data feature →
      Q2Qc (1 # 1000) ≤ _calculate_split_gain data feature threshold →
      grown remaining
        (filter (λ d, feature_get (features d) feature < threshold) data)
        left_node →
      grown remaining
        (filter (λ d, threshold ≤ feature_get (features d) feature) data)
        right_node →
      grown (S remaining) data
        (Split feature (py_round_n threshold 2) left_node right_node).

(** A target whose probability lies in [0, 1] and whose days lie in
    [lo, hi]. *)
Definition target_in_range (lo hi : Z) (t : Target) : Prop :=
  0 ≤ failure_probability t ∧ failure_probability t ≤ 1
  ∧ (lo ≤ estimated_days_to_failure t ≤ hi)%Z.

Definition leaf_in_range (lo hi : Z) (l : LeafData) : Prop :=
  0 ≤ probability l ∧ probability l ≤ 1 ∧ (lo ≤ days l ≤ hi)%Z.

(** The squared frequency of class [c] in [subset]. *)
Definition squared_frequency (subset : list Sample) (c : string) : Qc :=
  (Qc_of_nat (class_count c (label_of <$> subset)) / Qc_of_nat (length subset)) ^ 2.

(** The tallies of the evaluator agree with each other after [k] rows: the
    class totals add up to [k], the per-class hits to [correct], and for
    every level the confusion row sums to the class total and holds the
    class hits on its diagonal. *)
Definition tally_consistent (k : nat) (t : verify_model.Tally) : Prop :=
  sum_list (dict_values (verify_model.risk_total t)) = k
  ∧ sum_list (dict_values (verify_model.risk_correct t)) = verify_model.correct t
  ∧ ∀ level, level ∈ levels →
      ∃ row, dict_get (verify_model.confusion t) level = Some row
        ∧ dict_get (verify_model.risk_total t) level
          = Some (sum_list (dict_values row))
        ∧ dict_get (verify_model.risk_correct t) level = dict_get row level.

(** The class [verify_model.predict] gives a test row, when it answers. *)
Definition predicted_label (model : ModelDoc) (row : verify_model.TestRow)
  : option string :=
  match verify_model.predict model (verify_model.row_features row) with
  | Ok v => Some (p_risk_level (verify_model.v_prediction v))
  | Raise _ => None
  end.

(** Number of rows labelled [actual] that the model classifies [predicted]. *)
Definition confusion_count (model : ModelDoc) (rows : list verify_model.TestRow)
    (actual predicted : string) : nat :=
  length (filter (λ row, verify_model.row_risk_level row = actual
                         ∧ predicted_label model row = Some predicted) rows).

(** Number of rows labelled [actual]. *)
Definition label_count (rows : list verify_model.TestRow) (actual : string) : nat :=
  length (filter (λ row, verify_model.row_risk_level row = actual) rows).

(** Number of rows the model classifies as they are labelled. *)
Definition hit_count (model : ModelDoc) (rows : list verify_model.TestRow) : nat :=
  length (filter (λ row, predicted_label model row
                         = Some (verify_model.row_risk_level row)) rows).

(** The tallies of the evaluator count the rows seen so far. *)
Definition tally_counts (model : ModelDoc) (rows : list verify_model.TestRow)
    (t : verify_model.Tally) : Prop :=
  verify_model.correct t = hit_count model rows
  ∧ ∀ actual, actual ∈ levels →
      dict_get (verify_model.risk_total t) actual = Some (label_count rows actual)
      ∧ dict_get (verify_model.risk_correct t) actual
        = Some (confusion_count model rows actual actual)
      ∧ ∃ row, dict_get (verify_model.confusion t) actual = Some row
          ∧ ∀ predicted, predicted ∈ levels →
              dict_get row predicted
              = Some (confusion_count model rows actual predicted).

(** A number between 0 and 100. *)
Definition is_percentage (x : Qc) : Prop := 0 ≤ x ∧ x ≤ Qc_of_Z 100.

(** The class the forest predicts for a sample, when it answers. *)
Definition predicted_class (model : SimpleRandomForest) (sample : Sample)
  : option string :=
  match predict model (features sample) with
  | Ok p => Some (p_risk_level p)
  | Raise _ => None
  end.

(** Number of samples the forest classifies as they are labelled. *)
Definition train_hits (model : SimpleRandomForest) (test_data : list Sample) : nat :=
  length (filter (λ sample, predicted_class model sample = Some (label_of sample))
                 test_data).

(** The state of the priority scan: the four scores in their order, the
    score of [low] still 0, and a reason recorded as soon as a score is
    positive. *)
Definition priority_scan_inv
    (state : result (list (string * nat) * list string)) : Prop :=
  ∃ a b c reasons,
    state = Ok ([("urgent", a); ("high", b); ("medium", c); ("low", 0)]%string%nat,
                reasons)
    ∧ ((0 < a + b + c)%nat → reasons ≠ []).

(** The keywords of all categories, in scanning order. *)
Definition category_keywords : list string :=
  api_tickets.CATEGORY_KEYWORDS ≫= snd.

(** What the heuristic guarantees of a single prediction. *)
Definition fallback_result (r : api_prediction.PredictionResult) : Prop :=
  api_prediction.risk_level r ∈ ["high"; "medium"; "low"]%string
  ∧ (Q2Qc (1 # 10) ≤ api_prediction.failure_probability r
     ∧ api_prediction.failure_probability r ≤ Q2Qc (95 # 100))
  ∧ ((api_prediction.estimated_days_to_failure r < 30)%Z →
     api_prediction.risk_level r = "high"%string)
  ∧ (1000000 ≤ api_prediction.estimated_cost_if_ignored r ≤ 29250000)%Z.

(** The order of the risk levels in the schedule: [high] before [medium]
    before [low], as ranked by [risk_priority]. *)
Definition risk_before (a b : string) : Prop :=
  ∃ ra rb, dict_get api_schedule.risk_priority a = Some ra
           ∧ dict_get api_schedule.risk_priority b = Some rb ∧ (ra ≤ rb)%Z.

(** Counts that fit together: the completed and the open tickets are among
    the tickets, the high-risk assets among the assets. *)
Definition consistent_counts (request : api_health.BuildingHealthRequest) : Prop :=
  (0 ≤ api_health.completed_tickets request ≤ api_health.total_tickets request)%Z
  ∧ (0 ≤ api_health.open_tickets request ≤ api_health.total_tickets request)%Z
  ∧ (0 ≤ api_health.high_risk_assets request ≤ api_health.total_assets request)%Z.

(** * Concrete inputs *)

(** Two training records whose bootstrap samples vote [high] and [low]. *)
Definition sample_high : Sample :=
  {| features := {[ "asset_age_months"%string := Qc_of_Z 180 ]};
     target := {| failure_probability := Q2Qc (9 # 10);
                  risk_level := "high";
                  estimated_days_to_failure := 10 |} |}.

Definition sample_low : Sample :=
  {| features := {[ "asset_age_months"%string := Qc_of_Z 12 ]};
     target := {| failure_probability := Q2Qc (1 # 10);
                  risk_level := "low";
                  estimated_days_to_failure := 300 |} |}.

(** A forest of two trees trained on them: the generator draws the first
    record twice for the first tree and the second twice for the second. *)
Definition tied_forest : SimpleRandomForest :=
  (fit (__init__ 2) [sample_high; sample_low] [0; 0; 1; 1]%nat).1.

(** A record whose probability has more than four decimals. *)
Definition fine_sample : Sample :=
  {| features := ∅;
     target := {| failure_probability := Q2Qc (123456 # 1000000);
                  risk_level := "low";
                  estimated_days_to_failure := 300 |} |}.

(** Twelve records that one threshold on the asset age separates perfectly. *)
Definition aged_sample (age : Z) (label : string) (p : Q) (d : Z) : Sample :=
  {| features := {[ "asset_age_months"%string := Qc_of_Z age ]};
     target := {| failure_probability := Q2Qc p; risk_level := label;
                  estimated_days_to_failure := d |} |}.

Definition separable_data : list Sample :=
  [ aged_sample 1 "low" (1 # 10) 300; aged_sample 2 "low" (1 # 10) 300;
    aged_sample 3 "low" (2 # 10) 300; aged_sample 4 "low" (1 # 10) 300;
    aged_sample 5 "low" (1 # 10) 300; aged_sample 6 "low" (1 # 10) 300;
    aged_sample 7 "high" (9 # 10) 10; aged_sample 8 "high" (9 # 10) 10;
    aged_sample 9 "high" (9 # 10) 11; aged_sample 10 "high" (9 # 10) 10;
    aged_sample 11 "high" (9 # 10) 10; aged_sample 12 "high" (9 # 10) 10 ]%string.

(** The bootstrap draws every record once; the feature sample then starts
    with the asset age. *)
Definition separable_tape : list nat :=
  [0; 1; 2; 3; 4; 5; 6; 7; 8; 9; 10; 11; 0; 0; 0; 0; 0]%nat.

(** A leaf dictionary [{'type': 'leaf', 'prediction': ..., ...}]. *)
Definition raw_leaf (prediction : string) (probability days : Qc) : RawNode :=
  {| r_type := Some "leaf"%string; r_prediction := Some prediction;
     r_probability := Some probability; r_days := Some days;
     r_samples := Some 1%nat; r_feature := None; r_threshold := None;
     r_left := None; r_right := None |}.

(** A document whose root carries the unknown tag [branch]. *)
Definition doc_unknown_tag : ModelDoc :=
  {| doc_model_type := "random_forest"; doc_n_trees := 1;
     doc_trees :=
       [ {| r_type := Some "branch"%string; r_prediction := None;
            r_probability := None; r_days := None; r_samples := None;
            r_feature := Some "asset_age_months"%string;
            r_threshold := Some (Qc_of_Z 60);
            r_left := Some (raw_leaf "low" (Q2Qc (1 # 10)) (Qc_of_Z 300));
            r_right := Some (raw_leaf "high" (Q2Qc (9 # 10)) (Qc_of_Z 10)) |} ];
     doc_feature_importances := [] |}.

(** A document whose only leaf has lost its three payload fields. *)
Definition doc_bare_leaf : ModelDoc :=
  {| doc_model_type := "random_forest"; doc_n_trees := 1;
     doc_trees :=
       [ {| r_type := Some "leaf"%string; r_prediction := None;
            r_probability := None; r_days := None; r_samples := None;
            r_feature := None; r_threshold := None;
            r_left := None; r_right := None |} ];
     doc_feature_importances := [] |}.

(** Two test rows, labelled [high] and [low]. *)
Definition two_rows : list verify_model.TestRow :=
  [ {| verify_model.row_features := features sample_high;
       verify_model.row_risk_level := "high" |};
    {| verify_model.row_features := features sample_low;
       verify_model.row_risk_level := "low" |} ].

(** Twelve records of one class, of different ages. *)
Definition pure_data : list Sample :=
  (λ age, aged_sample age "low" (1 # 10) 300) <$> [1; 2; 3; 4; 5; 6; 7; 8; 9; 10; 11; 12]%Z.

(** The forest of one tree that [fit] grows over [separable_data]. *)
Definition separable_forest : SimpleRandomForest :=
  (fit (__init__ 1) separable_data separable_tape).1.

(** A test row and a sample labelled outside the three levels. *)
Definition unknown_row : verify_model.TestRow :=
  {| verify_model.row_features := ∅; verify_model.row_risk_level := "critical" |}.

Definition unknown_sample : Sample :=
  {| features := ∅;
     target := {| failure_probability := Q2Qc (1 # 2); risk_level := "critical";
                  estimated_days_to_failure := 50 |} |}.

(** The string operations on ASCII text: lower-casing of the letters [A-Z],
    decimal rendering, and fixed-point rendering of the rounded number. *)
Definition ascii_lower (c : Ascii.ascii) : Ascii.ascii :=
  let n := Ascii.nat_of_ascii c in
  if decide (65 ≤ n ≤ 90)%nat then Ascii.ascii_of_nat (n + 32) else c.

Fixpoint string_lower (s : string) : string :=
  match s with
  | EmptyString => EmptyString
  | String c s' => String (ascii_lower c) (string_lower s')
  end.

Fixpoint zeros (n : nat) : string :=
  match n with
  | O => ""
  | S n' => "0" +:+ zeros n'
  end.

Definition fixed_point (ndigits : nat) (x : Qc) : string :=
  let scale := (10 ^ Z.of_nat ndigits)%Z in
  let scaled := Z.abs (py_round (x * Qc_of_Z scale)) in
  let fraction := pretty (scaled mod scale)%Z in
  (if decide (x < 0) then "-" else "") +:+ pretty (scaled / scale)%Z
  +:+ match ndigits with
      | O => ""
      | S _ => "." +:+ zeros (ndigits - String.length fraction) +:+ fraction
      end.

Definition ascii_str_ops : StrOps :=
  {| str_lower := string_lower; str_of_int := pretty; format_fixed := fixed_point |}.

(** An old, neglected elevator and a new appliance. *)
Definition old_elevator : api_prediction.AssetFeatures :=
  {| api_prediction.asset_type := "Elevator";
     api_prediction.asset_age_months := Qc_of_Z 150;
     api_prediction.days_since_last_maintenance := Qc_of_Z 200;
     api_prediction.total_maintenance_count := Qc_of_Z 60;
     api_prediction.avg_monthly_usage_hours := Qc_of_Z 200;
     api_prediction.last_repair_severity := "major";
     api_prediction.ambient_temperature_avg := Qc_of_Z 28;
     api_prediction.humidity_level_avg := Qc_of_Z 50;
     api_prediction.power_outage_events_last_year := Qc_of_Z 2;
     api_prediction.manufacturer_rating := Qc_of_Z 3;
     api_prediction.installation_quality := "average";
     api_prediction.building_age_years := Qc_of_Z 10;
     api_prediction.seasonal_load_factor := 1 |}.

Definition new_appliance : api_prediction.AssetFeatures :=
  {| api_prediction.asset_type := "appliance";
     api_prediction.asset_age_months := Qc_of_Z 6;
     api_prediction.days_since_last_maintenance := Qc_of_Z 20;
     api_prediction.total_maintenance_count := Qc_of_Z 1;
     api_prediction.avg_monthly_usage_hours := Qc_of_Z 200;
     api_prediction.last_repair_severity := "none";
     api_prediction.ambient_temperature_avg := Qc_of_Z 28;
     api_prediction.humidity_level_avg := Qc_of_Z 50;
     api_prediction.power_outage_events_last_year := Qc_of_Z 2;
     api_prediction.manufacturer_rating := Qc_of_Z 3;
     api_prediction.installation_quality := "average";
     api_prediction.building_age_years := Qc_of_Z 10;
     api_prediction.seasonal_load_factor := 1 |}.

(** The two assets, the appliance first, for one technician working two
    hours a day, and for no technician at all. *)
Definition small_crew_request : api_schedule.MaintenanceScheduleRequest :=
  {| api_schedule.assets := [new_appliance; old_elevator];
     api_schedule.available_technicians := 1;
     api_schedule.work_hours_per_day := 2 |}.

Definition no_crew_request : api_schedule.MaintenanceScheduleRequest :=
  {| api_schedule.assets := [new_appliance; old_elevator];
     api_schedule.available_technicians := 0;
     api_schedule.work_hours_per_day := 8 |}.

(** A building with every ticket completed and no asset at high risk. *)
Definition sound_building : api_health.BuildingHealthRequest :=
  {| api_health.total_tickets := 12; api_health.open_tickets := 0;
     api_health.completed_tickets := 12; api_health.high_risk_assets := 0;
     api_health.medium_risk_assets := 3; api_health.low_risk_assets := 4;
     api_health.total_assets := 7 |}.

(** * Proofs *)

(** Closes a decidable goal by evaluating its decision procedure. *)
Ltac by_compute :=
  match goal with
  | |- ?P => refine (bool_decide_unpack P _); vm_compute; exact I
  end.

(** ** Arithmetic on [Qc] *)

Lemma Qc_of_Z_add a b : Qc_of_Z (a + b) = Qc_of_Z a + Qc_of_Z b.
Proof.
  unfold Qc_of_Z, Qcplus, Q2Qc. apply Qc_is_canon. cbn [this].
  rewrite !Qred_correct, inject_Z_plus. reflexivity.
Qed.

Lemma Qc_of_Z_le a b : (a ≤ b)%Z ↔ Qc_of_Z a ≤ Qc_of_Z b.
Proof.
  unfold Qc_of_Z, Qcle, Q2Qc. cbn [this]. rewrite !Qred_correct. by rewrite Zle_Qle.
Qed.

Lemma Qc_of_Z_lt a b : (a < b)%Z ↔ Qc_of_Z a < Qc_of_Z b.
Proof.
  unfold Qc_of_Z, Qclt, Q2Qc. cbn [this]. rewrite !Qred_correct. by rewrite Zlt_Qlt.
Qed.

Lemma Qc_of_Z_inj a b : Qc_of_Z a = Qc_of_Z b → a = b.
Proof.
  intros H. apply Z.le_antisymm; apply (proj2 (Qc_of_Z_le _ _)); rewrite H;
    apply Qcle_refl.
Qed.

Lemma Qc_of_nat_add a b : Qc_of_nat (a + b) = Qc_of_nat a + Qc_of_nat b.
Proof. unfold Qc_of_nat. rewrite Nat2Z.inj_add. apply Qc_of_Z_add. Qed.

Lemma Qc_of_nat_nonneg n : 0 ≤ Qc_of_nat n.
Proof. apply (proj1 (Qc_of_Z_le 0 (Z.of_nat n))). lia. Qed.

Lemma Qc_of_nat_pos n : (0 < n)%nat → 0 < Qc_of_nat n.
Proof. intros. apply (proj1 (Qc_of_Z_lt 0 (Z.of_nat n))). lia. Qed.

Lemma Qc_of_nat_le a b : (a ≤ b)%nat → Qc_of_nat a ≤ Qc_of_nat b.
Proof. intros. apply (proj1 (Qc_of_Z_le _ _)). lia. Qed.

Lemma Qc_of_nat_ne0 n : n ≠ 0%nat → Qc_of_nat n ≠ 0.
Proof.
  intros Hn H. apply (Qc_of_Z_inj _ 0) in H. lia.
Qed.

Lemma Qc_pos_ne0 (x : Qc) : 0 < x → x ≠ 0.
Proof. intros H ->. by apply (Qclt_not_eq 0 0) in H. Qed.

Lemma Qc_not_lt_le (x y : Qc) : ¬ x < y ↔ y ≤ x.
Proof. split; [apply Qcnot_lt_le|apply Qcle_not_lt]. Qed.

Lemma Qc_div_mul (a b : Qc) : b ≠ 0 → a / b * b = a.
Proof. intros. field. done. Qed.

Lemma Qc_of_nat_div_bounds (c n : nat) :
  (c ≤ n)%nat → (0 < n)%nat →
  0 ≤ Qc_of_nat c / Qc_of_nat n ∧ Qc_of_nat c / Qc_of_nat n ≤ 1.
Proof.
  intros Hc Hn. pose proof (Qc_of_nat_pos n Hn) as Hpos.
  assert (Qc_of_nat n ≠ 0) as Hne by (apply Qc_of_nat_ne0; lia).
  split; apply (Qcmult_le_mono_pos_r _ _ _ Hpos); rewrite Qc_div_mul by done.
  - rewrite Qcmult_0_l. apply Qc_of_nat_nonneg.
  - rewrite Qcmult_1_l. by apply Qc_of_nat_le.
Qed.

Lemma Qc_square_le (x : Qc) : 0 ≤ x → x ≤ 1 → x * x ≤ x.
Proof.
  intros H0 H1. rewrite <- (Qcmult_1_l x) at 3. by apply Qcmult_le_compat_r.
Qed.

Lemma Qc_div_le_iff (a b c : Qc) : 0 < b → a / b ≤ c ↔ a ≤ c * b.
Proof.
  intros Hb. rewrite (Qcmult_le_mono_pos_r (a / b) c b Hb).
  by rewrite Qc_div_mul by by apply Qc_pos_ne0.
Qed.

Lemma Qc_le_div_iff (a b c : Qc) : 0 < b → c ≤ a / b ↔ c * b ≤ a.
Proof.
  intros Hb. rewrite (Qcmult_le_mono_pos_r c (a / b) b Hb).
  by rewrite Qc_div_mul by by apply Qc_pos_ne0.
Qed.

Lemma Qc_of_Z_mul a b : Qc_of_Z (a * b) = Qc_of_Z a * Qc_of_Z b.
Proof.
  unfold Qc_of_Z, Qcmult, Q2Qc. apply Qc_is_canon. cbn [this].
  by rewrite inject_Z_mult, !Qred_correct.
Qed.

(** ** Sums *)

Lemma fold_left_Qcplus xs a : fold_left Qcplus xs a = a + py_sum xs.
Proof.
  unfold py_sum. revert a. induction xs as [|x xs IH]; intros a; simpl.
  - ring.
  - rewrite IH, (IH (0 + x)). ring.
Qed.

Lemma py_sum_cons x xs : py_sum (x :: xs) = x + py_sum xs.
Proof. unfold py_sum at 1. simpl. rewrite fold_left_Qcplus. ring. Qed.

Lemma py_sum_Permutation xs ys : xs ≡ₚ ys → py_sum xs = py_sum ys.
Proof.
  induction 1; rewrite ?py_sum_cons; try congruence.
  ring.
Qed.

Lemma fold_left_Zadd xs a : fold_left Z.add xs a = (a + py_sum_Z xs)%Z.
Proof.
  unfold py_sum_Z. revert a. induction xs as [|x xs IH]; intros a; simpl.
  - lia.
  - rewrite IH, (IH (0 + x)%Z). lia.
Qed.

Lemma py_sum_Z_cons x xs : py_sum_Z (x :: xs) = (x + py_sum_Z xs)%Z.
Proof. unfold py_sum_Z at 1. simpl. rewrite fold_left_Zadd. lia. Qed.

Lemma py_sum_of_Z xs : py_sum (Qc_of_Z <$> xs) = Qc_of_Z (py_sum_Z xs).
Proof.
  induction xs as [|x xs IH]; [done|].
  rewrite fmap_cons, py_sum_cons, py_sum_Z_cons, Qc_of_Z_add, IH. done.
Qed.

Lemma py_sum_nonneg xs : Forall (λ x, 0 ≤ x) xs → 0 ≤ py_sum xs.
Proof.
  induction 1 as [|x xs Hx _ IH]; [apply Qcle_refl|].
  rewrite py_sum_cons. 
  replace 0 with (0 + 0) by ring. by apply Qcplus_le_compat.
Qed.

Lemma py_sum_pos xs x :
  Forall (λ y, 0 ≤ y) xs → x ∈ xs → 0 < x → 0 < py_sum xs.
Proof.
  induction 1 as [|y ys Hy Hys IH]; intros Hin Hx.
  - by apply elem_of_nil in Hin.
  - rewrite py_sum_cons. apply elem_of_cons in Hin as [<-|Hin].
    + apply Qcplus_pos_nonneg; [done|by apply py_sum_nonneg].
    + apply Qcplus_nonneg_pos; [done|by apply IH].
Qed.

Lemma py_sum_div xs t : py_sum ((λ v, v / t) <$> xs) = py_sum xs / t.
Proof.
  induction xs as [|x xs IH].
  - cbn. unfold Qcdiv. by rewrite Qcmult_0_l.
  - rewrite fmap_cons, !py_sum_cons, IH. unfold Qcdiv. ring.
Qed.

Lemma foldr_py_sum {A} (f : A → Qc) xs :
  foldr (λ c acc, f c + acc) 0 xs = py_sum (f <$> xs).
Proof.
  induction xs as [|x xs IH]; [done|]. simpl. by rewrite py_sum_cons, IH.
Qed.

Lemma foldr_Qcplus_py_sum xs : foldr Qcplus 0 xs = py_sum xs.
Proof.
  induction xs as [|x xs IH]; [done|]. simpl. by rewrite py_sum_cons, IH.
Qed.

Lemma sum_list_filter_le (P : nat → Prop) `{∀ x, Decision (P x)} cs :
  (sum_list (filter P cs) ≤ sum_list cs)%nat.
Proof.
  induction cs as [|c cs IH]; [done|].
  rewrite filter_cons. destruct (decide (P c)); cbn [sum_list sum_list_with]; lia.
Qed.

Lemma filter_all {A} (P : A → Prop) `{∀ x, Decision (P x)} (l : list A) :
  Forall P l → filter P l = l.
Proof.
  induction 1 as [|x l Hx _ IH]; [done|].
  by rewrite filter_cons, decide_True, IH.
Qed.

(** ** Rounding *)

(** [round] returns an integer at distance at most one half. *)
Lemma py_round_nearest (x : Qc) :
  (Qabs (inject_Z (py_round x) - this x) <= 1 # 2)%Q.
Proof.
  unfold py_round. destruct x as [[n d] Hx]. cbn [this Qnum Qden].
  pose proof (Z.div_mod n (Z.pos d) ltac:(lia)) as Hdiv.
  pose proof (Z.mod_pos_bound n (Z.pos d) ltac:(lia)) as Hmod.
  set (f := (n / Z.pos d)%Z) in *. set (r := (n mod Z.pos d)%Z) in *.
  assert (∀ z : Z, (Z.abs (z * Z.pos d - n) * 2 ≤ Z.pos d)%Z →
            (Qabs (inject_Z z - (n # d)) <= 1 # 2)%Q) as Hq.
  { intros z Hz. unfold Qabs, Qle, Qminus, Qplus, Qopp, inject_Z. cbn.
    rewrite Z.mul_1_r. 
    replace (z * Z.pos d + - n)%Z with (z * Z.pos d - n)%Z by lia. lia. }
  destruct (2 * r ?= Z.pos d)%Z eqn:Hcmp.
  - apply Z.compare_eq in Hcmp. destruct (Z.even f); apply Hq; lia.
  - rewrite Z.compare_lt_iff in Hcmp. apply Hq. lia.
  - rewrite Z.compare_gt_iff in Hcmp. apply Hq. lia.
Qed.

Lemma py_round_within (x : Qc) :
  x - Q2Qc (1 # 2) ≤ Qc_of_Z (py_round x) ∧ Qc_of_Z (py_round x) ≤ x + Q2Qc (1 # 2).
Proof.
  pose proof (py_round_nearest x) as H.
  apply Qabs_Qle_condition in H as [H1 H2].
  assert (this (Qc_of_Z (py_round x)) == inject_Z (py_round x))%Q as Hz
    by apply Qred_correct.
  assert (this (x - Q2Qc (1 # 2)) == this x - (1 # 2))%Q as Hm.
  { unfold Qcminus, Qcplus, Qcopp, Q2Qc. cbn [this].
    rewrite !Qred_correct. reflexivity. }
  assert (this (x + Q2Qc (1 # 2)) == this x + (1 # 2))%Q as Hp.
  { unfold Qcplus, Q2Qc. cbn [this]. rewrite !Qred_correct. reflexivity. }
  unfold Qcle. rewrite Hz, Hm, Hp. split.
  - apply (Qplus_le_r _ _ (- this x)). ring_simplify.
    eapply Qle_trans; [|eapply Qle_trans; [exact H1|]]; apply Qle_lteq; right; ring.
  - apply (Qplus_le_r _ _ (- this x)). ring_simplify.
    eapply Qle_trans; [|eapply Qle_trans; [exact H2|]]; apply Qle_lteq; right; ring.
Qed.

Lemma Qc_scale_pos (scale : Z) : (0 < scale)%Z → 0 < Qc_of_Z scale.
Proof. intros H. by apply (proj1 (Qc_of_Z_lt 0 scale)). Qed.

(** [round(v, n)] is [v] rounded to a multiple of [10 ^ -n]. *)
Lemma py_round_n_rounds (v : Qc) (ndigits : nat) :
  rounds_to (10 ^ Z.of_nat ndigits) v (py_round_n v ndigits).
Proof.
  unfold rounds_to, py_round_n.
  set (s := (10 ^ Z.of_nat ndigits)%Z).
  assert (0 < s)%Z as Hs by (apply Z.pow_pos_nonneg; lia).
  assert (0 < Qc_of_Z s) as Hsq by (by apply Qc_scale_pos).
  assert (Qc_of_Z s ≠ 0) as Hne by (by apply Qc_pos_ne0).
  assert (Qc_of_Z (2 * s) = Qc_of_Z 2 * Qc_of_Z s) as H2s by apply Qc_of_Z_mul.
  assert (Qc_of_Z 2 ≠ 0) as H2 by by_compute.
  destruct (py_round_within (v * Qc_of_Z s)) as [Hlo Hhi].
  split; [by eexists|]. split.
  - apply Qc_le_div_iff; [done|].
    replace ((v - 1 / Qc_of_Z (2 * s)) * Qc_of_Z s)
      with (v * Qc_of_Z s - Q2Qc (1 # 2)); [done|].
    replace (Q2Qc (1 # 2)) with (1 / Qc_of_Z 2) by by_compute.
    rewrite H2s. field. by split.
  - apply Qc_div_le_iff; [done|].
    replace ((v + 1 / Qc_of_Z (2 * s)) * Qc_of_Z s)
      with (v * Qc_of_Z s + Q2Qc (1 # 2)); [done|].
    replace (Q2Qc (1 # 2)) with (1 / Qc_of_Z 2) by by_compute.
    rewrite H2s. field. by split.
Qed.

(** [round(v)] is [v] rounded to an integer. *)
Lemma py_round_rounds (v : Qc) : rounds_to 1 v (Qc_of_Z (py_round v)).
Proof.
  destruct (py_round_within v) as [Hlo Hhi].
  split; [exists (py_round v); change (Qc_of_Z 1) with 1; by field|].
  replace (1 / Qc_of_Z (2 * 1)) with (Q2Qc (1 # 2)) by by_compute. done.
Qed.

(** ** Results *)

Lemma mapM_fmap_Ok {A B C} (f : B → result C) (g : A → B) (h : A → C) l :
  (∀ x, f (g x) = Ok (h x)) → mapM f (g <$> l) = Ok (h <$> l).
Proof.
  intros H. induction l as [|x l IH]; [done|].
  rewrite !fmap_cons. simpl. by rewrite H, IH.
Qed.

Lemma mapM_total {A B} (f : A → result B) (l : list A) :
  (∀ a, a ∈ l → ∃ b, f a = Ok b) → ∃ bs, mapM f l = Ok bs.
Proof.
  induction l as [|a l IH]; intros Hf; [by eexists|].
  destruct (Hf a) as [b Hb]; [apply list_elem_of_here|].
  destruct IH as [bs Hbs]; [intros; by apply Hf, list_elem_of_further|].
  exists (b :: bs). cbn. by rewrite Hb, Hbs.
Qed.

Lemma mapM_tagged {A B} (f : A → result B) (Q : A → B → Prop) (l : list A) :
  (∀ a, a ∈ l → ∃ b, f a = Ok b ∧ Q a b) →
  ∃ bs, mapM (λ a, do b <- f a; Ok (a, b)) l = Ok bs
        ∧ ∀ a, a ∈ l → ∃ b, (a, b) ∈ bs ∧ Q a b.
Proof.
  induction l as [|a l IH]; intros Hf.
  - exists []. split; [done|]. intros ? H. by apply elem_of_nil in H.
  - destruct (Hf a) as (b & Hb & HQ); [apply list_elem_of_here|].
    destruct IH as (bs & Hbs & Hin); [intros; by apply Hf, list_elem_of_further|].
    exists ((a, b) :: bs). cbn. rewrite Hb. cbn. rewrite Hbs. cbn. split; [done|].
    intros a' [->|Ha']%elem_of_cons.
    + exists b. split; [apply list_elem_of_here|done].
    + destruct (Hin a' Ha') as (b' & ? & ?). exists b'.
      split; [by apply list_elem_of_further|done].
Qed.

Lemma mapM_item_Ok {A B} (field : A → option B) key (ps : list A) :
  Forall (λ p, is_Some (field p)) ps →
  ∃ vs, mapM (λ p, item (field p) key) ps = Ok vs ∧ length vs = length ps.
Proof.
  induction 1 as [|p ps [v Hv] _ (vs & IH & Hlen)]; [by exists []|].
  exists (v :: vs). cbn. rewrite Hv, IH. cbn. by rewrite Hlen.
Qed.

Lemma mapM_item_Raise {A B} (field : A → option B) key (ps : list A) :
  Exists (λ p, field p = None) ps →
  mapM (λ p, item (field p) key) ps = Raise (KeyError key).
Proof.
  induction 1 as [p ps Hp|p ps _ IH]; cbn.
  - by rewrite Hp.
  - destruct (field p); cbn; [by rewrite IH|done].
Qed.

Lemma py_div_nat a n : n ≠ 0%nat → py_div a (Qc_of_nat n) = Ok (a / Qc_of_nat n).
Proof.
  intros Hn. unfold py_div. rewrite decide_False; [done|by apply Qc_of_nat_ne0].
Qed.

Lemma py_div_zero a : py_div a (Qc_of_nat 0) = Raise ZeroDivisionError.
Proof. unfold py_div. by rewrite decide_True. Qed.

(** ** Dictionaries *)

Section DictFacts.
Context {V : Type}.
Implicit Types (d : list (string * V)) (k : string) (v : V).

Lemma dict_get_set d k v k' :
  dict_get (dict_set d k v) k' = if decide (k = k') then Some v else dict_get d k'.
Proof.
  induction d as [|[k0 v0] d IH]; simpl.
  - by destruct (decide (k = k')).
  - destruct (decide (k0 = k)) as [->|Hne]; simpl.
    + by destruct (decide (k = k')).
    + destruct (decide (k0 = k')) as [->|]; [|done].
      by destruct (decide (k = k')); [congruence|].
Qed.

Lemma dict_get_None d k : dict_get d k = None ↔ k ∉ dict_keys d.
Proof.
  unfold dict_keys. induction d as [|[k0 v0] d IH]; simpl.
  - split; [intros _; apply not_elem_of_nil|done].
  - rewrite not_elem_of_cons. destruct (decide (k0 = k)) as [->|Hne].
    + split; [done|]. by intros [? _].
    + rewrite IH. split; [intros; split; [congruence|done]|by intros [_ ?]].
Qed.

Lemma dict_get_Some_elem d k v : dict_get d k = Some v → (k, v) ∈ d.
Proof.
  induction d as [|[k0 v0] d IH]; simpl; [done|].
  destruct (decide (k0 = k)) as [->|]; intros H.
  - injection H as ->. apply list_elem_of_here.
  - apply list_elem_of_further; auto.
Qed.

Lemma dict_elem_get d k v :
  NoDup (dict_keys d) → (k, v) ∈ d → dict_get d k = Some v.
Proof.
  unfold dict_keys. induction d as [|[k0 v0] d IH]; simpl.
  - intros _ H. by apply elem_of_nil in H.
  - rewrite NoDup_cons. intros [Hk0 Hnd]. rewrite elem_of_cons. intros [Heq|Hin].
    + injection Heq as -> ->. by rewrite decide_True.
    + destruct (decide (k0 = k)) as [->|]; [|by auto].
      exfalso. apply Hk0. apply list_elem_of_fmap. by exists (k, v).
Qed.

Lemma dict_keys_set d k v :
  dict_keys (dict_set d k v) =
    if decide (k ∈ dict_keys d) then dict_keys d else dict_keys d ++ [k].
Proof.
  unfold dict_keys. induction d as [|[k0 v0] d IH].
  - destruct (decide (k ∈ ([] : list (string * V)).*1)) as [H|]; [|done].
    by apply elem_of_nil in H.
  - cbn [dict_set]. destruct (decide (k0 = k)) as [->|Hne].
    + destruct (decide (k ∈ ((k, v0) :: d).*1)) as [|H]; [done|].
      exfalso. apply H, list_elem_of_here.
    + rewrite !fmap_cons, IH. cbn [fst].
      destruct (decide (k ∈ d.*1)) as [Hin|Hnin];
        destruct (decide (k ∈ k0 :: d.*1)) as [Hin'|Hnin']; try done.
      * exfalso. by apply Hnin', list_elem_of_further.
      * apply elem_of_cons in Hin' as [?|?]; [congruence|done].
Qed.



Lemma dict_keys_set_NoDup d k v :
  NoDup (dict_keys d) → NoDup (dict_keys (dict_set d k v)).
Proof.
  intros Hnd. rewrite dict_keys_set. destruct (decide _) as [|Hnin]; [done|].
  apply NoDup_app. split_and!; [done| |apply NoDup_singleton].
  intros x Hx. rewrite list_elem_of_singleton. by intros ->.
Qed.

Lemma dict_set_values_Forall (P : V → Prop) d k v :
  Forall P (dict_values d) → P v → Forall P (dict_values (dict_set d k v)).
Proof.
  unfold dict_values. intros Hd Hv. induction d as [|[k0 v0] d IH]; cbn [dict_set].
  - by repeat constructor.
  - rewrite fmap_cons in Hd. apply Forall_cons in Hd as [H0 Hd].
    destruct (decide (k0 = k)); rewrite fmap_cons; constructor; auto.
Qed.

Lemma dict_get_values (P : V → Prop) d k v :
  Forall P (dict_values d) → dict_get d k = Some v → P v.
Proof.
  intros Hd Hget. apply dict_get_Some_elem in Hget.
  apply (proj1 (Forall_forall _ _) Hd). unfold dict_values.
  apply list_elem_of_fmap. by exists (k, v).
Qed.

Lemma dict_set_not_nil d k v : dict_set d k v ≠ [].
Proof. destruct d as [|[k0 v0] d]; cbn; [done|]. by destruct (decide (k0 = k)). Qed.

Lemma dict_get_middle d1 k v d2 :
  k ∉ dict_keys d1 → dict_get (d1 ++ (k, v) :: d2) k = Some v.
Proof.
  unfold dict_keys. induction d1 as [|[k0 v0] d1 IH]; cbn [dict_get app].
  - intros _. by rewrite decide_True.
  - rewrite fmap_cons, not_elem_of_cons. intros [Hne Hnin].
    rewrite decide_False by done. by apply IH.
Qed.

Lemma dict_set_middle d1 k v v' d2 :
  k ∉ dict_keys d1 →
  dict_set (d1 ++ (k, v) :: d2) k v' = d1 ++ (k, v') :: d2.
Proof.
  unfold dict_keys. induction d1 as [|[k0 v0] d1 IH]; cbn [dict_set app].
  - intros _. by rewrite decide_True.
  - rewrite fmap_cons, not_elem_of_cons. intros [Hne Hnin].
    rewrite decide_False by done. by rewrite IH.
Qed.

(** Updating every key in turn is a map over the entries. *)
Lemma dict_update_all (h : option V → V) (g : V → V)
    (done_ todo : list (string * V)) :
  (∀ v, h (Some v) = g v) →
  NoDup (dict_keys (done_ ++ todo)) →
  fold_left (λ d f, dict_set d f (h (dict_get d f))) (dict_keys todo)
            (done_ ++ todo)
  = done_ ++ ((λ kv, (kv.1, g kv.2)) <$> todo).
Proof.
  intros Hh. revert done_. induction todo as [|[k v] todo IH]; intros done_ Hnd; [done|].
  unfold dict_keys in *. rewrite fmap_cons. cbn [fold_left fst].
  assert (k ∉ done_.*1) as Hk.
  { rewrite fmap_app, fmap_cons in Hnd. apply NoDup_app in Hnd as (_ & Hd & _).
    intros Hin. apply (Hd _ Hin), list_elem_of_here. }
  rewrite dict_get_middle, dict_set_middle, Hh by done.
  rewrite (cons_middle _ done_ todo), app_assoc. rewrite IH.
  - by rewrite <- app_assoc.
  - rewrite <- app_assoc. cbn. 
    rewrite !fmap_app, !fmap_cons in *. done.
Qed.

Lemma dict_item_keys d k :
  k ∈ dict_keys d → ∃ v, dict_item d k = Ok v ∧ dict_get d k = Some v.
Proof.
  intros Hk. unfold dict_item. destruct (dict_get d k) as [v|] eqn:Hget.
  - by exists v.
  - by apply dict_get_None in Hget.
Qed.

Lemma dict_item_Ok_keys d k v : dict_item d k = Ok v → k ∈ dict_keys d.
Proof.
  unfold dict_item. destruct (dict_get d k) eqn:Hget; [|done]. intros _.
  destruct (decide (k ∈ dict_keys d)) as [|Hn]; [done|].
  apply dict_get_None in Hn. congruence.
Qed.

Lemma dict_keys_set_present d k v :
  k ∈ dict_keys d → dict_keys (dict_set d k v) = dict_keys d.
Proof. intros Hk. rewrite dict_keys_set. by rewrite decide_True. Qed.
End DictFacts.

Lemma dict_get_keys {V} (d : list (string * V)) k v :
  dict_get d k = Some v → k ∈ dict_keys d.
Proof.
  intros Hget. destruct (decide (k ∈ dict_keys d)) as [|Hn]; [done|].
  apply dict_get_None in Hn. congruence.
Qed.

Lemma dict_get_fmap {V W} (f : string * V → W) (d : list (string * V)) k :
  dict_get ((λ kv, (kv.1, f kv)) <$> d) k
  = (λ v, f (k, v)) <$> dict_get d k.
Proof.
  induction d as [|[k' v] d IH]; [done|].
  cbn. destruct (decide (k' = k)) as [->|]; [done|apply IH].
Qed.

Lemma dict_incr_keys d k d' :
  dict_incr d k = Ok d' → dict_keys d' = dict_keys d.
Proof.
  unfold dict_incr. destruct (dict_item d k) as [v|] eqn:Hitem; [|done].
  cbn. intros [= <-]. apply dict_keys_set_present. by eapply dict_item_Ok_keys.
Qed.

Lemma sum_values_dict_set (c : list (string * nat)) k v :
  (sum_list (dict_values (dict_set c k v)) + default 0 (dict_get c k)
   = sum_list (dict_values c) + v)%nat.
Proof.
  unfold dict_values. induction c as [|[k0 v0] c IH]; [cbn; lia|].
  cbn [dict_set dict_get]. destruct (decide (k0 = k)); cbn in *; lia.
Qed.

(** ** [Counter] and [most_common] *)

Lemma class_count_app k l1 l2 :
  class_count k (l1 ++ l2) = (class_count k l1 + class_count k l2)%nat.
Proof. unfold class_count. by rewrite filter_app, length_app. Qed.

Lemma class_count_cons k x l :
  class_count k (x :: l) = ((if decide (x = k) then 1 else 0) + class_count k l)%nat.
Proof.
  unfold class_count. rewrite filter_cons. by destruct (decide (x = k)).
Qed.

Lemma class_count_pos k l : (0 < class_count k l)%nat ↔ k ∈ l.
Proof.
  induction l as [|x l IH].
  - split; [cbn; lia|]. intros H. by apply elem_of_nil in H.
  - rewrite class_count_cons, elem_of_cons. destruct (decide (x = k)) as [|Hne].
    + split; [auto|lia].
    + rewrite Nat.add_0_l, IH. split; [auto|]. by intros [?|?]; [congruence|].
Qed.

Lemma class_count_zero k l : k ∉ l → class_count k l = 0%nat.
Proof. rewrite <- class_count_pos. lia. Qed.

Lemma counter_inv_nil : counter_inv [] [].
Proof.
  split.
  - apply NoDup_nil_2.
  - intros k. destruct (decide (k ∈ [])) as [H|]; [|done]. by apply elem_of_nil in H.
  - intros [] ?????; discriminate.
Qed.

Lemma counter_inv_add labels c x :
  counter_inv labels c → counter_inv (labels ++ [x]) (counter_add c x).
Proof.
  intros [Hnd Hget Hord]. unfold counter_add. split.
  - by apply dict_keys_set_NoDup.
  - intros k. rewrite dict_get_set, class_count_app.
    destruct (decide (x = k)) as [->|Hne].
    + rewrite decide_True by (apply elem_of_app; right; apply list_elem_of_here).
      rewrite Hget, class_count_cons.
      destruct (decide (k = k)); [|done].
      destruct (decide (k ∈ labels)) as [|Hnin]; simpl; [done|].
      by rewrite (class_count_zero _ _ Hnin).
    + rewrite Hget, class_count_cons.
      destruct (decide (x = k)); [done|].
      replace (class_count k labels + (0 + class_count k []))%nat
        with (class_count k labels) by (cbn; lia).
      destruct (decide (k ∈ labels)) as [Hin|Hnin];
        destruct (decide (k ∈ labels ++ [x])) as [Hin'|Hnin']; try done.
      * exfalso. apply Hnin', elem_of_app. by left.
      * apply elem_of_app in Hin' as [?|Hx]; [done|].
        apply list_elem_of_singleton in Hx. congruence.
  - intros ks1 a ks2 b Heq Hb. rewrite dict_keys_set in Heq.
    destruct (decide (x ∈ dict_keys c)) as [Hin|Hnin].
    + destruct (Hord _ _ _ _ Heq Hb) as (l1 & l2 & -> & Ha & Hbl).
      exists l1, (l2 ++ [x]). split_and!; [|done..]. by rewrite <- app_assoc.
    + destruct ks2 as [|e2 ks2 _] using rev_ind.
      { by apply elem_of_nil in Hb. }
      rewrite app_comm_cons, app_assoc in Heq.
      apply app_inj_tail in Heq as [Hc <-].
      apply elem_of_app in Hb as [Hb|Hb].
      * destruct (Hord _ _ _ _ Hc Hb) as (l1 & l2 & -> & Ha & Hbl).
        exists l1, (l2 ++ [x]). split_and!; [|done..]. by rewrite <- app_assoc.
      * apply list_elem_of_singleton in Hb as ->.
        assert (a ∈ labels) as Ha.
        { destruct (decide (a ∈ labels)) as [|Hn]; [done|]. exfalso.
          specialize (Hget a). rewrite decide_False in Hget by done.
          apply dict_get_None in Hget. apply Hget. rewrite Hc.
          apply elem_of_app; right. apply list_elem_of_here. }
        assert (x ∉ labels) as Hxl.
        { intros Hxl. specialize (Hget x). rewrite decide_True in Hget by done.
          apply dict_get_None in Hnin. congruence. }
        apply list_elem_of_split_l in Ha as (l1 & l2 & -> & Hal1).
        exists l1, (l2 ++ [x]). split_and!; [by rewrite <- app_assoc|done|].
        intros ?. apply Hxl. apply elem_of_app; by left.
Qed.

Lemma Counter_snoc labels x : Counter (labels ++ [x]) = counter_add (Counter labels) x.
Proof. unfold Counter. by rewrite fold_left_app. Qed.

Lemma Counter_inv labels : counter_inv labels (Counter labels).
Proof.
  induction labels as [|x labels IH] using rev_ind.
  - apply counter_inv_nil.
  - rewrite Counter_snoc. by apply counter_inv_add.
Qed.

Lemma Counter_nonempty labels : labels ≠ [] → Counter labels ≠ [].
Proof.
  destruct labels as [|x labels]; [done|]. intros _ Hc.
  pose proof (inv_get _ _ (Counter_inv (x :: labels)) x) as Hget.
  rewrite Hc in Hget. rewrite decide_True in Hget by apply list_elem_of_here. done.
Qed.

Lemma Counter_elem labels k n :
  (k, n) ∈ Counter labels ↔ k ∈ labels ∧ n = class_count k labels.
Proof.
  pose proof (Counter_inv labels) as [Hnd Hget _]. split.
  - intros Hin. apply (dict_elem_get _ _ _ Hnd) in Hin. rewrite Hget in Hin.
    destruct (decide (k ∈ labels)); [|done]. by injection Hin as <-.
  - intros [Hk ->]. apply dict_get_Some_elem. rewrite Hget. by rewrite decide_True.
Qed.

Lemma Counter_values labels :
  dict_values (Counter labels)
  = (λ k, class_count k labels) <$> dict_keys (Counter labels).
Proof.
  unfold dict_values, dict_keys.
  assert (Forall (λ kv, kv.2 = class_count kv.1 labels) (Counter labels)) as H.
  { apply Forall_forall. intros [k n] Hin. by apply Counter_elem in Hin as [_ ->]. }
  revert H. generalize (Counter labels). intros c H.
  induction H as [|[k n] c Hk _ IH]; [done|].
  rewrite !fmap_cons. simpl in Hk. simpl. by rewrite IH, Hk.
Qed.

Lemma Counter_values_sum labels :
  sum_list (dict_values (Counter labels)) = length labels.
Proof.
  induction labels as [|x labels IH] using rev_ind; [done|].
  rewrite Counter_snoc, length_app. unfold counter_add.
  pose proof (sum_values_dict_set (Counter labels) x
                (default 0%nat (dict_get (Counter labels) x) + 1)%nat).
  cbn [length]. lia.
Qed.

Lemma Counter_keys_classes subset classes :
  present_classes subset classes →
  dict_keys (Counter (label_of <$> subset)) ≡ₚ classes.
Proof.
  intros [Hnd Hiff]. apply NoDup_Permutation; [|done|].
  - apply (inv_nodup _ _ (Counter_inv _)).
  - intros k. rewrite Hiff. unfold dict_keys. rewrite list_elem_of_fmap. split.
    + intros ([k' n] & -> & Hin). by apply Counter_elem in Hin as [? _].
    + intros Hk. exists (k, class_count k (label_of <$> subset)). split; [done|].
      by apply Counter_elem.
Qed.

Lemma py_max_from_spec {A} (key : A → nat) best xs :
  ∃ pre post, best :: xs = pre ++ py_max_from key best xs :: post
    ∧ (∀ y, y ∈ pre → (key y < key (py_max_from key best xs))%nat)
    ∧ (∀ y, y ∈ post → (key y ≤ key (py_max_from key best xs))%nat).
Proof.
  revert best. induction xs as [|x xs IH]; intros best; simpl.
  - exists [], []. split_and!; [done|intros y Hy; by apply elem_of_nil in Hy..].
  - destruct (decide (key best < key x)%nat) as [Hlt|Hge].
    + destruct (IH x) as (pre & post & Heq & Hpre & Hpost).
      exists (best :: pre), post. split_and!; [by rewrite Heq| |done].
      intros y [->|Hy]%elem_of_cons; [|by auto].
      destruct pre as [|p pre]; simpl in Heq.
      * injection Heq as Hx _. by rewrite <- Hx.
      * injection Heq as <- _. specialize (Hpre x (list_elem_of_here _ _)). lia.
    + destruct (IH best) as (pre & post & Heq & Hpre & Hpost).
      destruct pre as [|p pre]; simpl in Heq.
      * injection Heq as Hb Hxs. exists [], (x :: xs).
        split_and!; [by rewrite <- Hb|intros y Hy; by apply elem_of_nil in Hy|].
        rewrite <- Hb. intros y [->|Hy]%elem_of_cons; [lia|].
        rewrite Hb. apply Hpost. by rewrite <- Hxs.
      * injection Heq as <- Hxs. exists (best :: x :: pre), post.
        split_and!; [simpl; by rewrite <- Hxs| |done].
        pose proof (Hpre best (list_elem_of_here _ _)).
        intros y [->|[->|Hy]%elem_of_cons]%elem_of_cons; [done|lia|].
        apply Hpre. by apply list_elem_of_further.
Qed.

Lemma py_max_spec {A} (key : A → nat) xs r :
  py_max key xs = Some r →
  ∃ pre post, xs = pre ++ r :: post
    ∧ (∀ y, y ∈ pre → (key y < key r)%nat)
    ∧ (∀ y, y ∈ post → (key y ≤ key r)%nat).
Proof.
  destruct xs as [|x xs]; [done|]. simpl. intros [= <-]. apply py_max_from_spec.
Qed.

Lemma most_common1_majority labels :
  labels ≠ [] →
  ∃ m, most_common1 (Counter labels) = [(m, class_count m labels)]
       ∧ is_majority_first labels m.
Proof.
  intros Hne. unfold most_common1.
  destruct (py_max snd (Counter labels)) as [[m n]|] eqn:Hmax.
  2:{ apply Counter_nonempty in Hne. by destruct (Counter labels). }
  apply py_max_spec in Hmax as (pre & post & Hc & Hpre & Hpost).
  assert ((m, n) ∈ Counter labels) as Hm.
  { rewrite Hc. apply elem_of_app; right. apply list_elem_of_here. }
  apply Counter_elem in Hm as [Hm ->].
  exists m. split; [done|]. split; [done|].
  intros c Hcl Hcm.
  assert ((c, class_count c labels) ∈ Counter labels) as Hin by by apply Counter_elem.
  rewrite Hc in Hin. apply elem_of_app in Hin as [Hin|Hin].
  - left. apply (Hpre _ Hin).
  - apply elem_of_cons in Hin as [Heq|Hin]; [congruence|].
    pose proof (Hpost _ Hin) as Hle. simpl in Hle.
    destruct (decide (class_count c labels = class_count m labels)) as [Heq|];
      [|left; lia].
    right. split; [done|].
    apply (inv_order _ _ (Counter_inv labels) (pre.*1) m (post.*1) c).
    + unfold dict_keys. by rewrite Hc, fmap_app.
    + apply list_elem_of_fmap. by exists (c, class_count c labels).
Qed.

Lemma counter_add_not_nil c k : counter_add c k ≠ [].
Proof. apply dict_set_not_nil. Qed.

Lemma fold_counter_add_not_nil labels c :
  c ≠ [] → fold_left counter_add labels c ≠ [].
Proof.
  revert c. induction labels as [|x labels IH]; intros c Hc; [done|].
  cbn. apply IH, counter_add_not_nil.
Qed.

(** The tally kept by a run of [counter_add] from any starting tally. *)
Lemma fold_counter_add_get labels c k :
  dict_get (fold_left counter_add labels c) k =
    match dict_get c k with
    | Some v => Some (v + class_count k labels)%nat
    | None => if decide (k ∈ labels) then Some (class_count k labels) else None
    end.
Proof.
  revert c. induction labels as [|x labels IH]; intros c.
  - cbn. destruct (dict_get c k); [f_equal; lia|].
    destruct (decide (k ∈ [])) as [H|]; [by apply elem_of_nil in H|done].
  - cbn [fold_left]. rewrite IH. unfold counter_add. rewrite dict_get_set.
    rewrite class_count_cons.
    destruct (decide (x = k)) as [->|Hne].
    + destruct (dict_get c k); cbn; [f_equal; lia|].
      rewrite decide_True by apply list_elem_of_here. f_equal; lia.
    + destruct (dict_get c k); [f_equal; lia|].
      destruct (decide (k ∈ labels)) as [Hin|Hnin];
        destruct (decide (k ∈ x :: labels)) as [Hin'|Hnin']; try done.
      * exfalso. by apply Hnin', list_elem_of_further.
      * apply elem_of_cons in Hin' as [?|?]; [congruence|done].
Qed.

Lemma fold_counter_add_NoDup labels c :
  NoDup (dict_keys c) → NoDup (dict_keys (fold_left counter_add labels c)).
Proof.
  revert c. induction labels as [|x labels IH]; intros c Hc; [done|].
  cbn. apply IH. by apply dict_keys_set_NoDup.
Qed.

(** Without a tie, the vote does not depend on the starting tally, as long as
    it starts from zero counts. *)
Lemma strict_majority_wins labels c m :
  NoDup (dict_keys c) → Forall (λ v, v = 0%nat) (dict_values c) →
  strict_majority labels m →
  ∃ n, py_max snd (fold_left counter_add labels c) = Some (m, n).
Proof.
  intros Hnd Hzero [Hm Hstrict].
  set (tally := fold_left counter_add labels c).
  assert (∀ k n, (k, n) ∈ tally → n = class_count k labels) as Hcount.
  { intros k n Hin.
    apply (dict_elem_get _ _ _ (fold_counter_add_NoDup labels c Hnd)) in Hin.
    subst tally. rewrite fold_counter_add_get in Hin.
    destruct (dict_get c k) as [v|] eqn:Hget.
    - rewrite (dict_get_values _ _ _ _ Hzero Hget) in Hin. by injection Hin as <-.
    - destruct (decide (k ∈ labels)); [|done]. by injection Hin as <-. }
  assert ((m, class_count m labels) ∈ tally) as Hmin.
  { apply dict_get_Some_elem. subst tally. rewrite fold_counter_add_get.
    destruct (dict_get c m) as [v|] eqn:Hget.
    - by rewrite (dict_get_values _ _ _ _ Hzero Hget).
    - by rewrite decide_True. }
  destruct (py_max snd tally) as [[k n]|] eqn:Hmax.
  2:{ destruct tally; [by apply elem_of_nil in Hmin|done]. }
  apply py_max_spec in Hmax as (pre & post & Heq & Hpre & Hpost).
  assert ((k, n) ∈ tally) as Hk.
  { rewrite Heq. apply elem_of_app; right. apply list_elem_of_here. }
  apply Hcount in Hk as ->.
  destruct (decide (k = m)) as [->|Hne]; [by eexists|]. exfalso.
  specialize (Hstrict k Hne).
  rewrite Heq in Hmin. apply elem_of_app in Hmin as [Hin|Hin].
  - specialize (Hpre _ Hin). cbn in Hpre. lia.
  - apply elem_of_cons in Hin as [[=]|Hin]; [done|].
    specialize (Hpost _ Hin). cbn in Hpost. lia.
Qed.

(** ** The model at work *)

Example py_round_examples :
  py_round (Q2Qc (5 # 2)) = 2%Z ∧ py_round (Q2Qc (7 # 2)) = 4%Z
  ∧ py_round (Q2Qc (-5 # 2)) = (-2)%Z ∧ py_round (Q2Qc (13 # 5)) = 3%Z.
Proof. by vm_compute. Qed.

Example py_round_n_example :
  py_round_n (Q2Qc (1 # 3)) 4 = Q2Qc (3333 # 10000).
Proof. apply Qc_is_canon. by vm_compute. Qed.

Example Counter_example :
  Counter ["low"; "high"; "low"; "medium"; "high"]%string
  = [("low", 2); ("high", 2); ("medium", 1)]%string%nat
  ∧ most_common1 (Counter ["low"; "high"; "low"; "medium"; "high"]%string)
    = [("low"%string, 2%nat)].
Proof. by vm_compute. Qed.

Example split_gain_example :
  _calculate_split_gain separable_data "asset_age_months" (Qc_of_Z 7) = Q2Qc (1 # 2)
  ∧ _calculate_split_gain separable_data "asset_age_months" (Qc_of_Z 1) = 0.
Proof. split; apply Qc_is_canon; by vm_compute. Qed.

Example percentile_threshold_example :
  this ∘ percentile_threshold
           (Qc_of_Z <$> [1; 2; 3; 4; 5; 6; 7; 8; 9; 10; 11; 12]%Z)
    <$> percentiles
  = [4 # 1; 7 # 1; 10 # 1]%Q.
Proof. by vm_compute. Qed.

Example build_tree_example :
  ∃ threshold l r importances g,
    _build_tree separable_data 0 5 ([], drop 12 separable_tape)
    = (Split "asset_age_months" threshold (Leaf l) (Leaf r), (importances, g))
    ∧ this threshold = 7%Q
    ∧ prediction l = "low"%string ∧ samples l = 6%nat
    ∧ prediction r = "high"%string ∧ samples r = 6%nat
    ∧ dict_keys importances = ["asset_age_months"%string].
Proof.
  do 5 eexists. split; [vm_compute; reflexivity|]. by vm_compute.
Qed.

(** * The split evaluator *)

Lemma filter_rest_ge (data : list Sample) feature threshold :
  filter (λ d, ¬ feature_get (features d) feature < threshold) data
  = filter (λ d, threshold ≤ feature_get (features d) feature) data.
Proof. apply list_filter_iff. intros d. apply Qc_not_lt_le. Qed.

Lemma entropy_impurity subset classes :
  subset ≠ [] → present_classes subset classes →
  entropy subset = impurity subset classes.
Proof.
  intros Hne Hcl. unfold entropy, impurity.
  destruct (decide (length subset = 0%nat)) as [H0|_].
  { by destruct subset. }
  f_equal. rewrite foldr_py_sum.
  rewrite filter_all.
  2:{ rewrite Counter_values. apply Forall_fmap, Forall_forall. intros k Hk. simpl.
      apply class_count_pos. unfold dict_keys in Hk.
      apply list_elem_of_fmap in Hk as ([k' n] & -> & Hin).
      by apply Counter_elem in Hin as [? _]. }
  rewrite Counter_values, <- list_fmap_compose.
  rewrite (py_sum_Permutation _ _
             (fmap_Permutation _ _ _ (Counter_keys_classes _ _ Hcl))).
  f_equal. apply list_fmap_ext. intros _ k _. simpl. unfold Qcpower. ring.
Qed.

(** Claim C2 (split evaluator).  With [left] the samples whose feature value,
    0 when missing, is below the threshold and [right] the rest:
    [_calculate_split_gain] returns 0 when either partition is empty, and
    otherwise the impurity of the parent minus the size-weighted sum of the
    impurities of the two children, where the impurity of a non-empty subset
    is minus the sum of the squared class frequencies, taken over any
    duplicate-free enumeration of the [risk_level] classes present in it. *)
Theorem split_gain_spec (data : list Sample) (feature : string) (threshold : Qc) :
  let left := filter (λ d, feature_get (features d) feature < threshold) data in
  let right := filter (λ d, ¬ feature_get (features d) feature < threshold) data in
  (left = [] ∨ right = [] → _calculate_split_gain data feature threshold = 0)
  ∧ (left ≠ [] → right ≠ [] →
     ∀ cp cl cr,
       present_classes data cp → present_classes left cl →
       present_classes right cr →
       _calculate_split_gain data feature threshold
       = impurity data cp
         - (Qc_of_nat (length left) / Qc_of_nat (length data) * impurity left cl
            + Qc_of_nat (length right) / Qc_of_nat (length data) * impurity right cr)).
Proof.
  intros left right. subst left right. rewrite filter_rest_ge.
  unfold _calculate_split_gain. split.
  - intros Hempty. rewrite decide_True; [done|].
    destruct Hempty as [-> | ->]; auto.
  - intros Hl Hr cp cl cr Hcp Hcl Hcr.
    rewrite decide_False.
    2:{ intros [H|H]; [apply Hl|apply Hr]; by apply nil_length_inv. }
    assert (data ≠ []) as Hd by (intros ->; by apply Hl).
    by rewrite (entropy_impurity _ _ Hd Hcp), (entropy_impurity _ _ Hl Hcl),
      (entropy_impurity _ _ Hr Hcr).
Qed.

(** The two records of [tied_forest], split at an asset age of 60 months. *)
Lemma split_gain_spec_witness :
  _calculate_split_gain [sample_high; sample_low] "asset_age_months" (Qc_of_Z 60)
  = impurity [sample_high; sample_low] ["high"; "low"]%string
    - (Qc_of_nat 1 / Qc_of_nat 2 * impurity [sample_low] ["low"%string]
       + Qc_of_nat 1 / Qc_of_nat 2 * impurity [sample_high] ["high"%string]).
Proof.
  apply (proj2 (split_gain_spec [sample_high; sample_low] "asset_age_months"
                                (Qc_of_Z 60))).
  - vm_compute. discriminate.
  - vm_compute. discriminate.
  - split; [by_compute|intros c; reflexivity].
  - split; [by_compute|].
    intros c. reflexivity.
  - split; [by_compute|].
    intros c. reflexivity.
Defined.

(** ** Bounds on the impurity and on the gain *)

Lemma sum_squares_bound (cs : list nat) (n : nat) :
  (0 < n)%nat → (sum_list cs ≤ n)%nat →
  py_sum ((λ c : nat, (Qc_of_nat c / Qc_of_nat n) * (Qc_of_nat c / Qc_of_nat n)) <$> cs)
  ≤ Qc_of_nat (sum_list cs) / Qc_of_nat n.
Proof.
  intros Hn. assert (Qc_of_nat n ≠ 0) as Hne by (apply Qc_of_nat_ne0; lia).
  induction cs as [|c cs IH]; intros Hsum.
  - cbn. unfold Qcdiv. rewrite Qcmult_0_l. apply Qcle_refl.
  - cbn [sum_list sum_list_with id] in *. rewrite fmap_cons, py_sum_cons, Qc_of_nat_add.
    replace ((Qc_of_nat c + Qc_of_nat (sum_list cs)) / Qc_of_nat n)
      with (Qc_of_nat c / Qc_of_nat n + Qc_of_nat (sum_list cs) / Qc_of_nat n)
      by (field; done).
    apply Qcplus_le_compat; [|apply IH; lia].
    destruct (Qc_of_nat_div_bounds c n) as [H0 H1]; [lia|done|].
    by apply Qc_square_le.
Qed.

Lemma entropy_lower_bound subset : - (1) ≤ entropy subset.
Proof.
  unfold entropy. destruct (decide (length subset = 0%nat)) as [|Hlen].
  { by apply (proj1 (Qc_of_Z_le (-1) 0)). }
  apply Qcopp_le_compat.
  set (cs := filter (λ c : nat, (0 < c)%nat) _).
  assert (sum_list cs ≤ length subset)%nat as Hsum.
  { subst cs. etrans; [apply sum_list_filter_le|].
    by rewrite Counter_values_sum, length_fmap. }
  etrans; [apply sum_squares_bound; [lia|done]|].
  apply Qc_of_nat_div_bounds; [done|lia].
Qed.

Lemma entropy_negative subset : subset ≠ [] → entropy subset < 0.
Proof.
  intros Hne. unfold entropy. destruct (decide (length subset = 0%nat)) as [H0|Hlen].
  { by destruct subset. }
  apply (proj2 (Qclt_minus_iff _ _)). rewrite Qcplus_0_l, Qcopp_involutive.
  destruct subset as [|d subset]; [done|].
  set (labels := label_of <$> d :: subset).
  set (n := length (d :: subset)) in *.
  apply (py_sum_pos _ ((Qc_of_nat (class_count (label_of d) labels) / Qc_of_nat n)
                        * (Qc_of_nat (class_count (label_of d) labels) / Qc_of_nat n))).
  - apply Forall_fmap, Forall_forall. intros c _. simpl.
    assert (0 ≤ Qc_of_nat c / Qc_of_nat n) as H0.
    { apply (Qcmult_le_mono_pos_r _ _ (Qc_of_nat n)); [apply Qc_of_nat_pos; lia|].
      rewrite Qc_div_mul by (apply Qc_of_nat_ne0; lia).
      rewrite Qcmult_0_l. apply Qc_of_nat_nonneg. }
    by apply Qcmult_nonneg_nonneg.
  - apply list_elem_of_fmap. exists (class_count (label_of d) labels). split; [done|].
    assert (label_of d ∈ labels) as Hin by apply list_elem_of_here.
    apply list_elem_of_filter. split; [by apply class_count_pos|].
    unfold dict_values. apply list_elem_of_fmap.
    exists (label_of d, class_count (label_of d) labels). split; [done|].
    by apply Counter_elem.
  - assert (0 < Qc_of_nat (class_count (label_of d) labels) / Qc_of_nat n) as Hpos.
    { apply (Qcmult_lt_mono_pos_r _ _ (Qc_of_nat n)); [apply Qc_of_nat_pos; lia|].
      rewrite Qc_div_mul by (apply Qc_of_nat_ne0; lia).
      rewrite Qcmult_0_l. apply Qc_of_nat_pos, class_count_pos, list_elem_of_here. }
    by apply Qcmult_pos_pos.
Qed.

Lemma split_gain_lower_bound data feature threshold :
  - (1) < _calculate_split_gain data feature threshold.
Proof.
  unfold _calculate_split_gain.
  set (left := filter _ data). set (right := filter _ data).
  destruct (decide (length left = 0%nat ∨ length right = 0%nat)) as [|Hne].
  { by apply (proj1 (Qc_of_Z_lt (-1) 0)). }
  assert (left ≠ [] ∧ right ≠ []) as [Hl Hr].
  { split; intros Heq; apply Hne; rewrite Heq; auto. }
  assert (data ≠ []) as Hd by (intros ->; by apply Hl).
  assert (0 < Qc_of_nat (length data)) as Hn.
  { apply Qc_of_nat_pos. destruct data; [done|cbn; lia]. }
  assert (∀ s : list Sample, s ≠ [] →
            Qc_of_nat (length s) / Qc_of_nat (length data) * entropy s < 0) as Hw.
  { intros s Hs.
    assert (0 < Qc_of_nat (length s) / Qc_of_nat (length data)) as Hpos.
    { apply (Qcmult_lt_mono_pos_r _ _ _ Hn).
      rewrite Qc_div_mul by (apply Qc_of_nat_ne0; by destruct data).
      rewrite Qcmult_0_l. apply Qc_of_nat_pos. destruct s; [done|cbn; lia]. }
    pose proof (proj1 (Qcmult_lt_mono_pos_l _ _ _ Hpos) (entropy_negative s Hs)) as H.
    by rewrite Qcmult_0_r in H. }
  apply Qcle_lt_trans with (entropy data); [apply entropy_lower_bound|].
  apply (proj2 (Qclt_minus_iff _ _)).
  pose proof (Qcplus_neg_nonpos _ _ (Hw left Hl) (Qclt_le_weak _ _ (Hw right Hr))) as HS.
  apply (proj1 (Qclt_minus_iff _ _)) in HS.
  set (weighted := _ * entropy left + _ * entropy right) in *.
  replace (entropy data - weighted + - entropy data) with (0 + - weighted)
    by ring.
  exact HS.
Qed.

(** ** Values and thresholds of a feature *)

Lemma StronglySorted_le_lt (l : list Qc) :
  StronglySorted Qcle l → NoDup l → StronglySorted Qclt l.
Proof.
  induction 1 as [|x l Hs IH Hx]; intros Hnd; [constructor|].
  apply NoDup_cons in Hnd as [Hx' Hnd]. constructor; [by apply IH|].
  apply Forall_forall. intros y Hy.
  destruct (Qcle_lt_or_eq x y) as [Hlt | ->]; [|done|done].
  by apply (proj1 (Forall_forall _ _) Hx).
Qed.

Lemma feature_values_spec data feature :
  distinct_sorted_values data feature (feature_values data feature).
Proof.
  unfold feature_values, py_sorted_set. split.
  - apply StronglySorted_le_lt.
    + apply StronglySorted_merge_sort; apply _.
    + rewrite merge_sort_Permutation. apply NoDup_remove_dups.
  - intros v. rewrite merge_sort_Permutation, elem_of_remove_dups, list_elem_of_omap.
    naive_solver.
Qed.

Lemma py_int_floor (q : Qc) : 0 ≤ q → py_int q = Qfloor (this q).
Proof.
  unfold py_int, Qfloor, Qcle, Qle. destruct q as [[n d] Hq]. simpl.
  intros Hn. apply Z.quot_div_nonneg; lia.
Qed.

Lemma percentile_threshold_index values p :
  0 ≤ p →
  percentile_threshold values p = values !!! percentile_index (length values) p.
Proof.
  intros Hp. unfold percentile_threshold, percentile_index.
  rewrite py_int_floor.
  2:{ apply Qcmult_nonneg_nonneg; [apply Qc_of_nat_nonneg|done]. }
  do 3 f_equal. apply Qfloor_comp. unfold Qc_of_nat, Qc_of_Z. simpl.
  by rewrite !Qred_correct.
Qed.

Lemma percentiles_nonneg : Forall (λ p, 0 ≤ p) percentiles.
Proof. repeat constructor; by vm_compute. Qed.

(** ** The search loop *)

Lemma try_feature_consider data best feature :
  try_feature data best feature
  = fold_left consider (feature_candidates data feature) best.
Proof.
  unfold try_feature, feature_candidates.
  destruct (decide _) as [|_]; [done|].
  generalize percentiles_nonneg. generalize percentiles. intros ps Hps. revert best.
  induction Hps as [|p ps Hp _ IH]; intros best; [done|].
  rewrite fmap_cons. cbn [fold_left]. rewrite <- IH. f_equal.
  unfold try_percentile. by rewrite percentile_threshold_index.
Qed.

Lemma fold_try_feature data sampled best :
  fold_left (try_feature data) sampled best
  = fold_left consider (candidates data sampled) best.
Proof.
  unfold candidates. revert best. induction sampled as [|f fs IH]; intros best; [done|].
  cbn [fold_left]. rewrite bind_cons, fold_left_app, IH. f_equal.
  apply try_feature_consider.
Qed.

Lemma fold_consider_from cs (c0 : Candidate) :
  ∃ r, fold_left consider cs (Some c0.1, c0.2) = (Some r.1, r.2)
       ∧ first_best (c0 :: cs) r.
Proof.
  revert c0. induction cs as [|c cs IH]; intros c0.
  - exists c0. split; [done|]. exists [], []. by split_and!.
  - cbn [fold_left]. unfold consider at 2. cbn [snd].
    destruct (decide (c0.2 < c.2)) as [Hlt|Hge].
    + destruct (IH c) as (r & Hr & pre & post & Heq & Hpre & Hpost).
      exists r. split; [done|].
      exists (c0 :: pre), post. split_and!; [by rewrite Heq| |done].
      constructor; [|done].
      destruct pre as [|p pre]; simpl in Heq.
      * by injection Heq as <- _.
      * injection Heq as <- _. apply Forall_cons in Hpre as [Hp _].
        by apply Qclt_trans with (c.2).
    + apply Qcnot_lt_le in Hge.
      destruct (IH c0) as (r & Hr & pre & post & Heq & Hpre & Hpost).
      exists r. split; [done|].
      destruct pre as [|p pre]; simpl in Heq.
      * injection Heq as <- <-. exists [], (c :: cs).
        by split_and!; [|constructor|constructor].
      * injection Heq as <- ->. exists (c0 :: c :: pre), post.
        apply Forall_cons in Hpre as [Hp Hpre].
        split_and!; [done| |done].
        constructor; [done|]. constructor; [|done].
        by apply Qcle_lt_trans with (c0.2).
Qed.

Lemma fold_consider_init cs g0 :
  Forall (λ c : Candidate, g0 < c.2) cs →
  match fold_left consider cs (None, g0) with
  | (None, gain) => cs = [] ∧ gain = g0
  | (Some ft, gain) => first_best cs (ft, gain)
  end.
Proof.
  destruct cs as [|c cs]; [done|]. intros [Hc _]%Forall_cons.
  cbn [fold_left]. unfold consider at 2. cbn [snd]. rewrite decide_True by done.
  destruct (fold_consider_from cs c) as (r & -> & Hr). by destruct r.
Qed.

Lemma candidates_gain data sampled :
  Forall (λ c : Candidate, c.2 = _calculate_split_gain data c.1.1 c.1.2)
         (candidates data sampled).
Proof.
  unfold candidates. induction sampled as [|f fs IH]; [constructor|].
  rewrite bind_cons. apply Forall_app. split; [|done].
  unfold feature_candidates. destruct (decide _); [constructor|].
  by apply Forall_fmap, Forall_true.
Qed.






Section BestSplit.
Context {G : Type} `{!Generator G}.

End BestSplit.


(** ** The random source *)

Section RandomFacts.
Context {G : Type} `{!Generator G}.

Lemma randbelow_lt n (g : G) : (0 < n)%nat → ((randbelow n g).1 < n)%nat.
Proof.
  intros Hn. unfold randbelow. destruct (genrand g) as [r g']. cbn.
  apply Nat.mod_upper_bound. lia.
Qed.

Lemma random_choices_elem {A} (population : list A) k (g : G) x :
  x ∈ (random_choices population k g).1 → x ∈ population.
Proof.
  revert g. induction k as [|k IH]; intros g; cbn.
  - intros Hx. by apply elem_of_nil in Hx.
  - destruct (randbelow (length population) g) as [i g1].
    specialize (IH g1).
    destruct (random_choices population k g1) as [rest g2]. cbn in *.
    destruct (population !! i) as [y|] eqn:Hy; [|done].
    intros [-> | Hx]%elem_of_cons; [|by auto].
    by eapply list_elem_of_lookup_2.
Qed.

Lemma random_choices_length {A} (population : list A) k (g : G) :
  length (random_choices population k g).1
  = if decide (population = []) then 0%nat else k.
Proof.
  revert g. induction k as [|k IH]; intros g; cbn.
  - by destruct (decide _).
  - pose proof (randbelow_lt (length population) g) as Hlt.
    destruct (randbelow (length population) g) as [i g1].
    specialize (IH g1).
    destruct (random_choices population k g1) as [rest g2]. cbn in *.
    destruct (decide (population = [])) as [->|Hne]; [done|].
    destruct (population !! i) as [y|] eqn:Hy; [cbn; by rewrite IH|].
    apply lookup_ge_None in Hy.
    destruct population; [done|]. cbn in *. lia.
Qed.
End RandomFacts.

(** ** What the split search returns *)

Lemma elem_of_insert_inv {A} (l : list A) i y x :
  x ∈ <[i := y]> l → x = y ∨ x ∈ l.
Proof.
  revert i. induction l as [|a l IH]; intros i.
  { cbn. intros Hx. by apply elem_of_nil in Hx. }
  destruct i as [|i]; cbn.
  - intros [->|Hx]%elem_of_cons; [by left|]. right. by apply list_elem_of_further.
  - intros [->|Hx]%elem_of_cons; [right; apply list_elem_of_here|].
    destruct (IH _ Hx) as [->|Hx']; [by left|]. right. by apply list_elem_of_further.
Qed.

Section SplitSearch.
Context {G : Type} `{!Generator G}.

Lemma sample_pool_elem pool n k (g : G) x :
  (n ≤ length pool)%nat → (k ≤ n)%nat →
  x ∈ (sample_pool pool n k g).1 → x ∈ pool.
Proof.
  revert pool n g. induction k as [|k IH]; intros pool n g Hn Hk; cbn.
  - intros Hx. by apply elem_of_nil in Hx.
  - pose proof (randbelow_lt n g) as Hlt.
    destruct (randbelow n g) as [j g1]. cbn in Hlt.
    specialize (IH (<[j := pool !!! (n - 1)%nat]> pool) (n - 1)%nat g1).
    destruct (sample_pool _ (n - 1) k g1) as [rest g2]. cbn in *.
    intros [->|Hx]%elem_of_cons.
    + apply list_elem_of_lookup_total_2. lia.
    + rewrite length_insert in IH.
      destruct (elem_of_insert_inv _ _ _ _ (IH ltac:(lia) ltac:(lia) Hx)) as [->|]; [|done].
      apply list_elem_of_lookup_total_2. lia.
Qed.

Lemma random_sample_elem population k (g : G) x :
  (k ≤ length population)%nat →
  x ∈ (random_sample population k g).1 → x ∈ population.
Proof. intros Hk. by apply sample_pool_elem. Qed.

Lemma feature_candidates_elem data feature (c : Candidate) :
  c ∈ feature_candidates data feature →
  c.1.1 = feature ∧ c.1.2 ∈ feature_values data feature.
Proof.
  unfold feature_candidates. destruct (decide _) as [|Hlen].
  { intros Hc. by apply elem_of_nil in Hc. }
  intros (p & -> & _)%list_elem_of_fmap. split; [done|]. cbn.
  apply list_elem_of_lookup_total_2. unfold percentile_index. lia.
Qed.

Lemma first_best_elem cands c : first_best cands c → c ∈ cands.
Proof.
  intros (pre & post & -> & _). apply elem_of_app. right. apply list_elem_of_here.
Qed.

(** What [_find_best_split] returns when it finds a split. *)
Lemma find_best_split_Some data features (g : G) feature threshold gain :
  (_find_best_split data features g).1 = (Some (feature, threshold), gain) →
  feature ∈ features
  ∧ threshold ∈ feature_values data feature
  ∧ gain = _calculate_split_gain data feature threshold.
Proof.
  unfold _find_best_split.
  pose proof (λ x, random_sample_elem features (5 `min` length features) g x
                     (Nat.le_min_r _ _)) as Hs.
  destruct (random_sample features _ g) as [sampled g']. cbn [fst] in *.
  rewrite fold_try_feature.
  pose proof (fold_consider_init (candidates data sampled) (- (1))) as H.
  intros Heq. rewrite Heq in H.
  assert (first_best (candidates data sampled) (feature, threshold, gain)) as Hb.
  { apply H. eapply Forall_impl; [apply candidates_gain|].
    intros c ->. apply split_gain_lower_bound. }
  apply first_best_elem in Hb.
  pose proof (proj1 (Forall_forall _ _) (candidates_gain data sampled) _ Hb) as Hg.
  apply list_elem_of_bind in Hb as (f & Hc & Hf).
  apply feature_candidates_elem in Hc as [<- Ht]. cbn in *.
  split_and!; [by apply Hs|done|done].
Qed.

(** The two outcomes of one call of [_build_tree]. *)
Lemma build_tree_rem_cases remaining data (st : list (string * Qc) * G) :
  (∃ g1, build_tree_rem remaining data st = (make_leaf data, (st.1, g1)))
  ∨ ∃ remaining' feature threshold gain g1,
      remaining = S remaining' ∧ (10 ≤ length data)%nat
      ∧ feature ∈ numeric_features
      ∧ threshold ∈ feature_values data feature
      ∧ gain = _calculate_split_gain data feature threshold
      ∧ Q2Qc (1 # 1000) ≤ gain
      ∧ build_tree_rem remaining data st =
          let importances :=
            dict_set st.1 feature (default 0 (dict_get st.1 feature) + gain) in
          let built_left :=
            build_tree_rem remaining'
              (filter (λ d, feature_get (features d) feature < threshold) data)
              (importances, g1) in
          let built_right :=
            build_tree_rem remaining'
              (filter (λ d, threshold ≤ feature_get (features d) feature) data)
              built_left.2 in
          (Split feature (py_round_n threshold 2) built_left.1 built_right.1,
           built_right.2).
Proof.
  destruct remaining as [|remaining']; cbn [build_tree_rem].
  { left. exists st.2. by destruct st. }
  destruct (decide (length data < 10)%nat) as [|Hlen].
  { left. exists st.2. by destruct st. }
  pose proof (find_best_split_Some data numeric_features st.2) as Hfind.
  destruct (_find_best_split data numeric_features st.2) as [[best gain] g1].
  destruct best as [[feature threshold]|]; [|left; by exists g1].
  destruct (decide (gain < Q2Qc (1 # 1000))) as [|Hgain]; [left; by exists g1|].
  right. exists remaining', feature, threshold, gain, g1.
  destruct (Hfind feature threshold gain eq_refl) as (Hf & Ht & Hg).
  split_and!; [done|lia|done|done|done|exact (Qcnot_lt_le _ _ Hgain)|].
  cbn zeta.
  destruct (build_tree_rem remaining' (filter _ data) (_, g1)) as [left_node st1].
  cbn [snd fst].
  by destruct (build_tree_rem remaining' (filter _ data) st1) as [right_node st2].
Qed.
End SplitSearch.

(** * The tree builder *)

Lemma make_leaf_nil : make_leaf [] = default_leaf.
Proof.
  unfold make_leaf, default_leaf. simpl. do 2 f_equal.
  - apply Qc_is_canon. by vm_compute.
Qed.

Lemma make_leaf_summary data : ∃ l, make_leaf data = Leaf l ∧ leaf_summary data l.
Proof.
  eexists. split; [reflexivity|]. split; [done|]. split.
  - intros ->. cbn. split; [done|]. split; [|done].
    apply Qc_is_canon. by vm_compute.
  - intros Hne. cbn [prediction probability days].
    rewrite !decide_False by done.
    assert (label_of <$> data ≠ []) as Hl by by destruct data.
    destruct (most_common1_majority _ Hl) as (m & -> & Hm).
    split; [done|]. unfold mean, probabilities, day_estimates.
    rewrite !foldr_Qcplus_py_sum, !length_fmap.
    split; [done|].
    by rewrite (list_fmap_compose (λ d, estimated_days_to_failure (target d)) Qc_of_Z),
      py_sum_of_Z.
Qed.

Lemma leaf_summary_rounds data l : leaf_summary data l → leaf_rounds data l.
Proof.
  intros (Hs & Hnil & Hcons). split; [done|]. split; [done|].
  intros Hne. destruct (Hcons Hne) as (Hm & -> & ->).
  split; [done|]. split; [apply (py_round_n_rounds _ 4)|apply py_round_rounds].
Qed.

Section BuildTree.
Context {G : Type} `{!Generator G}.

Lemma build_tree_stops data depth max_depth (st : list (string * Qc) * G) :
  must_stop data depth max_depth st.2 →
  (_build_tree data depth max_depth st).1 = make_leaf data.
Proof.
  unfold must_stop, _build_tree. intros Hstop.
  destruct (max_depth - depth)%nat as [|remaining] eqn:Hrem; [done|].
  cbn [build_tree_rem].
  destruct (decide (length data < 10)%nat) as [|Hlen]; [done|].
  destruct Hstop as [Hd|[Hl|Hg]]; [lia|done|].
  destruct (_find_best_split data numeric_features st.2) as [[best gain] g1].
  simpl in Hg. destruct best as [[bf bt]|]; [|done].
  by rewrite decide_True.
Qed.

(** Claim C5, amended.  When [depth >= max_depth], or the subset has fewer
    than 10 samples, or the best gain found is below 0.001, [_build_tree]
    returns a leaf whose sample count is the size of the subset and, for a
    non-empty subset, whose prediction is the majority class (ties going to
    the class met first), whose probability is the mean
    [failure_probability] rounded to 4 decimals (a multiple of 0.0001 within
    0.00005 of the mean) and whose days is the mean
    [estimated_days_to_failure] rounded to an integer (within 0.5 of the
    mean); over an empty subset the leaf is [medium], 0.5, 100.  Which
    neighbour the rounding takes when the mean sits halfway between two is
    left open. *)
Theorem build_tree_leaf_rule data depth max_depth (st : list (string * Qc) * G) :
  must_stop data depth max_depth st.2 →
  ∃ l, (_build_tree data depth max_depth st).1 = Leaf l ∧ leaf_rounds data l.
Proof.
  intros Hstop. rewrite (build_tree_stops _ _ _ _ Hstop).
  destruct (make_leaf_summary data) as (l & Hl & Hsum).
  exists l. split; [done|by apply leaf_summary_rounds].
Qed.
End BuildTree.

(** A single record at the maximum depth. *)
Lemma build_tree_leaf_rule_witness :
  must_stop [fine_sample] 5 5 ([] : list nat)
  ∧ ∃ l, (_build_tree [fine_sample] 5 5 ([], [] : list nat)).1 = Leaf l
         ∧ leaf_rounds [fine_sample] l.
Proof.
  assert (must_stop [fine_sample] 5 5 ([] : list nat)) as H by (left; lia).
  split; [exact H|]. apply (build_tree_leaf_rule [fine_sample] 5 5 ([], [])). exact H.
Defined.

(** Claim C5 as stated, with the plain means as the leaf's probability and
    days, fails: over the single record [fine_sample], of probability
    0.123456, the leaf stores 0.1235. *)
Lemma build_tree_leaf_plain_means_fails :
  ¬ (∀ data depth max_depth (st : list (string * Qc) * list nat),
       must_stop data depth max_depth st.2 →
       ∃ l, (_build_tree data depth max_depth st).1 = Leaf l
            ∧ leaf_summary_plain data l).
Proof.
  intros H.
  destruct (H [fine_sample] 5%nat 5%nat ([], [])) as (l & Hl & _ & _ & Hp & _).
  { left. lia. }
  cbn in Hl. injection Hl as <-. cbn in Hp.
  apply (f_equal (λ q : Qc, Qnum (this q))) in Hp. vm_compute in Hp. discriminate.
Qed.

(** * The forest trainer *)

(** ** The empty training set *)

Section TrainerFacts.
Context {G : Type} `{!Generator G}.

Lemma fit_loop_nil count self (g : G) :
  fit_loop count [] self g =
    ({| n_trees := n_trees self;
        trees := trees self ++ replicate count default_leaf;
        feature_importances := feature_importances self |}, g).
Proof.
  revert self. induction count as [|count IH]; intros self.
  - simpl. rewrite app_nil_r. by destruct self.
  - cbn [fit_loop random_choices length]. 
    unfold _build_tree. cbn [Nat.sub build_tree_rem length].
    rewrite decide_True by lia. rewrite make_leaf_nil.
    rewrite IH. cbn. by rewrite <- app_assoc.
Qed.

(** Claim C7 (empty training set).  [fit] on an empty training set returns a
    forest of exactly [n_trees] trees, each the leaf [medium], 0.5, 100 over
    0 samples, and leaves [feature_importances] empty. *)
Theorem fit_empty_training_set (n : nat) (g : G) :
  let self := (fit (__init__ n) [] g).1 in
  n_trees self = n
  ∧ trees self = replicate n default_leaf
  ∧ feature_importances self = [].
Proof.
  unfold fit. rewrite fit_loop_nil. cbn. done.
Qed.
End TrainerFacts.

(** ** Feature importances *)

Lemma py_sum_app xs ys : py_sum (xs ++ ys) = py_sum xs + py_sum ys.
Proof.
  unfold py_sum at 1. rewrite fold_left_app, fold_left_Qcplus. done.
Qed.

Lemma gain_sum_cons f k x log :
  gain_sum f ((k, x) :: log)
  = (if decide (k = f) then x else 0) + gain_sum f log.
Proof.
  unfold gain_sum. rewrite filter_cons. cbn [fst].
  destruct (decide (k = f)).
  - by rewrite fmap_cons, py_sum_cons.
  - by rewrite Qcplus_0_l.
Qed.

Lemma gain_sum_nonneg f log :
  Forall (λ e : string * Qc, 0 ≤ e.2) log → 0 ≤ gain_sum f log.
Proof.
  intros H. apply py_sum_nonneg, Forall_fmap.
  apply Forall_forall. intros e [_ He]%list_elem_of_filter.
  by eapply Forall_forall in H.
Qed.

(** What the tally holds after a list of updates: for every key, the value
    it had before plus the gains recorded for it since. *)
Lemma fold_record_gain log importances :
  NoDup (dict_keys importances) →
  NoDup (dict_keys (fold_left record_gain log importances))
  ∧ ∀ f, dict_get (fold_left record_gain log importances) f
         = if decide (f ∈ dict_keys importances ∨ f ∈ log.*1)
           then Some (default 0 (dict_get importances f) + gain_sum f log)
           else None.
Proof.
  revert importances. induction log as [|[k x] log IH]; intros importances Hnd.
  { split; [done|]. intros f. cbn [fold_left fmap list_fmap].
    destruct (decide _) as [[Hin|Hin]|Hout].
    - apply dict_item_keys in Hin as (v & _ & ->). cbn.
      unfold gain_sum. cbn. f_equal. by rewrite Qcplus_0_r.
    - by apply elem_of_nil in Hin.
    - apply dict_get_None. tauto. }
  cbn [fold_left]. unfold record_gain at 2. cbn [fst snd].
  set (importances' := dict_set importances k _).
  assert (NoDup (dict_keys importances')) as Hnd' by by apply dict_keys_set_NoDup.
  destruct (IH importances' Hnd') as [Hfinal Hget].
  split; [done|]. intros f. rewrite Hget.
  assert (f ∈ dict_keys importances' ↔ f ∈ dict_keys importances ∨ f = k) as Hkeys.
  { subst importances'. rewrite dict_keys_set.
    destruct (decide (k ∈ dict_keys importances)) as [Hk|Hk].
    - split; [tauto|]. intros [?| ->]; done.
    - rewrite elem_of_app, list_elem_of_singleton. done. }
  assert (default 0 (dict_get importances' f) + gain_sum f log
          = default 0 (dict_get importances f) + gain_sum f ((k, x) :: log)) as Hval.
  { subst importances'. rewrite dict_get_set, gain_sum_cons.
    destruct (decide (k = f)) as [->|Hne]; cbn; ring. }
  rewrite fmap_cons. cbn [fst].
  destruct (decide (f ∈ dict_keys importances' ∨ f ∈ log.*1)) as [Hin|Hout].
  - rewrite decide_True.
    + by rewrite Hval.
    + rewrite elem_of_cons. rewrite Hkeys in Hin. tauto.
  - rewrite decide_False; [done|].
    rewrite elem_of_cons. rewrite Hkeys in Hout. tauto.
Qed.

Lemma sum_values_record_gain importances e :
  py_sum (dict_values (record_gain importances e))
  = py_sum (dict_values importances) + e.2.
Proof.
  destruct e as [k x]. unfold record_gain. cbn [fst snd].
  induction importances as [|[k' v] rest IH].
  { cbn [dict_set dict_get default]. unfold dict_values.
    rewrite fmap_cons, py_sum_cons. cbn [snd fmap list_fmap].
    change (py_sum []) with 0. ring. }
  cbn [dict_set dict_get]. destruct (decide (k' = k)) as [->|Hne].
  - unfold dict_values. rewrite !fmap_cons, !py_sum_cons. cbn. ring.
  - unfold dict_values in *. rewrite !fmap_cons, !py_sum_cons, IH. cbn. ring.
Qed.

Lemma sum_values_fold_record_gain log importances :
  py_sum (dict_values (fold_left record_gain log importances))
  = py_sum (dict_values importances) + py_sum log.*2.
Proof.
  revert importances. induction log as [|e log IH]; intros importances.
  { cbn [fold_left fmap list_fmap]. change (py_sum []) with 0. ring. }
  cbn [fold_left]. rewrite IH, sum_values_record_gain, fmap_cons, py_sum_cons. ring.
Qed.

Lemma recorded_splits_nil data tree log :
  recorded_splits data tree log → log = [] ↔ ¬ is_split tree.
Proof. destruct 1; cbn; [tauto|]. split; [done|tauto]. Qed.

(** The normalisation of a tally with distinct keys and a positive total. *)
Lemma normalize_total importances :
  NoDup (dict_keys importances) → 0 < py_sum (dict_values importances) →
  normalize importances
  = (λ kv, (kv.1, kv.2 / py_sum (dict_values importances))) <$> importances.
Proof.
  intros Hnd Htotal. unfold normalize. rewrite decide_True by done.
  apply (dict_update_all (λ o, default 0 o / py_sum (dict_values importances))
                         (λ v, v / py_sum (dict_values importances))
                         [] importances); done.
Qed.

Lemma normalize_positive importances :
  positive_tally importances → importances ≠ [] →
  0 < py_sum (dict_values importances)
  ∧ normalize importances
    = (λ kv, (kv.1, kv.2 / py_sum (dict_values importances))) <$> importances.
Proof.
  intros [Hnd Hpos] Hne.
  assert (0 < py_sum (dict_values importances)) as Htotal.
  { destruct importances as [|[k v] rest]; [done|].
    apply (py_sum_pos _ v).
    - eapply Forall_impl; [exact Hpos|]. intros. by apply Qclt_le_weak.
    - apply list_elem_of_here.
    - unfold dict_values in Hpos. rewrite fmap_cons in Hpos.
      by apply Forall_cons in Hpos as [? _]. }
  split; [done|]. unfold normalize. rewrite decide_True by done.
  apply (dict_update_all (λ o, default 0 o / py_sum (dict_values importances))
                         (λ v, v / py_sum (dict_values importances))
                         [] importances); done.
Qed.

Lemma normalize_sum importances :
  positive_tally importances → importances ≠ [] →
  py_sum (dict_values (normalize importances)) = 1
  ∧ Forall (λ v, 0 < v) (dict_values (normalize importances)).
Proof.
  intros Hpos Hne. destruct (normalize_positive _ Hpos Hne) as [Htotal ->].
  set (total := py_sum (dict_values importances)) in *.
  assert (dict_values ((λ kv : string * Qc, (kv.1, kv.2 / total)) <$> importances)
          = (λ v, v / total) <$> dict_values importances) as ->.
  { unfold dict_values. rewrite <- !list_fmap_compose. done. }
  split.
  - rewrite py_sum_div. fold total. field. by apply Qc_pos_ne0.
  - apply Forall_fmap. eapply Forall_impl; [apply Hpos|]. intros v Hv. simpl.
    apply (Qcmult_lt_mono_pos_r _ _ _ Htotal).
    rewrite Qc_div_mul, Qcmult_0_l; [done|]. by apply Qc_pos_ne0.
Qed.

Section Importances.
Context {G : Type} `{!Generator G}.

Lemma build_tree_rem_tally remaining data importances (g : G) :
  positive_tally importances →
  positive_tally (build_tree_rem remaining data (importances, g)).2.1
  ∧ (is_split (build_tree_rem remaining data (importances, g)).1 →
     (build_tree_rem remaining data (importances, g)).2.1 ≠ [])
  ∧ (¬ is_split (build_tree_rem remaining data (importances, g)).1 →
     (build_tree_rem remaining data (importances, g)).2.1 = importances)
  ∧ (importances ≠ [] →
     (build_tree_rem remaining data (importances, g)).2.1 ≠ []).
Proof.
  revert data importances g.
  induction remaining as [|remaining IH]; intros data importances g Hpos.
  { cbn. by split_and!. }
  cbn [build_tree_rem snd fst].
  destruct (decide (length data < 10)%nat); [cbn; by split_and!|].
  destruct (_find_best_split data numeric_features g) as [[best gain] g1].
  destruct best as [[bf bt]|]; [|cbn; by split_and!].
  destruct (decide (gain < Q2Qc (1 # 1000))) as [|Hgain]; [cbn; by split_and!|].
  apply Qcnot_lt_le in Hgain.
  set (importances' :=
         dict_set importances bf (default 0 (dict_get importances bf) + gain)).
  assert (positive_tally importances') as Hpos'.
  { destruct Hpos as [Hnd Hv]. split; [by apply dict_keys_set_NoDup|].
    apply dict_set_values_Forall; [done|].
    assert (0 < gain) as Hg.
    { eapply Qclt_le_trans; [|exact Hgain]. by vm_compute. }
    destruct (dict_get importances bf) as [v|] eqn:Hget; cbn.
    - apply Qcplus_pos_nonneg; [by apply (dict_get_values _ _ _ _ Hv Hget)|].
      by apply Qclt_le_weak.
    - by rewrite Qcplus_0_l. }
  assert (importances' ≠ []) as Hne' by apply dict_set_not_nil.
  pose proof (IH (filter (λ d, feature_get (features d) bf < bt) data)
                 importances' g1 Hpos') as (Hp1 & _ & _ & Hn1).
  destruct (build_tree_rem remaining (filter _ data) (importances', g1))
    as [left_node [imp1 g2]].
  cbn [snd fst] in *.
  pose proof (IH (filter (λ d, bt ≤ feature_get (features d) bf) data)
                 imp1 g2 Hp1) as (Hp2 & _ & _ & Hn2).
  destruct (build_tree_rem remaining (filter _ data) (imp1, g2))
    as [right_node [imp2 g3]].
  cbn [snd fst is_split] in *.
  split_and!; [done|auto|done|auto].
Qed.

Lemma fit_loop_tally count data self (g : G) :
  positive_tally (feature_importances self) →
  let self' := (fit_loop count data self g).1 in
  positive_tally (feature_importances self')
  ∧ n_trees self' = n_trees self
  ∧ ∃ new, trees self' = trees self ++ new
      ∧ length new = count
      ∧ (Exists is_split new → feature_importances self' ≠ [])
      ∧ (feature_importances self ≠ [] → feature_importances self' ≠ [])
      ∧ (Forall (λ t, ¬ is_split t) new →
         feature_importances self' = feature_importances self).
Proof.
  revert self g. induction count as [|count IH]; intros self g Hpos.
  { cbn. split_and!; [done..|]. exists []. rewrite app_nil_r.
    split_and!; [done|done| |done|done]. by intros ?%Exists_nil. }
  cbn [fit_loop].
  destruct (random_choices data (length data) g) as [sample g1].
  unfold _build_tree.
  pose proof (build_tree_rem_tally (5 - 0) sample (feature_importances self) g1 Hpos)
    as (Hp & Hs & Hl & Hn).
  destruct (build_tree_rem (5 - 0) sample (feature_importances self, g1))
    as [tree [importances g2]].
  cbn [fst snd] in *.
  specialize (IH {| n_trees := n_trees self; trees := trees self ++ [tree];
                    feature_importances := importances |} g2 Hp).
  cbn [feature_importances trees n_trees] in IH.
  destruct IH as (Hp' & Hnt & new & Htrees & Hlen & Hex & Hne & Hall).
  split_and!; [done..|].
  exists (tree :: new). rewrite Htrees, <- app_assoc.
  split_and!; [done|cbn; lia| | |].
  - intros [Ht|Hnew]%Exists_cons; auto.
  - auto.
  - intros [Ht Hnew]%Forall_cons. rewrite (Hall Hnew). auto.
Qed.

Lemma runs_log_nil (runs : list (list Sample * TreeNode * list (string * Qc))) :
  Forall (λ r, recorded_splits r.1.1 r.1.2 r.2) runs →
  runs ≫= snd = [] ↔ Forall (λ t, ¬ is_split t) ((λ r, r.1.2) <$> runs).
Proof.
  induction 1 as [|r runs Hr _ IH]; [done|].
  rewrite bind_cons, fmap_cons, Forall_cons, <- IH.
  apply recorded_splits_nil in Hr. rewrite <- Hr.
  split; [by intros [??]%app_eq_nil|intros [-> ->]; done].
Qed.

Lemma build_tree_rem_log remaining data importances (g : G) :
  ∃ log,
    recorded_splits data (build_tree_rem remaining data (importances, g)).1 log
    ∧ Forall (λ e : string * Qc, Q2Qc (1 # 1000) ≤ e.2) log
    ∧ (build_tree_rem remaining data (importances, g)).2.1
      = fold_left record_gain log importances.
Proof.
  revert data importances g.
  induction remaining as [|remaining IH]; intros data importances g.
  { exists []. cbn. split_and!; [constructor|done|done]. }
  cbn [build_tree_rem snd fst].
  destruct (decide (length data < 10)%nat).
  { exists []. cbn. split_and!; [constructor|done|done]. }
  destruct (_find_best_split data numeric_features g) as [[best gain] g1] eqn:Hbest.
  destruct best as [[bf bt]|].
  2:{ exists []. cbn. split_and!; [constructor|done|done]. }
  destruct (decide (gain < Q2Qc (1 # 1000))) as [|Hgain].
  { exists []. cbn. split_and!; [constructor|done|done]. }
  apply Qcnot_lt_le in Hgain.
  assert (gain = _calculate_split_gain data bf bt) as Hg.
  { eapply (find_best_split_Some data numeric_features g). by rewrite Hbest. }
  set (importances' :=
         dict_set importances bf (default 0 (dict_get importances bf) + gain)).
  destruct (IH (filter (λ d, feature_get (features d) bf < bt) data)
               importances' g1) as (log_l & Hl & Hgl & Hil).
  destruct (build_tree_rem remaining (filter _ data) (importances', g1))
    as [left_node [imp1 g2]].
  cbn [snd fst] in *.
  destruct (IH (filter (λ d, bt ≤ feature_get (features d) bf) data)
               imp1 g2) as (log_r & Hr & Hgr & Hir).
  destruct (build_tree_rem remaining (filter _ data) (imp1, g2))
    as [right_node [imp2 g3]].
  cbn [snd fst] in *.
  exists ((bf, gain) :: log_l ++ log_r). split_and!.
  - rewrite Hg. constructor; [apply (py_round_n_rounds bt 2)|done|done].
  - constructor; [done|]. by apply Forall_app.
  - cbn [fold_left]. rewrite fold_left_app.
    unfold record_gain at 3. cbn [fst snd]. fold importances'.
    by rewrite <- Hil, <- Hir.
Qed.

Lemma fit_loop_log count data self (g : G) :
  ∃ runs : list (list Sample * TreeNode * list (string * Qc)),
    trees (fit_loop count data self g).1 = trees self ++ ((λ r, r.1.2) <$> runs)
    ∧ length runs = count
    ∧ Forall (λ r, length r.1.1 = length data ∧ r.1.1 ⊆ data
                   ∧ recorded_splits r.1.1 r.1.2 r.2) runs
    ∧ Forall (λ e : string * Qc, Q2Qc (1 # 1000) ≤ e.2) (runs ≫= snd)
    ∧ feature_importances (fit_loop count data self g).1
      = fold_left record_gain (runs ≫= snd) (feature_importances self).
Proof.
  revert self g. induction count as [|count IH]; intros self g.
  { exists []. cbn. rewrite app_nil_r. by split_and!. }
  cbn [fit_loop].
  pose proof (random_choices_length data (length data) g) as Hlen.
  pose proof (λ x, random_choices_elem data (length data) g x) as Helem.
  destruct (random_choices data (length data) g) as [sample g1].
  cbn [fst] in Hlen, Helem. unfold _build_tree.
  destruct (build_tree_rem_log (5 - 0) sample (feature_importances self) g1)
    as (log & Hrec & Hgain & Himp).
  destruct (build_tree_rem (5 - 0) sample (feature_importances self, g1))
    as [tree [importances g2]].
  cbn [fst snd] in *.
  destruct (IH {| n_trees := n_trees self; trees := trees self ++ [tree];
                  feature_importances := importances |} g2)
    as (runs & Htrees & Hcount & Hruns & Hgains & Hfinal).
  cbn [trees feature_importances] in *.
  exists ((sample, tree, log) :: runs).
  rewrite Htrees, <- app_assoc, bind_cons, fold_left_app. cbn [snd].
  split_and!; [done|cbn; lia| |by apply Forall_app|by rewrite <- Himp].
  constructor; [|done]. cbn [fst snd]. split_and!; [|done|done].
  rewrite Hlen. by destruct (decide (data = [])) as [->|].
Qed.

(** Claim C4 (importance normalization), in exact arithmetic.  [fit] adds to
    the tally of every feature the gains of the splits that the new trees
    record for it, and then divides every entry by the total of the tally:
    with [log] the recorded splits of the new trees, the importance of a
    feature is its earlier value plus the gains recorded for it, divided by
    the sum of the earlier values and of all recorded gains.  The importances
    are non-negative; they sum to 1 as soon as a split was recorded (or the
    tally was not empty before); without any, the map stays empty and sums
    to 0; and the normalisation leaves a tally of total 0 as it is. *)
Theorem fit_importances_normalized (self : SimpleRandomForest)
    (data : list Sample) (g : G) :
  positive_tally (feature_importances self) →
  let self' := (fit self data g).1 in
  ∃ runs : list (list Sample * TreeNode * list (string * Qc)),
    let new := (λ r, r.1.2) <$> runs in
    let log := runs ≫= snd in
    let tally f :=
      default 0 (dict_get (feature_importances self) f) + gain_sum f log in
    let total :=
      py_sum (dict_values (feature_importances self)) + py_sum log.*2 in
    trees self' = trees self ++ new
    ∧ length runs = n_trees self
    ∧ Forall (λ r, length r.1.1 = length data ∧ r.1.1 ⊆ data
                   ∧ recorded_splits r.1.1 r.1.2 r.2) runs
    ∧ (∀ f, f ∈ dict_keys (feature_importances self')
            ↔ f ∈ dict_keys (feature_importances self) ∨ f ∈ log.*1)
    ∧ Forall (λ v, 0 ≤ v) (dict_values (feature_importances self'))
    ∧ (feature_importances self ≠ [] ∨ Exists is_split new →
       0 < total
       ∧ (∀ f, f ∈ dict_keys (feature_importances self') →
               dict_get (feature_importances self') f = Some (tally f / total))
       ∧ py_sum (dict_values (feature_importances self')) = 1)
    ∧ (feature_importances self = [] → Forall (λ t, ¬ is_split t) new →
       feature_importances self' = []
       ∧ py_sum (dict_values (feature_importances self')) = 0)
    ∧ (∀ tally, py_sum (dict_values tally) = 0 → normalize tally = tally).
Proof.
  intros Hpos. unfold fit.
  destruct (fit_loop_log (n_trees self) data self g)
    as (runs & Htrees & Hcount & Hruns & Hgains & Himp).
  pose proof (fit_loop_tally (n_trees self) data self g Hpos) as (Hpos' & _).
  destruct (fit_loop (n_trees self) data self g) as [self1 g'].
  cbn [fst feature_importances trees] in *. cbv zeta.
  cbn [fst feature_importances trees].
  exists runs.
  set (log := runs ≫= snd) in *.
  set (old := feature_importances self) in *.
  set (total := py_sum (dict_values old) + py_sum log.*2).
  destruct Hpos as [Hnd Hvals].
  destruct (fold_record_gain log old Hnd) as [Hnd1 Hget].
  rewrite <- Himp in Hnd1, Hget.
  assert (py_sum (dict_values (feature_importances self1)) = total) as Htotal.
  { rewrite Himp. apply sum_values_fold_record_gain. }
  assert (∀ f, f ∈ dict_keys (feature_importances self1)
               ↔ f ∈ dict_keys old ∨ f ∈ log.*1) as Hkeys.
  { intros f. split.
    - intros (v & _ & Hv)%dict_item_keys. rewrite Hget in Hv.
      by destruct (decide _).
    - intros Hin. apply dict_get_keys with (v := default 0 (dict_get old f)
                                                  + gain_sum f log).
      rewrite Hget. by rewrite decide_True. }
  destruct (runs_log_nil runs) as [Hnosplit Hleaf].
  { eapply Forall_impl; [exact Hruns|]. by intros r (_ & _ & ?). }
  fold log in Hnosplit, Hleaf.
  assert (Exists is_split ((λ r, r.1.2) <$> runs) → log ≠ []) as Hsplit.
  { intros Hex Hnil. apply Exists_exists in Hex as (t & Ht & Hs).
    eapply Forall_forall in Hnosplit; [|exact Hnil|exact Ht]. done. }
  assert (feature_importances self1 ≠ [] → 0 < total) as Htpos.
  { intros Hne. destruct (normalize_positive _ Hpos' Hne) as [Ht _]. by rewrite Htotal in Ht. }
  assert (old ≠ [] ∨ log ≠ [] → feature_importances self1 ≠ []) as Hne1.
  { intros [Ho|Hl] Hnil.
    - destruct old as [|[k v] rest]; [done|].
      assert (k ∈ dict_keys (feature_importances self1)) as Hk
        by (apply Hkeys; left; apply list_elem_of_here).
      rewrite Hnil in Hk. by apply elem_of_nil in Hk.
    - destruct log as [|[k x] rest]; [done|].
      assert (k ∈ dict_keys (feature_importances self1)) as Hk
        by (apply Hkeys; right; apply list_elem_of_here).
      rewrite Hnil in Hk. by apply elem_of_nil in Hk. }
  split_and!; [done|done|done| | | | |].
  - intros f. rewrite <- Hkeys.
    destruct (decide (feature_importances self1 = [])) as [Hnil|Hne].
    { by rewrite Hnil. }
    rewrite normalize_total by (rewrite ?Htotal; auto).
    unfold dict_keys. by rewrite <- list_fmap_compose.
  - destruct (decide (feature_importances self1 = [])) as [->|Hne]; [constructor|].
    eapply Forall_impl; [apply (normalize_sum _ Hpos' Hne)|].
    intros. by apply Qclt_le_weak.
  - intros Hsome.
    assert (feature_importances self1 ≠ []) as Hne.
    { apply Hne1. destruct Hsome as [?|?]; [by left|right; auto]. }
    split; [auto|]. split; [|by apply normalize_sum].
    intros f Hf. rewrite normalize_total in Hf |- * by (rewrite ?Htotal; auto).
    rewrite Htotal.
    rewrite (dict_get_fmap (λ kv, kv.2 / total)).
    unfold dict_keys in Hf. rewrite <- list_fmap_compose in Hf.
    change (f ∈ dict_keys (feature_importances self1)) in Hf.
    rewrite Hget, decide_True by (by apply Hkeys). done.
  - intros Hold Hall. rewrite Himp, Hold, (Hleaf Hall). done.
  - intros tally Hzero. unfold normalize. rewrite Hzero. by rewrite decide_False.
Qed.
End Importances.

(** One tree over [separable_data]: its root splits on the asset age. *)
Lemma fit_importances_normalized_witness :
  positive_tally (feature_importances (__init__ 1))
  ∧ Exists is_split (trees (fit (__init__ 1) separable_data separable_tape).1)
  ∧ py_sum (dict_values
              (feature_importances
                 (fit (__init__ 1) separable_data separable_tape).1)) = 1.
Proof.
  assert (positive_tally (feature_importances (__init__ 1))) as Hpos
    by (split; [apply NoDup_nil_2|constructor]).
  assert (Exists is_split (trees (fit (__init__ 1) separable_data separable_tape).1))
    as Hsplit by (vm_compute; left; exact I).
  split; [exact Hpos|]. split; [exact Hsplit|].
  destruct (fit_importances_normalized (__init__ 1) separable_data separable_tape
              Hpos) as (runs & Htrees & _ & _ & _ & _ & Hsum & _).
  apply Hsum. right. cbn [trees __init__ app] in Htrees. by rewrite <- Htrees.
Defined.

(** ** The generator state *)

(** The forest is a function of the training set and of the state of the
    generator, which the source never sets: a second run that continues
    from where the first one stopped can build other trees. *)
Lemma unseeded_rerun_differs :
  let run1 := fit (__init__ 1) [sample_high; sample_low] [0; 0; 1; 1]%nat in
  let run2 := fit (__init__ 1) [sample_high; sample_low] run1.2 in
  trees run1.1 ≠ trees run2.1.
Proof. vm_compute. discriminate. Qed.

(** * The inference engines *)

(** ** Exported documents *)

Lemma verify_predict_tree_export tree fs :
  verify_model.predict_tree (node_to_json tree) fs
  = Ok (node_to_json (Leaf (_predict_tree tree fs))).
Proof.
  induction tree as [l|feature threshold lt IHl rt IHr]; [done|].
  cbn [node_to_json verify_model.predict_tree _predict_tree].
  rewrite decide_False by done.
  by destruct (decide (feature_get fs feature < threshold)).
Qed.

Lemma api_predict_tree_export tree fs :
  api_main.predict_tree (node_to_json tree) fs
  = Ok (node_to_json (Leaf (_predict_tree tree fs))).
Proof.
  induction tree as [l|feature threshold lt IHl rt IHr]; [done|].
  cbn [node_to_json api_main.predict_tree _predict_tree].
  rewrite decide_False by done.
  by destruct (decide (feature_get fs feature < threshold)).
Qed.

Lemma verify_predict_export self fs :
  verify_model.predict (export_to_json self) fs
  = do p <- predict self fs;
    Ok {| verify_model.v_prediction := p;
          verify_model.vote_distribution :=
            Counter (prediction <$> leaves_of self fs) |}.
Proof.
  unfold verify_model.predict, predict, export_to_json. cbn [doc_trees].
  rewrite (mapM_fmap_Ok _ _ (λ t, node_to_json (Leaf (_predict_tree t fs)))) 
    by (intros; apply verify_predict_tree_export).
  cbn [bind].
  rewrite (list_fmap_compose (λ t, _predict_tree t fs) (λ l, node_to_json (Leaf l))).
  fold (leaves_of self fs).
  rewrite (mapM_fmap_Ok _ _ prediction) by done.
  rewrite (mapM_fmap_Ok _ _ probability) by done.
  rewrite (mapM_fmap_Ok _ _ (λ l, Qc_of_Z (days l))) by done.
  cbn [bind]. rewrite !length_fmap.
  rewrite (list_fmap_compose days Qc_of_Z), py_sum_of_Z.
  destruct (py_div (py_sum (probability <$> leaves_of self fs)) _); [|done].
  cbn [bind].
  destruct (py_div (Qc_of_Z (py_sum_Z (days <$> leaves_of self fs))) _); [|done].
  cbn [bind].
  by destruct (py_first (most_common1 (Counter (prediction <$> leaves_of self fs)))).
Qed.

(** Claim C10 (empty forest).  On a forest without trees, [predict] (of the
    trainer and of [verify_model]) raises [ZeroDivisionError] on dividing the
    probability sum by the zero count, and the most common element of the
    empty tally could not be indexed either; on a forest with at least one
    tree both return a prediction, and the same one. *)
Theorem predict_needs_a_tree self fs :
  (trees self = [] →
     predict self fs = Raise ZeroDivisionError
     ∧ verify_model.predict (export_to_json self) fs = Raise ZeroDivisionError
     ∧ py_first (most_common1 (Counter (prediction <$> leaves_of self fs)))
       = Raise IndexError)
  ∧ (trees self ≠ [] →
     ∃ p, predict self fs = Ok p
          ∧ ∃ v, verify_model.predict (export_to_json self) fs = Ok v
                 ∧ verify_model.v_prediction v = p).
Proof.
  split.
  - intros Hnil. rewrite verify_predict_export. unfold leaves_of, predict.
    rewrite Hnil. cbn [fmap list_fmap length]. by rewrite py_div_zero.
  - intros Hne. rewrite verify_predict_export. unfold predict.
    fold (leaves_of self fs).
    assert (leaves_of self fs ≠ []) as Hl.
    { unfold leaves_of. by destruct (trees self). }
    assert (length (leaves_of self fs) ≠ 0%nat) as Hlen.
    { by destruct (leaves_of self fs). }
    rewrite !py_div_nat by done. cbn [bind].
    destruct (most_common1_majority (prediction <$> leaves_of self fs))
      as (m & -> & _).
    { by destruct (leaves_of self fs). }
    cbn [py_first bind]. eexists. split; [done|]. eexists. split; done.
Qed.

(** The two trees of [tied_forest]. *)
Lemma predict_needs_a_tree_witness :
  trees tied_forest ≠ []
  ∧ ∃ p, predict tied_forest ∅ = Ok p
         ∧ ∃ v, verify_model.predict (export_to_json tied_forest) ∅ = Ok v
                ∧ verify_model.v_prediction v = p.
Proof.
  assert (trees tied_forest ≠ []) as H by (vm_compute; discriminate).
  split; [exact H|].
  exact (proj2 (predict_needs_a_tree tied_forest ∅) H).
Defined.

(** ** The API engine against the trainer *)

Lemma fold_vote leaves votes total_prob total_days :
  fold_left api_main.vote ((λ l, node_to_json (Leaf l)) <$> leaves)
            (votes, total_prob, total_days)
  = (fold_left counter_add (prediction <$> leaves) votes,
     total_prob + py_sum (probability <$> leaves),
     total_days + Qc_of_Z (py_sum_Z (days <$> leaves))).
Proof.
  revert votes total_prob total_days.
  induction leaves as [|l leaves IH]; intros votes tp td.
  - cbn [fmap list_fmap fold_left]. change (py_sum []) with (Q2Qc 0).
    change (Qc_of_Z (py_sum_Z [])) with (Q2Qc 0). by rewrite !Qcplus_0_r.
  - rewrite !fmap_cons. cbn [fold_left api_main.vote node_to_json r_prediction
      r_probability r_days default]. rewrite IH.
    rewrite py_sum_cons, py_sum_Z_cons, Qc_of_Z_add. unfold counter_add.
    cbn [fold_left]. unfold id. f_equal; [f_equal|]; ring.
Qed.

Lemma max_key_total votes : votes ≠ [] → ∃ k, api_main.max_key votes = Ok k.
Proof.
  destruct votes as [|kv votes]; [done|]. intros _. unfold api_main.max_key. cbn.
  by eexists.
Qed.

(** The API engine computes the same means as the trainer, and fails on the
    same forests. *)
Lemma api_means_agree self fs :
  match predict self fs, api_main.make_prediction (export_to_json self) fs with
  | Ok p, Ok q =>
      p_failure_probability q = p_failure_probability p
      ∧ p_estimated_days_to_failure q = p_estimated_days_to_failure p
      ∧ api_main.max_key
          (fold_left counter_add (prediction <$> leaves_of self fs)
                     api_main.votes0.1.1) = Ok (p_risk_level q)
  | Raise e, Raise e' => e = e'
  | _, _ => False
  end.
Proof.
  unfold api_main.make_prediction, predict, export_to_json. cbn [doc_trees].
  rewrite (mapM_fmap_Ok _ _ (λ t, node_to_json (Leaf (_predict_tree t fs))))
    by (intros; apply api_predict_tree_export).
  cbn [bind].
  rewrite (list_fmap_compose (λ t, _predict_tree t fs) (λ l, node_to_json (Leaf l))).
  fold (leaves_of self fs). unfold api_main.votes0. rewrite fold_vote.
  rewrite !Qcplus_0_l, !length_fmap.
  destruct (max_key_total (fold_left counter_add (prediction <$> leaves_of self fs)
              [("low", 0); ("medium", 0); ("high", 0)]%string%nat)) as [k Hk].
  { by apply fold_counter_add_not_nil. }
  cbn [fst]. rewrite Hk. cbn [bind].
  destruct (leaves_of self fs) as [|l ls] eqn:Hl.
  { by rewrite py_div_zero. }
  rewrite !py_div_nat by done. cbn [bind].
  destruct (most_common1_majority (prediction <$> l :: ls)) as (m & -> & _); [done|].
  by cbn.
Qed.

(** With an outright winner the three engines return the same risk level. *)
Lemma api_agrees_without_ties self fs m :
  strict_majority (prediction <$> leaves_of self fs) m →
  ∃ p q, predict self fs = Ok p
         ∧ api_main.make_prediction (export_to_json self) fs = Ok q
         ∧ p = q ∧ p_risk_level p = m.
Proof.
  intros Hm. pose proof (api_means_agree self fs) as H.
  assert (leaves_of self fs ≠ []) as Hl.
  { destruct Hm as [Hin _]. intros Heq. rewrite Heq in Hin. by apply elem_of_nil in Hin. }
  assert (∃ p, predict self fs = Ok p ∧ p_risk_level p = m) as (p & Hp & Hpm).
  { unfold predict. fold (leaves_of self fs).
    rewrite !py_div_nat by (by destruct (leaves_of self fs)). cbn [bind].
    destruct (strict_majority_wins _ [] m (NoDup_nil_2) (Forall_nil_2 _) Hm) as [n Hn].
    unfold most_common1, Counter. rewrite Hn. cbn. by eexists. }
  rewrite Hp in H.
  destruct (api_main.make_prediction (export_to_json self) fs) as [q|]; [|done].
  destruct H as (Hprob & Hdays & Hrisk).
  destruct (strict_majority_wins (prediction <$> leaves_of self fs)
              api_main.votes0.1.1 m) as [n Hn]; [| |done|].
  { by_compute. }
  { cbn. by repeat constructor. }
  unfold api_main.max_key in Hrisk. rewrite Hn in Hrisk. injection Hrisk as Hq.
  exists p, q. split_and!; [done..| |done].
  destruct p, q; cbn in *; congruence.
Qed.

(** Claim C1 (the engines against the trainer): the diverging input.
    [verify_model.predict] reproduces the trainer on every forest
    ([verify_predict_export]); [make_prediction] reproduces its two means
    ([api_means_agree]) and, without a tie, its risk level
    ([api_agrees_without_ties]).  On a tied vote it does not: on
    [tied_forest], built by [fit], whose trees vote [high] then [low], the
    trainer and [verify_model.predict] answer [high], the class met first,
    and [make_prediction] answers [low], the first key of its preset tally,
    whatever the feature vector. *)
Theorem api_tie_break_diverges (fs : gmap string Qc) :
  (∃ p, predict tied_forest fs = Ok p ∧ p_risk_level p = "high"%string)
  ∧ (∃ v, verify_model.predict (export_to_json tied_forest) fs = Ok v
          ∧ p_risk_level (verify_model.v_prediction v) = "high"%string)
  ∧ (∃ q, api_main.make_prediction (export_to_json tied_forest) fs = Ok q
          ∧ p_risk_level q = "low"%string).
Proof.
  split_and!; eexists; (split; [vm_compute; reflexivity|reflexivity]).
Qed.

(** ** Malformed documents *)

Lemma predict_tree_same tree fs :
  api_main.predict_tree tree fs = verify_model.predict_tree tree fs.
Proof.
  revert tree.
  fix IH 1. intros [ty pr pb dy sm ft th [l|] [r|]]; cbn;
    destruct ty as [tag|]; try done;
    destruct (decide (tag = "leaf"%string)); try done;
    destruct ft; try done; destruct th; try done;
    destruct (decide _); try done; apply IH.
Qed.

Lemma Exists_or_Forall {A} (P : A → Prop) `{∀ x, Decision (P x)} (l : list A) :
  Exists P l ∨ Forall (λ x, ¬ P x) l.
Proof.
  destruct (decide (Exists P l)) as [|Hn]; [by left|right].
  by apply not_Exists_Forall.
Qed.

Lemma verify_predict_bare_leaf doc fs leaves :
  mapM (λ tree, verify_model.predict_tree tree fs) (doc_trees doc) = Ok leaves →
  Exists bare_leaf leaves →
  ∃ key, verify_model.predict doc fs = Raise (KeyError key).
Proof.
  intros Hleaves Hbare. unfold verify_model.predict. rewrite Hleaves. cbn [bind].
  assert (leaves ≠ []) as Hne by (intros ->; by apply Exists_nil in Hbare).
  assert (∀ {B} (field : RawNode → option B),
            Forall (λ p, ¬ field p = None) leaves →
            Forall (λ p, is_Some (field p)) leaves) as Hs.
  { intros B field H. eapply Forall_impl; [exact H|].
    intros p Hp. destruct (field p) eqn:E; [by eexists|done]. }
  destruct (Exists_or_Forall (λ p, r_prediction p = None) leaves) as [H1|H1].
  { exists "prediction"%string. by rewrite mapM_item_Raise. }
  destruct (mapM_item_Ok r_prediction "prediction" leaves (Hs _ _ H1))
    as (labels & -> & _). cbn [bind].
  destruct (Exists_or_Forall (λ p, r_probability p = None) leaves) as [H2|H2].
  { exists "probability"%string. by rewrite mapM_item_Raise. }
  destruct (mapM_item_Ok r_probability "probability" leaves (Hs _ _ H2))
    as (probs & -> & _). cbn [bind].
  rewrite py_div_nat by (by destruct leaves). cbn [bind].
  destruct (Exists_or_Forall (λ p, r_days p = None) leaves) as [H3|H3].
  { exists "days"%string. by rewrite mapM_item_Raise. }
  exfalso. apply Exists_exists in Hbare as (p & Hp & Hbare).
  destruct Hbare as [Hb|[Hb|Hb]].
  - by apply (proj1 (Forall_forall _ _) H1 p Hp).
  - by apply (proj1 (Forall_forall _ _) H2 p Hp).
  - by apply (proj1 (Forall_forall _ _) H3 p Hp).
Qed.

(** Claim C8 does not hold of the engines.  Neither validates a document:
    one whose root carries the unknown tag [branch] is evaluated by both as
    if it were a split.  And the API engine guesses defaults for structural
    fields: for a leaf without [prediction], [probability] and [days] it
    answers [medium], 0.5, 100, whatever the feature vector, where
    [verify_model.predict] raises [KeyError], as it does whenever a reached
    leaf lacks one of the three fields. *)
Theorem format_violations_accepted :
  ¬ valid_document doc_unknown_tag
  ∧ (∃ v, verify_model.predict doc_unknown_tag ∅ = Ok v
          ∧ p_risk_level (verify_model.v_prediction v) = "low"%string)
  ∧ (∃ q, api_main.make_prediction doc_unknown_tag ∅ = Ok q
          ∧ p_risk_level q = "low"%string)
  ∧ ¬ valid_document doc_bare_leaf
  ∧ (∃ q, api_main.make_prediction doc_bare_leaf ∅ = Ok q
          ∧ p_risk_level q = "medium"%string
          ∧ p_failure_probability q = Q2Qc (1 # 2)
          ∧ p_estimated_days_to_failure q = 100%Z)
  ∧ (∀ fs, api_main.make_prediction doc_bare_leaf fs
           = Ok {| p_risk_level := "medium";
                   p_failure_probability := Q2Qc (1 # 2);
                   p_estimated_days_to_failure := 100 |})
  ∧ (∀ fs, verify_model.predict doc_bare_leaf fs
           = Raise (KeyError "prediction"))
  ∧ (∀ doc fs leaves,
       mapM (λ tree, verify_model.predict_tree tree fs) (doc_trees doc)
       = Ok leaves →
       Exists bare_leaf leaves →
       ∃ key, verify_model.predict doc fs = Raise (KeyError key)).
Proof.
  split_and!.
  - intros H. apply Forall_cons in H as [H _]. vm_compute in H. discriminate.
  - eexists. split; [vm_compute; reflexivity|reflexivity].
  - eexists. split; [vm_compute; reflexivity|reflexivity].
  - intros H. apply Forall_cons in H as [H _]. vm_compute in H. discriminate.
  - eexists. split; [vm_compute; reflexivity|]. split_and!; try reflexivity.
    apply Qc_is_canon. reflexivity.
  - intros fs. vm_compute. do 2 f_equal. apply Qc_is_canon. reflexivity.
  - intros fs. reflexivity.
  - intros doc fs leaves. apply verify_predict_bare_leaf.
Qed.

(** * The evaluator *)

Example evaluate_example :
  ∃ report,
    verify_model.evaluate (export_to_json tied_forest) two_rows = Ok report
    ∧ this (verify_model.accuracy report) = 50%Q
    ∧ verify_model.confusion_matrix report
      = [ ("high", [("high", 1); ("medium", 0); ("low", 0)]);
          ("medium", [("high", 0); ("medium", 0); ("low", 0)]);
          ("low", [("high", 1); ("medium", 0); ("low", 0)]) ]%string%nat
    ∧ (verify_model.class_accuracy report).*1 = levels.
Proof. eexists. split; [vm_compute; reflexivity|]. by vm_compute. Qed.

Lemma tally_row_keys model t row t' :
  tally_keys t → verify_model.tally_row model t row = Ok t' → tally_keys t'.
Proof.
  intros (Hc & Ht & Hm & Hrows). unfold verify_model.tally_row.
  destruct (verify_model.predict model _) as [pred|]; [|done]. cbn [bind].
  destruct (dict_incr (verify_model.risk_total t) _) as [rt|] eqn:Hrt;
    [|done]. cbn [bind].
  destruct (dict_item (verify_model.confusion t) _) as [crow|] eqn:Hrow; [|done].
  cbn [bind].
  destruct (dict_incr crow _) as [crow'|] eqn:Hcrow; [|done].
  cbn [bind].
  assert (dict_keys crow = levels) as Hkr.
  { unfold dict_item in Hrow.
    destruct (dict_get (verify_model.confusion t) _) eqn:Hget; [|done].
    injection Hrow as ->.
    exact (dict_get_values (λ r, dict_keys r = levels) _ _ _ Hrows Hget). }
  assert (tally_keys {| verify_model.correct := 0;
                        verify_model.risk_correct := verify_model.risk_correct t;
                        verify_model.risk_total := rt;
                        verify_model.confusion :=
                          dict_set (verify_model.confusion t)
                                   (verify_model.row_risk_level row) crow' |})
    as (_ & Ht' & Hm' & Hrows').
  { split_and!; cbn [verify_model.risk_total verify_model.risk_correct
                      verify_model.confusion].
    - done.
    - by rewrite (dict_incr_keys _ _ _ Hrt).
    - rewrite dict_keys_set_present; [done|]. by eapply dict_item_Ok_keys.
    - apply dict_set_values_Forall; [done|]. by rewrite (dict_incr_keys _ _ _ Hcrow). }
  cbn [verify_model.risk_total verify_model.risk_correct
         verify_model.confusion] in Ht', Hm', Hrows'.
  destruct (decide _).
  - destruct (dict_incr (verify_model.risk_correct t) _) as [rc|] eqn:Hrc;
      [|done].
    cbn [bind]. intros [= <-].
    split_and!; cbn [verify_model.risk_total verify_model.risk_correct
                       verify_model.confusion]; [|done..].
    by rewrite (dict_incr_keys _ _ _ Hrc).
  - intros [= <-]. by split_and!.
Qed.

Lemma tally_rows_keys model t rows t' :
  tally_keys t → verify_model.tally_rows model t rows = Ok t' → tally_keys t'.
Proof.
  revert t. induction rows as [|row rows IH]; intros t Hk; cbn.
  - by intros [= <-].
  - destruct (verify_model.tally_row model t row) as [t1|] eqn:Hrow; [|done].
    cbn. apply IH. by eapply tally_row_keys.
Qed.

Lemma tally0_keys : tally_keys verify_model.tally0.
Proof. split_and!; try done. cbn. by repeat constructor. Qed.

Lemma per_class_accuracy_total t level :
  tally_keys t → level ∈ levels →
  ∃ total, dict_get (verify_model.risk_total t) level = Some total
    ∧ ((total = 0%nat ∧ verify_model.per_class_accuracy t level = Ok None)
       ∨ ((0 < total)%nat
          ∧ ∃ a, verify_model.per_class_accuracy t level = Ok (Some a))).
Proof.
  intros (Hc & Ht & _) Hl. unfold verify_model.per_class_accuracy.
  destruct (dict_item_keys (verify_model.risk_total t) level) as (total & -> & Hget).
  { by rewrite Ht. }
  exists total. split; [done|]. cbn [bind].
  destruct (decide (0 < total)%nat) as [Hpos|Hz].
  - right. split; [done|].
    destruct (dict_item_keys (verify_model.risk_correct t) level) as (ok & -> & _).
    { by rewrite Hc. }
    cbn [bind]. rewrite py_div_nat by lia. by eexists.
  - left. split; [lia|done].
Qed.

Lemma predicted_total_keys t level :
  tally_keys t → level ∈ levels →
  ∃ n, verify_model.predicted_total t level = Ok n.
Proof.
  intros (_ & _ & Hm & Hrows) Hl. unfold verify_model.predicted_total.
  destruct (mapM_total (λ a, do r <- dict_item (verify_model.confusion t) a;
                             dict_item r level) levels) as [column ->];
    [|by eexists].
  intros a Ha.
  destruct (dict_item_keys (verify_model.confusion t) a) as (r & -> & Hget).
  { by rewrite Hm. }
  cbn [bind]. destruct (dict_item_keys r level) as (n & -> & _); [|by eexists].
  by rewrite (dict_get_values (λ r, dict_keys r = levels) _ _ _ Hrows Hget).
Qed.

Lemma metrics_of_total t level :
  tally_keys t → level ∈ levels →
  ∃ pred_total m,
    verify_model.predicted_total t level = Ok pred_total
    ∧ verify_model.metrics_of t level = Ok m
    ∧ (pred_total = 0%nat → verify_model.precision m = 0)
    ∧ (dict_get (verify_model.risk_total t) level = Some 0%nat →
       verify_model.recall m = 0)
    ∧ (verify_model.precision m + verify_model.recall m = 0 →
       verify_model.f1 m = 0).
Proof.
  intros Hk Hl. destruct (predicted_total_keys t level Hk Hl) as [pred_total Hpt].
  destruct Hk as (Hc & Ht & Hm & Hrows). unfold verify_model.metrics_of.
  rewrite Hpt. cbn [bind].
  assert (∃ p, (if decide (0 < pred_total)%nat then
                  do r <- dict_item (verify_model.confusion t) level;
                  do hit <- dict_item r level;
                  do q <- py_div (Qc_of_nat hit) (Qc_of_nat pred_total);
                  Ok (q * Qc_of_Z 100)
                else Ok 0) = Ok p ∧ (pred_total = 0%nat → p = 0))
    as (p & -> & Hp).
  { destruct (decide (0 < pred_total)%nat); [|by eexists].
    destruct (dict_item_keys (verify_model.confusion t) level) as (r & -> & Hget).
    { by rewrite Hm. }
    cbn [bind].
    destruct (dict_item_keys r level) as (n & -> & _).
    { by rewrite (dict_get_values (λ r, dict_keys r = levels) _ _ _ Hrows Hget). }
    cbn [bind]. rewrite py_div_nat by lia. eexists. split; [done|lia]. }
  cbn [bind].
  destruct (dict_item_keys (verify_model.risk_total t) level) as (total & -> & Hget).
  { by rewrite Ht. }
  cbn [bind].
  assert (∃ r, (if decide (0 < total)%nat then
                  do ok <- dict_item (verify_model.risk_correct t) level;
                  do q <- py_div (Qc_of_nat ok) (Qc_of_nat total);
                  Ok (q * Qc_of_Z 100)
                else Ok 0) = Ok r ∧ (total = 0%nat → r = 0)) as (r & -> & Hr).
  { destruct (decide (0 < total)%nat) as [|Hz]; [|by eexists].
    destruct (dict_item_keys (verify_model.risk_correct t) level) as (ok & -> & _).
    { by rewrite Hc. }
    cbn [bind]. rewrite py_div_nat by lia. eexists. split; [done|lia]. }
  cbn [bind]. exists pred_total.
  destruct (decide (0 < p + r)) as [Hpos|Hz].
  - unfold py_div. rewrite decide_False by (by apply Qc_pos_ne0). cbn [bind].
    eexists. split; [done|]. split; [done|].
    cbn [verify_model.precision verify_model.recall verify_model.f1]. split_and!.
    + done.
    + rewrite Hget. intros [= ->]. by apply Hr.
    + intros Heq. rewrite Heq in Hpos. by apply (Qclt_not_eq 0 0) in Hpos.
  - cbn [bind]. eexists. split; [done|]. split; [done|].
    cbn [verify_model.precision verify_model.recall verify_model.f1]. split_and!.
    + done.
    + rewrite Hget. intros [= ->]. by apply Hr.
    + done.
Qed.

(** With at least one test row, the report divides by zero nowhere: once the
    rows are tallied, the evaluator returns, and a class without samples gets
    no accuracy line, recall 0 and, when its precision is 0 too, F1 0. *)
Lemma evaluate_nonempty model test_data t :
  test_data ≠ [] →
  verify_model.tally_rows model verify_model.tally0 test_data = Ok t →
  ∃ report, verify_model.evaluate model test_data = Ok report
    ∧ ∀ level, level ∈ levels →
        ∃ a m, (level, a) ∈ verify_model.class_accuracy report
          ∧ (level, m) ∈ verify_model.class_metrics report
          ∧ (dict_get (verify_model.risk_total t) level = Some 0%nat →
             a = None ∧ verify_model.recall m = 0)
          ∧ (verify_model.predicted_total t level = Ok 0%nat →
             verify_model.precision m = 0)
          ∧ (verify_model.precision m + verify_model.recall m = 0 →
             verify_model.f1 m = 0).
Proof.
  intros Hne Htally. unfold verify_model.evaluate. rewrite Htally. cbn [bind].
  rewrite py_div_nat by (by destruct test_data). cbn [bind].
  pose proof (tally_rows_keys _ _ _ _ tally0_keys Htally) as Hk.
  destruct (mapM_tagged (verify_model.per_class_accuracy t)
              (λ level a, dict_get (verify_model.risk_total t) level = Some 0%nat
                          → a = None) levels)
    as (pcs & -> & Hpcs).
  { intros level Hl.
    destruct (per_class_accuracy_total t level Hk Hl)
      as (total & Hget & [[-> Ha]|[Hpos [a Ha]]]); rewrite Ha; eexists; (split; [done|]).
    - done.
    - rewrite Hget. intros [= ->]. lia. }
  cbn [bind].
  destruct (mapM_tagged (verify_model.metrics_of t)
              (λ level m,
                 (dict_get (verify_model.risk_total t) level = Some 0%nat
                  → verify_model.recall m = 0)
                 ∧ (verify_model.predicted_total t level = Ok 0%nat
                    → verify_model.precision m = 0)
                 ∧ (verify_model.precision m + verify_model.recall m = 0
                    → verify_model.f1 m = 0)) levels)
    as (ms & -> & Hms).
  { intros level Hl.
    destruct (metrics_of_total t level Hk Hl)
      as (pt & m & Hpt & Hm & Hprec & Hrec & Hf1).
    exists m. split; [done|]. split_and!; [done| |done].
    rewrite Hpt. intros [= ->]. by apply Hprec. }
  cbn [bind]. eexists. split; [done|].
  cbn [verify_model.class_accuracy verify_model.class_metrics].
  intros level Hl.
  destruct (Hpcs level Hl) as (a & Hin & Ha).
  destruct (Hms level Hl) as (m & Hin' & Hrec & Hprec & Hf1).
  exists a, m. split_and!; [done|done| |done|done].
  intros Hz. split; [by apply Ha|by apply Hrec].
Qed.

(** Claim C9 (evaluation metrics): the failing input.  On a test set without
    rows the evaluator of [verify_model.main] divides [correct] by a zero
    [total] and raises [ZeroDivisionError], whatever the model.  With at
    least one row no metric divides by zero ([evaluate_nonempty]), and the
    evaluation in [train_model.main] is guarded
    ([train_accuracy_empty_test_set]). *)
Theorem evaluate_empty_test_set (model : ModelDoc) :
  verify_model.evaluate model [] = Raise ZeroDivisionError.
Proof. unfold verify_model.evaluate. cbn. by rewrite py_div_zero. Qed.

(** The sibling evaluation in [train_model.main] is guarded. *)
Lemma train_accuracy_empty_test_set model : train_accuracy model [] = Ok None.
Proof. done. Qed.

(** * Further properties *)

(** ** The trees the builder can return *)

Section GrownTrees.
Context {G : Type} `{!Generator G}.

Lemma build_tree_rem_grown remaining data (st : list (string * Qc) * G) :
  grown remaining data (build_tree_rem remaining data st).1.
Proof.
  revert data st. induction remaining as [|remaining IH]; intros data st.
  { apply grown_leaf. }
  destruct (build_tree_rem_cases (S remaining) data st)
    as [[g1 ->]|(r & f & t & gain & g1 & [= <-] & Hlen & Hf & Ht & -> & Hgain & ->)].
  { apply grown_leaf. }
  cbn [fst]. by apply grown_split.
Qed.
End GrownTrees.

Lemma grown_depth remaining data tree :
  grown remaining data tree → (tree_depth tree ≤ remaining)%nat.
Proof. induction 1; cbn; lia. Qed.

Lemma filter_split_length (data : list Sample) feature threshold :
  (length (filter (λ d, (feature_get (features d) feature < threshold)%Qc) data)
   + length (filter (λ d, (threshold ≤ feature_get (features d) feature)%Qc) data)
   = length data)%nat.
Proof.
  rewrite <- filter_rest_ge.
  induction data as [|d data IH]; [done|].
  rewrite !filter_cons. destruct (decide _) as [Hlt|Hge].
  - rewrite decide_False by tauto. cbn. lia.
  - rewrite decide_True by done. cbn. lia.
Qed.

Lemma grown_samples remaining data tree :
  grown remaining data tree →
  sum_list (samples <$> tree_leaves tree) = length data.
Proof.
  induction 1 as [|r data f t l rt _ _ _ _ _ IHl _ IHr]; [cbn; lia|].
  cbn [tree_leaves]. rewrite fmap_app, sum_list_with_app.
  fold (sum_list (samples <$> tree_leaves l)).
  fold (sum_list (samples <$> tree_leaves rt)).
  rewrite IHl, IHr. apply filter_split_length.
Qed.

Lemma split_gain_parts data feature threshold :
  _calculate_split_gain data feature threshold ≠ 0 →
  filter (λ d, feature_get (features d) feature < threshold) data ≠ []
  ∧ filter (λ d, threshold ≤ feature_get (features d) feature) data ≠ [].
Proof.
  unfold _calculate_split_gain.
  destruct (decide _) as [|Hne]; [done|]. intros _.
  split; intros Heq; apply Hne; rewrite Heq; auto.
Qed.

Lemma grown_leaves remaining data tree l :
  grown remaining data tree → data ≠ [] → l ∈ tree_leaves tree →
  ∃ sub, sub ≠ [] ∧ sub ⊆ data ∧ make_leaf sub = Leaf l.
Proof.
  induction 1 as [r data|r data f t lt rt _ _ _ Hgain _ IHl _ IHr]; intros Hne Hl.
  - apply list_elem_of_singleton in Hl as ->. by exists data.
  - destruct (split_gain_parts data f t) as [Hleft Hright].
    { intros Heq. rewrite Heq in Hgain. by vm_compute in Hgain. }
    cbn [tree_leaves] in Hl. apply elem_of_app in Hl as [Hl|Hl].
    + destruct (IHl Hleft Hl) as (sub & ? & Hsub & ?). exists sub.
      split_and!; [done| |done]. intros d Hd.
      by apply Hsub, list_elem_of_filter in Hd as [_ ?].
    + destruct (IHr Hright Hl) as (sub & ? & Hsub & ?). exists sub.
      split_and!; [done| |done]. intros d Hd.
      by apply Hsub, list_elem_of_filter in Hd as [_ ?].
Qed.

(** ** Bounds on roundings and means *)

Lemma Qc_of_Z_le_this (z : Z) (x : Qc) :
  Qc_of_Z z ≤ x ↔ (z * Zpos (Qden (this x)) ≤ Qnum (this x))%Z.
Proof.
  unfold Qcle, Qc_of_Z, Q2Qc. cbn [this]. rewrite Qred_correct.
  unfold Qle. cbn. by rewrite Z.mul_1_r.
Qed.

Lemma Qc_le_of_Z_this (z : Z) (x : Qc) :
  x ≤ Qc_of_Z z ↔ (Qnum (this x) ≤ z * Zpos (Qden (this x)))%Z.
Proof.
  unfold Qcle, Qc_of_Z, Q2Qc. cbn [this]. rewrite Qred_correct.
  unfold Qle. cbn. by rewrite Z.mul_1_r.
Qed.

(** Rounding never leaves an interval with integer end points. *)
Lemma py_round_bounds (x : Qc) (lo hi : Z) :
  Qc_of_Z lo ≤ x → x ≤ Qc_of_Z hi → (lo ≤ py_round x ≤ hi)%Z.
Proof.
  rewrite Qc_of_Z_le_this, Qc_le_of_Z_this. unfold py_round.
  set (n := Qnum (this x)). set (d := Zpos (Qden (this x))).
  assert (0 < d)%Z as Hd by done.
  pose proof (Z.div_mod n d ltac:(lia)) as Hdm.
  pose proof (Z.mod_pos_bound n d Hd) as Hr.
  intros Hlo Hhi.
  assert (lo ≤ n / d)%Z as Hf by (apply Z.div_le_lower_bound; lia).
  assert (n / d ≤ hi)%Z as Hf' by (apply Z.div_le_upper_bound; lia).
  assert (0 < n mod d → n / d + 1 ≤ hi)%Z as Hup by nia.
  destruct (Z.compare_spec (2 * (n mod d)) d) as [Heq|Hlt|Hgt].
  - destruct (Z.even (n / d)); lia.
  - lia.
  - lia.
Qed.

Lemma py_round_n_bounds (x : Qc) ndigits (lo hi : Z) :
  Qc_of_Z lo ≤ x → x ≤ Qc_of_Z hi →
  Qc_of_Z lo ≤ py_round_n x ndigits ∧ py_round_n x ndigits ≤ Qc_of_Z hi.
Proof.
  intros Hlo Hhi. unfold py_round_n.
  set (scale := Qc_of_Z (10 ^ Z.of_nat ndigits)).
  assert (0 < scale) as Hs.
  { apply (proj1 (Qc_of_Z_lt 0 (10 ^ Z.of_nat ndigits))).
    apply Z.pow_pos_nonneg; lia. }
  destruct (py_round_bounds (x * scale) (lo * 10 ^ Z.of_nat ndigits)
              (hi * 10 ^ Z.of_nat ndigits)) as [H1 H2].
  { rewrite Qc_of_Z_mul. apply Qcmult_le_compat_r; [done|by apply Qclt_le_weak]. }
  { rewrite Qc_of_Z_mul. apply Qcmult_le_compat_r; [done|by apply Qclt_le_weak]. }
  split.
  - apply Qc_le_div_iff; [done|]. unfold scale at 1.
    rewrite <- Qc_of_Z_mul. exact (proj1 (Qc_of_Z_le _ _) H1).
  - apply Qc_div_le_iff; [done|]. unfold scale at 2.
    rewrite <- Qc_of_Z_mul. exact (proj1 (Qc_of_Z_le _ _) H2).
Qed.

Lemma py_sum_bounds (xs : list Qc) (lo hi : Qc) :
  Forall (λ x, lo ≤ x ∧ x ≤ hi) xs →
  lo * Qc_of_nat (length xs) ≤ py_sum xs ∧ py_sum xs ≤ hi * Qc_of_nat (length xs).
Proof.
  induction 1 as [|x xs [Hlo Hhi] _ [IH1 IH2]].
  { change (Qc_of_nat (length [])) with (Q2Qc 0). rewrite !Qcmult_0_r. by split. }
  rewrite py_sum_cons. cbn [length].
  replace (Qc_of_nat (S (length xs))) with (1 + Qc_of_nat (length xs)).
  2:{ change (S (length xs)) with (1 + length xs)%nat.
      by rewrite Qc_of_nat_add. }
  rewrite !Qcmult_plus_distr_r, !Qcmult_1_r.
  split; by apply Qcplus_le_compat.
Qed.

(** The mean of a non-empty list lies between any bounds of its elements. *)
Lemma py_mean_bounds (xs : list Qc) (lo hi : Qc) :
  xs ≠ [] → Forall (λ x, lo ≤ x ∧ x ≤ hi) xs →
  lo ≤ py_sum xs / Qc_of_nat (length xs) ∧ py_sum xs / Qc_of_nat (length xs) ≤ hi.
Proof.
  intros Hne Hxs. destruct (py_sum_bounds xs lo hi Hxs) as [H1 H2].
  assert (0 < Qc_of_nat (length xs)) as Hn.
  { apply Qc_of_nat_pos. destruct xs; [done|cbn; lia]. }
  split; [by apply Qc_le_div_iff|by apply Qc_div_le_iff].
Qed.

(** ** Leaves within the range of the targets *)

Lemma make_leaf_in_range data l lo hi :
  make_leaf data = Leaf l → data ≠ [] →
  Forall (λ d, target_in_range lo hi (target d)) data →
  (0 < samples l)%nat
  ∧ prediction l ∈ label_of <$> data
  ∧ leaf_in_range lo hi l.
Proof.
  intros Hl Hne Hdata.
  destruct (make_leaf_summary data) as (l' & Hl' & Hsamples & _ & Hsum).
  rewrite Hl in Hl'. injection Hl' as <-.
  destruct (Hsum Hne) as ((Hm & _) & Hp & Hd).
  split; [rewrite Hsamples; destruct data; [done|cbn; lia]|].
  split; [done|]. unfold leaf_in_range. rewrite Hp, Hd.
  unfold mean, probabilities, day_estimates.
  rewrite !foldr_Qcplus_py_sum, !length_fmap.
  destruct (py_mean_bounds ((λ d, failure_probability (target d)) <$> data) 0 1)
    as [Hp0 Hp1].
  { by destruct data. }
  { apply Forall_fmap. eapply Forall_impl; [exact Hdata|].
    intros d (? & ? & _). by split. }
  destruct (py_mean_bounds
              ((λ d, Qc_of_Z (estimated_days_to_failure (target d))) <$> data)
              (Qc_of_Z lo) (Qc_of_Z hi)) as [Hd0 Hd1].
  { by destruct data. }
  { apply Forall_fmap. eapply Forall_impl; [exact Hdata|].
    intros d (_ & _ & ? & ?). split; by apply (proj1 (Qc_of_Z_le _ _)). }
  rewrite !length_fmap in *.
  destruct (py_round_n_bounds _ 4 0 1 Hp0 Hp1) as [? ?].
  split; [done|]. split; [done|]. by apply py_round_bounds.
Qed.

Lemma predict_tree_leaf tree fs : _predict_tree tree fs ∈ tree_leaves tree.
Proof.
  induction tree as [l|f t lt IHl rt IHr]; cbn.
  - apply list_elem_of_here.
  - apply elem_of_app. destruct (decide _); auto.
Qed.

Section GrownForest.
Context {G : Type} `{!Generator G}.

Lemma fit_loop_grown count data self (g : G) :
  ∃ new,
    trees (fit_loop count data self g).1 = trees self ++ new
    ∧ length new = count
    ∧ n_trees (fit_loop count data self g).1 = n_trees self
    ∧ Forall (λ tree, ∃ sample,
                sample ⊆ data ∧ length sample = length data
                ∧ grown 5 sample tree) new.
Proof.
  revert self g. induction count as [|count IH]; intros self g.
  { exists []. cbn. by rewrite app_nil_r. }
  cbn [fit_loop].
  pose proof (random_choices_length data (length data) g) as Hlen.
  pose proof (λ x, random_choices_elem data (length data) g x) as Helem.
  destruct (random_choices data (length data) g) as [sample g1].
  cbn [fst] in Hlen, Helem.
  pose proof (build_tree_rem_grown 5 sample (feature_importances self, g1)) as Hg.
  unfold _build_tree. cbn [Nat.sub].
  destruct (build_tree_rem 5 sample _) as [tree [importances g2]]. cbn [fst] in Hg.
  destruct (IH {| n_trees := n_trees self; trees := trees self ++ [tree];
                  feature_importances := importances |} g2)
    as (new & Htrees & Hnew & Hn & Hall).
  exists (tree :: new). cbn [trees n_trees] in *.
  split_and!; [by rewrite Htrees, <- app_assoc|cbn; lia|done|].
  constructor; [|done]. exists sample. split_and!; [done| |done].
  rewrite Hlen. destruct (decide _) as [->|]; done.
Qed.

Lemma fit_grown self data (g : G) :
  ∃ new,
    trees (fit self data g).1 = trees self ++ new
    ∧ length new = n_trees self
    ∧ n_trees (fit self data g).1 = n_trees self
    ∧ Forall (λ tree, ∃ sample,
                sample ⊆ data ∧ length sample = length data
                ∧ grown 5 sample tree) new.
Proof.
  unfold fit. pose proof (fit_loop_grown (n_trees self) data self g) as H.
  by destruct (fit_loop (n_trees self) data self g) as [self' g'].
Qed.
End GrownForest.

(** ** The shape of the built trees *)

Lemma grown_splits remaining data tree :
  grown remaining data tree →
  Forall (λ ft : string * Qc,
            ft.1 ∈ numeric_features
            ∧ ∃ d v, d ∈ data ∧ features d !! ft.1 = Some v
                     ∧ ft.2 = py_round_n v 2)
         (tree_splits tree).
Proof.
  induction 1 as [|r data f t lt rt _ Hf Ht _ _ IHl _ IHr]; [constructor|].
  cbn [tree_splits]. constructor.
  - split; [done|]. apply (proj2 (feature_values_spec data f)) in Ht as (d & Hd & Hv).
    by exists d, t.
  - apply Forall_app. split; (eapply Forall_impl; [eassumption|]);
      intros ft (? & d & v & Hd & ? & ?); (split; [done|]); exists d, v;
      apply list_elem_of_filter in Hd as [_ Hd]; by split_and!.
Qed.

Lemma grown_routes remaining data tree d :
  grown remaining data tree →
  (∀ d f v, d ∈ data → features d !! f = Some v → py_round_n v 2 = v) →
  d ∈ data →
  ∃ sub, d ∈ sub ∧ sub ⊆ data
         ∧ Leaf (_predict_tree tree (features d)) = make_leaf sub.
Proof.
  induction 1 as [r data|r data f t lt rt _ _ Ht _ _ IHl _ IHr]; intros Hround Hd.
  { by exists data. }
  apply (proj2 (feature_values_spec data f)) in Ht as (d0 & Hd0 & Hv).
  rewrite (Hround d0 f t Hd0 Hv). cbn [_predict_tree].
  destruct (decide (feature_get (features d) f < t)) as [Hlt|Hge].
  - destruct IHl as (sub & ? & Hsub & ?).
    { intros d' f' v' [_ ?]%list_elem_of_filter. by apply Hround. }
    { by apply list_elem_of_filter. }
    exists sub. split_and!; [done| |done].
    intros x Hx. by apply Hsub, list_elem_of_filter in Hx as [_ ?].
  - destruct IHr as (sub & ? & Hsub & ?).
    { intros d' f' v' [_ ?]%list_elem_of_filter. by apply Hround. }
    { apply list_elem_of_filter. split; [by apply Qcnot_lt_le|done]. }
    exists sub. split_and!; [done| |done].
    intros x Hx. by apply Hsub, list_elem_of_filter in Hx as [_ ?].
Qed.

Section TreeShape.
Context {G : Type} `{!Generator G}.

(** The tree built by [_build_tree] is at most [max_depth - depth] levels
    deep, and the sample counts of its leaves add up to the size of the
    subset it was built from: the splits partition the subset. *)
Theorem build_tree_partitions_data data depth max_depth
    (st : list (string * Qc) * G) :
  let tree := (_build_tree data depth max_depth st).1 in
  (tree_depth tree ≤ max_depth - depth)%nat
  ∧ sum_list (samples <$> tree_leaves tree) = length data.
Proof.
  intros tree. subst tree. unfold _build_tree.
  pose proof (build_tree_rem_grown (max_depth - depth) data st) as Hg.
  split; [by eapply grown_depth|by eapply grown_samples].
Qed.

(** Over a non-empty subset, every leaf of the tree built by [_build_tree]
    summarises a non-empty part of the subset: no branch is left without
    samples, so the default leaf never appears, every leaf counts at least
    one sample, predicts a class present in the subset, and holds the
    majority class and the rounded means of its part. *)
Theorem build_tree_leaves_nonempty data depth max_depth
    (st : list (string * Qc) * G) :
  data ≠ [] →
  Forall (λ l, (0 < samples l)%nat
               ∧ prediction l ∈ label_of <$> data
               ∧ ∃ sub, sub ≠ [] ∧ sub ⊆ data ∧ leaf_rounds sub l)
         (tree_leaves (_build_tree data depth max_depth st).1).
Proof.
  intros Hne. apply Forall_forall. intros l Hl.
  pose proof (build_tree_rem_grown (max_depth - depth) data st) as Hg.
  destruct (grown_leaves _ _ _ _ Hg Hne Hl) as (sub & Hsub & Hincl & Hleaf).
  destruct (make_leaf_summary sub) as (l' & Hl' & Hsum).
  rewrite Hleaf in Hl'. injection Hl' as <-.
  pose proof Hsum as (Hsamples & _ & Hrest).
  destruct (Hrest Hsub) as ((Hm & _) & _).
  split_and!.
  - rewrite Hsamples. destruct sub; [done|cbn; lia].
  - apply list_elem_of_fmap in Hm as (d & -> & Hd).
    apply list_elem_of_fmap. exists d. split; [done|by apply Hincl].
  - exists sub. split; [done|]. split; [done|by apply leaf_summary_rounds].
Qed.

(** Every split of a built tree tests one of the ten numeric features, at a
    threshold that is a value the feature takes in the subset, rounded to two
    decimals: a multiple of 0.01 within 0.005 of that value. *)
Theorem build_tree_split_thresholds data depth max_depth
    (st : list (string * Qc) * G) :
  Forall (λ ft : string * Qc,
            ft.1 ∈ numeric_features
            ∧ ∃ d v, d ∈ data ∧ features d !! ft.1 = Some v
                     ∧ rounds_to 100 v ft.2)
         (tree_splits (_build_tree data depth max_depth st).1).
Proof.
  eapply Forall_impl; [eapply grown_splits, build_tree_rem_grown|].
  intros ft (Hf & d & v & Hd & Hv & ->).
  split; [done|]. exists d, v. split; [done|]. split; [done|].
  apply (py_round_n_rounds v 2).
Qed.

(** When every feature value of the subset has at most two decimals, so that
    rounding a threshold does not move it, inference sends each record of the
    subset to the leaf that was computed from it. *)
Theorem build_tree_routes_training_records data depth max_depth
    (st : list (string * Qc) * G) d :
  (∀ d f v, d ∈ data → features d !! f = Some v → py_round_n v 2 = v) →
  d ∈ data →
  ∃ sub, d ∈ sub ∧ sub ⊆ data
         ∧ Leaf (_predict_tree (_build_tree data depth max_depth st).1 (features d))
           = make_leaf sub.
Proof. intros. eapply grown_routes; [apply build_tree_rem_grown|done|done]. Qed.

(** [fit] never resets the forest: it appends exactly [n_trees] new trees
    after the trees the object already holds, each at most 5 levels deep and
    with leaf sample counts adding up to the size of the training set (the
    size of its bootstrap sample). *)
Theorem fit_appends_trees self data (g : G) :
  ∃ new,
    trees (fit self data g).1 = trees self ++ new
    ∧ length new = n_trees self
    ∧ n_trees (fit self data g).1 = n_trees self
    ∧ Forall (λ tree, (tree_depth tree ≤ 5)%nat
                      ∧ sum_list (samples <$> tree_leaves tree) = length data)
             new.
Proof.
  destruct (fit_grown self data g) as (new & Ht & Hlen & Hn & Hall).
  exists new. split_and!; [done..|].
  eapply Forall_impl; [exact Hall|].
  intros tree (sample & _ & <- & Hg).
  split; [by eapply grown_depth|by eapply grown_samples].
Qed.

Lemma fit_leaves_in_range self data (g : G) lo hi fs :
  data ≠ [] → Forall (λ d, target_in_range lo hi (target d)) data →
  Forall (λ tree, ∀ l, l ∈ tree_leaves tree →
                    prediction l ∈ label_of <$> data ∧ leaf_in_range lo hi l)
         (trees self) →
  Forall (λ l, prediction l ∈ label_of <$> data ∧ leaf_in_range lo hi l)
         (leaves_of (fit self data g).1 fs).
Proof.
  intros Hne Hdata Hold.
  destruct (fit_grown self data g) as (new & Ht & _ & _ & Hall).
  unfold leaves_of. rewrite Ht. apply Forall_fmap, Forall_app. split.
  { eapply Forall_impl; [exact Hold|]. intros tree H. apply H, predict_tree_leaf. }
  eapply Forall_impl; [exact Hall|].
  intros tree (sample & Hincl & Hlen & Hg). cbn.
  assert (sample ≠ []) as Hs.
  { intros ->. destruct data; [done|discriminate]. }
  destruct (grown_leaves _ _ _ _ Hg Hs (predict_tree_leaf tree fs))
    as (sub & Hsub & Hsubincl & Hleaf).
  destruct (make_leaf_in_range sub _ lo hi Hleaf Hsub) as (_ & Hm & Hr).
  { apply Forall_forall. intros d Hd.
    by apply (proj1 (Forall_forall _ _) Hdata), Hincl, Hsubincl. }
  split; [|done].
  apply list_elem_of_fmap in Hm as (d & -> & Hd).
  apply list_elem_of_fmap. exists d. split; [done|by apply Hincl, Hsubincl].
Qed.
End TreeShape.

Lemma predict_in_range self fs lo hi (P : string → Prop) :
  trees self ≠ [] →
  Forall (λ l, P (prediction l) ∧ leaf_in_range lo hi l) (leaves_of self fs) →
  ∃ p, predict self fs = Ok p
       ∧ P (p_risk_level p)
       ∧ 0 ≤ p_failure_probability p ∧ p_failure_probability p ≤ 1
       ∧ (lo ≤ p_estimated_days_to_failure p ≤ hi)%Z.
Proof.
  intros Hne Hall. unfold predict. fold (leaves_of self fs) in *.
  assert (leaves_of self fs ≠ []) as Hl.
  { unfold leaves_of. by destruct (trees self). }
  assert (length (leaves_of self fs) ≠ 0%nat) as Hlen by by destruct (leaves_of self fs).
  rewrite !py_div_nat by done. cbn [bind].
  assert (prediction <$> leaves_of self fs ≠ []) as Hlab
    by by destruct (leaves_of self fs).
  destruct (most_common1_majority _ Hlab) as (m & -> & Hm & _).
  cbn [py_first bind]. eexists. split; [reflexivity|].
  cbn [p_risk_level p_failure_probability p_estimated_days_to_failure fst].
  apply list_elem_of_fmap in Hm as (l & -> & Hin).
  split; [by apply (proj1 (Forall_forall _ _) Hall l Hin)|].
  destruct (py_mean_bounds (probability <$> leaves_of self fs) 0 1) as [Hp0 Hp1].
  { by destruct (leaves_of self fs). }
  { apply Forall_fmap. eapply Forall_impl; [exact Hall|].
    intros l' (_ & ? & ? & _). by split. }
  rewrite <- py_sum_of_Z, <- list_fmap_compose.
  destruct (py_mean_bounds ((Qc_of_Z ∘ days) <$> leaves_of self fs)
              (Qc_of_Z lo) (Qc_of_Z hi)) as [Hd0 Hd1].
  { by destruct (leaves_of self fs). }
  { apply Forall_fmap. eapply Forall_impl; [exact Hall|].
    intros l' (_ & _ & _ & ? & ?). split; by apply (proj1 (Qc_of_Z_le _ _)). }
  rewrite !length_fmap in *.
  destruct (py_round_n_bounds _ 4 0 1 Hp0 Hp1) as [? ?].
  split; [done|]. split; [done|]. by apply py_round_bounds.
Qed.

Section ForestRange.
Context {G : Type} `{!Generator G}.

(** A forest trained on a non-empty training set whose probabilities lie in
    [0, 1] and whose days lie in [lo, hi] always answers, and never leaves
    those ranges: the predicted class is a class of the training set, the
    probability lies in [0, 1] and the days in [lo, hi]. *)
Theorem fitted_forest_predicts_in_range (n : nat) data (g : G) fs lo hi :
  (0 < n)%nat → data ≠ [] →
  Forall (λ d, target_in_range lo hi (target d)) data →
  ∃ p, predict (fit (__init__ n) data g).1 fs = Ok p
       ∧ p_risk_level p ∈ label_of <$> data
       ∧ 0 ≤ p_failure_probability p ∧ p_failure_probability p ≤ 1
       ∧ (lo ≤ p_estimated_days_to_failure p ≤ hi)%Z.
Proof.
  intros Hn Hne Hdata.
  apply (predict_in_range _ fs lo hi (λ c, c ∈ label_of <$> data)).
  - destruct (fit_grown (__init__ n) data g) as (new & -> & Hlen & _).
    cbn in *. destruct new; [cbn in Hlen; lia|done].
  - apply fit_leaves_in_range; [done|done|constructor].
Qed.
End ForestRange.

(** ** The gain is a fraction *)

Lemma impurity_py_sum subset classes :
  impurity subset classes = - py_sum (squared_frequency subset <$> classes).
Proof. unfold impurity. by rewrite foldr_py_sum. Qed.

(** The impurity may be summed over any duplicate-free list that contains
    the classes present: an absent class contributes nothing. *)
Lemma entropy_impurity_superset subset classes :
  subset ≠ [] → NoDup classes →
  (∀ c, c ∈ label_of <$> subset → c ∈ classes) →
  entropy subset = impurity subset classes.
Proof.
  intros Hne Hnd Hincl.
  rewrite (entropy_impurity subset
             (filter (λ c, c ∈ label_of <$> subset) classes)); [|done|].
  2:{ split; [by apply NoDup_filter|]. intros c. rewrite list_elem_of_filter.
      split; [by intros [? _]|]. intros Hc. split; [done|by apply Hincl]. }
  unfold impurity. f_equal. clear Hnd Hincl.
  induction classes as [|c classes IH]; [done|].
  rewrite filter_cons. destruct (decide (c ∈ label_of <$> subset)) as [Hc|Hc].
  - cbn [foldr]. by rewrite IH.
  - cbn [foldr]. rewrite IH, (class_count_zero _ _ Hc).
    change (Qc_of_nat 0) with (Q2Qc 0). unfold Qcdiv, Qcpower. ring.
Qed.

Lemma Counter_keys_present subset :
  NoDup (dict_keys (Counter (label_of <$> subset)))
  ∧ ∀ c, c ∈ label_of <$> subset →
         c ∈ dict_keys (Counter (label_of <$> subset)).
Proof.
  destruct (Counter_inv (label_of <$> subset)) as [Hnd Hget _].
  split; [done|]. intros c Hc.
  destruct (decide (c ∈ dict_keys (Counter (label_of <$> subset)))) as [|Hn]; [done|].
  apply dict_get_None in Hn. rewrite Hget, decide_True in Hn by done. done.
Qed.

Lemma class_count_filter_split (data : list Sample) (P : Sample → Prop)
    `{∀ d, Decision (P d)} c :
  class_count c (label_of <$> data)
  = (class_count c (label_of <$> filter P data)
     + class_count c (label_of <$> filter (λ d, ¬ P d) data))%nat.
Proof.
  induction data as [|d data IH]; [done|].
  rewrite !filter_cons. destruct (decide (P d)) as [Hd|Hd].
  - rewrite decide_False by tauto. rewrite !fmap_cons, !class_count_cons, IH. lia.
  - rewrite decide_True by done. rewrite !fmap_cons, !class_count_cons, IH. lia.
Qed.

Lemma filter_not_length (data : list Sample) (P : Sample → Prop)
    `{∀ d, Decision (P d)} :
  length data = (length (filter P data) + length (filter (λ d, ¬ P d) data))%nat.
Proof.
  induction data as [|d data IH]; [done|].
  rewrite !filter_cons. destruct (decide (P d)) as [Hd|Hd].
  - rewrite decide_False by tauto. cbn. lia.
  - rewrite decide_True by done. cbn. lia.
Qed.

(** The contribution of one class to the gain is a square over a positive
    number. *)
Lemma gain_term_nonneg (a b x y : Qc) :
  0 < x → 0 < y →
  0 ≤ x / (x + y) * ((a / x) ^ 2) + y / (x + y) * ((b / y) ^ 2)
      - ((a + b) / (x + y)) ^ 2.
Proof.
  intros Hx Hy.
  assert (0 < x + y) as Hxy.
  { apply Qcplus_pos_nonneg; [done|by apply Qclt_le_weak]. }
  pose proof (Qc_pos_ne0 _ Hx). pose proof (Qc_pos_ne0 _ Hy).
  pose proof (Qc_pos_ne0 _ Hxy).
  replace (x / (x + y) * ((a / x) ^ 2) + y / (x + y) * ((b / y) ^ 2)
           - ((a + b) / (x + y)) ^ 2)
    with (((a * y - b * x) * (a * y - b * x)) / (x * y * ((x + y) * (x + y)))).
  2:{ unfold Qcpower. field. by split_and!. }
  apply Qc_le_div_iff.
  { by repeat apply Qcmult_pos_pos. }
  rewrite Qcmult_0_l.
  destruct (Qclt_le_dec (a * y - b * x) 0) as [Hneg|Hpos].
  - replace ((a * y - b * x) * (a * y - b * x))
      with ((- (a * y - b * x)) * (- (a * y - b * x))) by ring.
    assert (0 ≤ - (a * y - b * x)).
    { apply Qclt_le_weak in Hneg. apply Qcopp_le_compat in Hneg.
      by rewrite Qcopp_involutive in Hneg || exact Hneg. }
    by apply Qcmult_nonneg_nonneg.
  - by apply Qcmult_nonneg_nonneg.
Qed.

Lemma py_sum_combine {A} (f g h : A → Qc) (a b : Qc) xs :
  - py_sum (h <$> xs) - (a * - py_sum (f <$> xs) + b * - py_sum (g <$> xs))
  = py_sum ((λ k, a * f k + b * g k - h k) <$> xs).
Proof.
  induction xs as [|x xs IH].
  - cbn. ring.
  - rewrite !fmap_cons, !py_sum_cons, <- IH. ring.
Qed.

Lemma Qc_of_nat_pos_length {A} (l : list A) : l ≠ [] → 0 < Qc_of_nat (length l).
Proof. intros Hl. apply Qc_of_nat_pos. destruct l; [done|cbn; lia]. Qed.

(** The gain of a split is never negative, and stays below 1. *)
Theorem split_gain_bounds (data : list Sample) (feature : string) (threshold : Qc) :
  0 ≤ _calculate_split_gain data feature threshold
  ∧ _calculate_split_gain data feature threshold < 1.
Proof.
  unfold _calculate_split_gain. rewrite <- filter_rest_ge.
  pose (P := λ d : Sample, feature_get (features d) feature < threshold).
  set (left_part := filter (λ d, feature_get (features d) feature < threshold) data).
  set (right_part :=
         filter (λ d, ¬ feature_get (features d) feature < threshold) data).
  destruct (decide (length left_part = 0%nat ∨ length right_part = 0%nat)) as [|Hne].
  { split; [apply Qcle_refl|done]. }
  assert (left_part ≠ [] ∧ right_part ≠ []) as [Hl Hr].
  { split; intros Heq; apply Hne; rewrite Heq; auto. }
  assert (data ≠ []) as Hd by (intros ->; by apply Hl).
  pose proof (Qc_of_nat_pos_length _ Hl) as Hnl.
  pose proof (Qc_of_nat_pos_length _ Hr) as Hnr.
  assert (Qc_of_nat (length data)
          = Qc_of_nat (length left_part) + Qc_of_nat (length right_part)) as Hn.
  { rewrite <- Qc_of_nat_add. f_equal. apply (filter_not_length data P). }
  rewrite Hn. split.
  - destruct (Counter_keys_present data) as [Hnd Hks].
    set (ks := dict_keys (Counter (label_of <$> data))) in *.
    assert (∀ Q `{∀ d, Decision (Q d)} c,
              c ∈ label_of <$> filter Q data → c ∈ ks) as Hsub.
    { intros Q ? c (d & -> & Hin)%list_elem_of_fmap. apply Hks.
      apply list_elem_of_fmap. exists d. split; [done|].
      by apply list_elem_of_filter in Hin as [_ ?]. }
    rewrite (entropy_impurity_superset data ks Hd Hnd Hks).
    rewrite (entropy_impurity_superset left_part ks Hl Hnd (Hsub _ _)).
    rewrite (entropy_impurity_superset right_part ks Hr Hnd (Hsub _ _)).
    rewrite !impurity_py_sum, py_sum_combine.
    apply py_sum_nonneg, Forall_fmap, Forall_forall. intros c _.
    unfold compose, squared_frequency. rewrite Hn.
    rewrite (class_count_filter_split data P c), Qc_of_nat_add.
    by apply gain_term_nonneg.
  - pose proof (entropy_negative data Hd) as Hp.
    pose proof (entropy_lower_bound left_part) as Hel.
    pose proof (entropy_lower_bound right_part) as Her.
    set (nl := Qc_of_nat (length left_part)) in *.
    set (nr := Qc_of_nat (length right_part)) in *.
    assert (0 < nl + nr) as Hpos.
    { apply Qcplus_pos_nonneg; [done|by apply Qclt_le_weak]. }
    pose proof (Qc_pos_ne0 _ Hpos) as Hne0.
    apply (proj2 (Qclt_minus_iff _ _)).
    replace (1 + - (entropy data
                    - (nl / (nl + nr) * entropy left_part
                       + nr / (nl + nr) * entropy right_part)))
      with (- entropy data
            + (nl * (entropy left_part + 1) + nr * (entropy right_part + 1))
              / (nl + nr)) by (field; done).
    apply Qcplus_pos_nonneg.
    + apply (proj1 (Qclt_minus_iff _ _)) in Hp. by rewrite Qcplus_0_l in Hp.
    + apply Qc_le_div_iff; [done|]. rewrite Qcmult_0_l.
      assert (∀ e, - (1) ≤ e → 0 ≤ e + 1) as Hshift.
      { intros e He. apply (proj1 (Qcle_minus_iff _ _)) in He.
        by rewrite Qcopp_involutive in He. }
      replace 0 with (0 + 0) by ring.
      apply Qcplus_le_compat; apply Qcmult_nonneg_nonneg;
        auto using Qclt_le_weak.
Qed.

(** ** Pure subsets, importances and the features a prediction reads *)

Lemma predict_tree_local tree fs1 fs2 :
  (∀ ft, ft ∈ tree_splits tree → feature_get fs1 ft.1 = feature_get fs2 ft.1) →
  _predict_tree tree fs1 = _predict_tree tree fs2.
Proof.
  induction tree as [l|f t lt IHl rt IHr]; intros Hagree; [done|].
  cbn [_predict_tree tree_splits] in *.
  pose proof (Hagree (f, t) (list_elem_of_here _ _)) as H0. cbn [fst] in H0.
  rewrite H0. destruct (decide _).
  - apply IHl. intros ft Hft. apply Hagree, list_elem_of_further, elem_of_app. auto.
  - apply IHr. intros ft Hft. apply Hagree, list_elem_of_further, elem_of_app. auto.
Qed.

Lemma predict_local self fs1 fs2 :
  (∀ tree ft, tree ∈ trees self → ft ∈ tree_splits tree →
     feature_get fs1 ft.1 = feature_get fs2 ft.1) →
  predict self fs1 = predict self fs2.
Proof.
  intros Hagree. unfold predict.
  assert ((λ tree, _predict_tree tree fs1) <$> trees self
          = (λ tree, _predict_tree tree fs2) <$> trees self) as ->; [|done].
  apply list_fmap_ext. intros i tree Hin%list_elem_of_lookup_2.
  apply predict_tree_local. intros ft Hft. by apply (Hagree tree).
Qed.

Lemma class_count_all c (labels : list string) :
  (∀ x, x ∈ labels → x = c) → class_count c labels = length labels.
Proof.
  intros Hall. unfold class_count. rewrite filter_all; [done|].
  by apply Forall_forall.
Qed.

Lemma entropy_pure subset c :
  subset ≠ [] → (∀ d, d ∈ subset → label_of d = c) → entropy subset = - (1).
Proof.
  intros Hne Hc.
  rewrite (entropy_impurity_superset subset [c]); [|done| |].
  - unfold impurity. cbn [foldr]. rewrite class_count_all, length_fmap.
    2:{ by intros x (d & -> & Hd%Hc)%list_elem_of_fmap. }
    pose proof (Qc_pos_ne0 _ (Qc_of_nat_pos_length _ Hne)).
    unfold Qcpower. field. done.
  - apply NoDup_singleton.
  - intros x (d & -> & Hd%Hc)%list_elem_of_fmap. rewrite Hd. apply list_elem_of_here.
Qed.

Lemma split_gain_pure data feature threshold c :
  (∀ d, d ∈ data → label_of d = c) →
  _calculate_split_gain data feature threshold = 0.
Proof.
  intros Hc. unfold _calculate_split_gain. rewrite <- filter_rest_ge.
  pose (P := λ d : Sample, feature_get (features d) feature < threshold).
  set (left_part := filter (λ d, feature_get (features d) feature < threshold) data).
  set (right_part :=
         filter (λ d, ¬ feature_get (features d) feature < threshold) data).
  destruct (decide (length left_part = 0%nat ∨ length right_part = 0%nat)) as [|Hne].
  { done. }
  assert (left_part ≠ [] ∧ right_part ≠ []) as [Hl Hr].
  { split; intros Heq; apply Hne; rewrite Heq; auto. }
  assert (data ≠ []) as Hd by (intros ->; by apply Hl).
  rewrite (entropy_pure data c), (entropy_pure left_part c),
    (entropy_pure right_part c); try done.
  2,3: by intros d [_ Hd']%list_elem_of_filter; apply Hc.
  assert (Qc_of_nat (length data)
          = Qc_of_nat (length left_part) + Qc_of_nat (length right_part)) as Hn.
  { rewrite <- Qc_of_nat_add. f_equal. apply (filter_not_length data P). }
  pose proof (Qc_pos_ne0 _ (Qc_of_nat_pos_length _ Hd)) as Hne0.
  rewrite Hn in *. field. done.
Qed.

Section PureSubsets.
Context {G : Type} `{!Generator G}.

(** A subset whose records all carry the same class is never split: every
    candidate has gain 0, so [_build_tree] returns the leaf of the subset. *)
Theorem build_tree_pure_subset data depth max_depth
    (st : list (string * Qc) * G) c :
  (∀ d, d ∈ data → label_of d = c) →
  (_build_tree data depth max_depth st).1 = make_leaf data.
Proof.
  intros Hc. unfold _build_tree.
  destruct (build_tree_rem_cases (max_depth - depth) data st)
    as [[g1 ->]|(r & f & t & gain & g1 & _ & _ & _ & _ & -> & Hgain & _)]; [done|].
  rewrite (split_gain_pure data f t c Hc) in Hgain. by vm_compute in Hgain.
Qed.

Lemma build_tree_rem_keys remaining data importances (g : G) f :
  f ∈ dict_keys (build_tree_rem remaining data (importances, g)).2.1
  ↔ f ∈ dict_keys importances
    ∨ f ∈ (tree_splits (build_tree_rem remaining data (importances, g)).1).*1.
Proof.
  revert data importances g.
  induction remaining as [|remaining IH]; intros data importances g.
  { cbn. split; [by left|]. intros [?|Hf]; [done|]. by apply elem_of_nil in Hf. }
  destruct (build_tree_rem_cases (S remaining) data (importances, g))
    as [[g1 ->]|(r & f0 & t & gain & g1 & [= <-] & _ & _ & _ & _ & _ & ->)].
  { cbn. split; [by left|]. intros [?|Hf]; [done|]. by apply elem_of_nil in Hf. }
  cbn [fst snd].
  set (importances1 := dict_set importances f0 _).
  pose proof (IH (filter (λ d, feature_get (features d) f0 < t) data)
                importances1 g1) as IHl.
  destruct (build_tree_rem remaining (filter _ data) (importances1, g1))
    as [left_node [importances2 g2]].
  cbn [fst snd] in *.
  pose proof (IH (filter (λ d, t ≤ feature_get (features d) f0) data)
                importances2 g2) as IHr.
  destruct (build_tree_rem remaining (filter _ data) (importances2, g2))
    as [right_node [importances3 g3]].
  cbn [fst snd tree_splits] in *.
  rewrite IHr, IHl. subst importances1. rewrite dict_keys_set.
  rewrite fmap_cons, fmap_app, elem_of_cons, elem_of_app. cbn [fst].
  destruct (decide (f0 ∈ dict_keys importances)) as [Hin|Hout].
  - split; [tauto|]. intros [?|[->|[?|?]]]; tauto.
  - rewrite elem_of_app, list_elem_of_singleton. tauto.
Qed.

Lemma fit_loop_keys count data self (g : G) f :
  ∃ new,
    trees (fit_loop count data self g).1 = trees self ++ new
    ∧ (f ∈ dict_keys (feature_importances (fit_loop count data self g).1)
       ↔ f ∈ dict_keys (feature_importances self)
         ∨ ∃ tree, tree ∈ new ∧ f ∈ (tree_splits tree).*1).
Proof.
  revert self g. induction count as [|count IH]; intros self g.
  { exists []. cbn. rewrite app_nil_r. split; [done|]. split; [by left|].
    intros [?|(tree & Hin & _)]; [done|]. by apply elem_of_nil in Hin. }
  cbn [fit_loop].
  destruct (random_choices data (length data) g) as [sample g1].
  unfold _build_tree. cbn [Nat.sub].
  pose proof (build_tree_rem_keys 5 sample (feature_importances self) g1 f) as Hk.
  destruct (build_tree_rem 5 sample _) as [tree [importances g2]].
  cbn [fst snd] in Hk.
  destruct (IH {| n_trees := n_trees self; trees := trees self ++ [tree];
                  feature_importances := importances |} g2)
    as (new & Htrees & Hkeys).
  exists (tree :: new). cbn [trees feature_importances] in *.
  split; [by rewrite Htrees, <- app_assoc|].
  rewrite Hkeys, Hk. split.
  - intros [[?|?]|(tree' & ? & ?)]; [by left| |].
    + right. exists tree. split; [apply list_elem_of_here|done].
    + right. exists tree'. split; [by apply list_elem_of_further|done].
  - intros [?|(tree' & [->|Hin]%elem_of_cons & ?)]; [by left; left|by left; right|].
    right. by exists tree'.
Qed.
End PureSubsets.

Lemma fold_dict_set_keys {V} (h : list (string * V) → string → V) ks
    (d : list (string * V)) :
  (∀ k, k ∈ ks → k ∈ dict_keys d) →
  dict_keys (fold_left (λ d f, dict_set d f (h d f)) ks d) = dict_keys d.
Proof.
  revert d. induction ks as [|k ks IH]; intros d Hks; [done|].
  cbn [fold_left]. rewrite IH.
  - apply dict_keys_set_present, Hks, list_elem_of_here.
  - intros k' Hk'. rewrite dict_keys_set_present by apply Hks, list_elem_of_here.
    by apply Hks, list_elem_of_further.
Qed.

Lemma normalize_keys importances :
  dict_keys (normalize importances) = dict_keys importances.
Proof.
  unfold normalize. destruct (decide _); [|done].
  by apply (fold_dict_set_keys (λ d f, default 0 (dict_get d f) / _)).
Qed.

Section ImportantFeatures.
Context {G : Type} `{!Generator G}.

Lemma fit_keys_splits (n : nat) data (g : G) f :
  f ∈ dict_keys (feature_importances (fit (__init__ n) data g).1)
  ↔ ∃ tree threshold, tree ∈ trees (fit (__init__ n) data g).1
                      ∧ (f, threshold) ∈ tree_splits tree.
Proof.
  unfold fit.
  destruct (fit_loop_keys (n_trees (__init__ n)) data (__init__ n) g f)
    as (new & Htrees & Hkeys).
  destruct (fit_loop _ data (__init__ n) g) as [self' g'].
  cbn [fst trees feature_importances __init__ app] in *.
  rewrite normalize_keys, Hkeys, Htrees. split.
  - intros [Hf|(tree & Hin & Hf)]; [by apply elem_of_nil in Hf|].
    apply list_elem_of_fmap in Hf as ([f' t] & -> & Hft). by exists tree, t.
  - intros (tree & t & Hin & Hft). right. exists tree. split; [done|].
    apply list_elem_of_fmap. by exists (f, t).
Qed.

(** After [fit] on a fresh forest, the features that carry an importance are
    exactly the features tested by some split of some tree, and all of them
    are among the ten numeric features. *)
Theorem fit_importances_keys (n : nat) data (g : G) :
  let self := (fit (__init__ n) data g).1 in
  ∀ f, (f ∈ dict_keys (feature_importances self)
        ↔ ∃ tree threshold, tree ∈ trees self ∧ (f, threshold) ∈ tree_splits tree)
       ∧ (f ∈ dict_keys (feature_importances self) → f ∈ numeric_features).
Proof.
  intros self f. subst self. split; [apply fit_keys_splits|].
  intros (tree & t & Hin & Hft)%fit_keys_splits.
  destruct (fit_grown (__init__ n) data g) as (new & Htrees & _ & _ & Hall).
  rewrite Htrees in Hin. cbn [trees __init__ app] in Hin.
  destruct (proj1 (Forall_forall _ _) Hall tree Hin) as (sample & _ & _ & Hg).
  by apply (proj1 (Forall_forall _ _) (grown_splits _ _ _ Hg) (f, t) Hft).
Qed.

(** The prediction of a fitted forest reads a feature vector only at the
    features that carry an importance: two vectors that agree on them, a
    missing entry counting as 0, get the same prediction. *)
Theorem predict_reads_important_features (n : nat) data (g : G) fs1 fs2 :
  let self := (fit (__init__ n) data g).1 in
  (∀ f, f ∈ dict_keys (feature_importances self) →
        feature_get fs1 f = feature_get fs2 f) →
  predict self fs1 = predict self fs2.
Proof.
  intros self Hagree. apply predict_local. intros tree [f t] Hin Hft.
  apply Hagree. apply fit_keys_splits. by exists tree, t.
Qed.
End ImportantFeatures.

(** ** The three engines on one document *)

Lemma mapM_cons_Ok {A B} (f : A → result B) x l ys :
  mapM f (x :: l) = Ok ys →
  ∃ y ys', f x = Ok y ∧ mapM f l = Ok ys' ∧ ys = y :: ys'.
Proof.
  cbn. destruct (f x) as [y|]; [|done]. cbn.
  destruct (mapM f l) as [ys'|]; [|done]. cbn. intros [= <-]. by exists y, ys'.
Qed.

Lemma mapM_length {A B} (f : A → result B) l ys :
  mapM f l = Ok ys → length ys = length l.
Proof.
  revert ys. induction l as [|x l IH]; intros ys.
  - by intros [= <-].
  - intros (y & ys' & _ & Hl & ->)%mapM_cons_Ok. cbn. f_equal. by apply IH.
Qed.

Lemma item_Ok {A} (field : option A) key v : item field key = Ok v → field = Some v.
Proof. destruct field; [by intros [= ->]|done]. Qed.

Lemma fold_vote_raw leaves labels probs dayss votes total_prob total_days :
  mapM (λ p, item (r_prediction p) "prediction") leaves = Ok labels →
  mapM (λ p, item (r_probability p) "probability") leaves = Ok probs →
  mapM (λ p, item (r_days p) "days") leaves = Ok dayss →
  fold_left api_main.vote leaves (votes, total_prob, total_days)
  = (fold_left counter_add labels votes,
     total_prob + py_sum probs, total_days + py_sum dayss).
Proof.
  revert labels probs dayss votes total_prob total_days.
  induction leaves as [|p leaves IH]; intros labels probs dayss votes tp td.
  - intros [= <-] [= <-] [= <-]. cbn [fold_left].
    change (py_sum []) with (Q2Qc 0). by rewrite !Qcplus_0_r.
  - intros (c & labels' & Hc%item_Ok & Hl & ->)%mapM_cons_Ok
           (q & probs' & Hq%item_Ok & Hp & ->)%mapM_cons_Ok
           (d & dayss' & Hd%item_Ok & Hds & ->)%mapM_cons_Ok.
    cbn [fold_left api_main.vote]. rewrite Hc, Hq, Hd. cbn [default].
    rewrite (IH _ _ _ _ _ _ Hl Hp Hds), !py_sum_cons. unfold counter_add.
    cbn [fold_left]. unfold id. f_equal; [f_equal|]; ring.
Qed.

(** [verify_model.predict] on the exported forest reproduces
    [SimpleRandomForest.predict]: the same prediction on every forest and
    feature vector, with the trainer's vote tally as [vote_distribution], and
    the same exception when the trainer raises. *)
Theorem verify_engine_reproduces_trainer self fs :
  match predict self fs with
  | Ok p =>
      verify_model.predict (export_to_json self) fs
      = Ok {| verify_model.v_prediction := p;
              verify_model.vote_distribution :=
                Counter (prediction <$> leaves_of self fs) |}
  | Raise e => verify_model.predict (export_to_json self) fs = Raise e
  end.
Proof. rewrite verify_predict_export. by destruct (predict self fs). Qed.

(** On any forest document, exported or not, on which [verify_model.predict]
    answers with a class that has strictly more votes than every other class
    of its vote distribution, [make_prediction] of the API answers with
    exactly the same prediction. *)
Theorem api_agrees_with_verify doc fs v :
  verify_model.predict doc fs = Ok v →
  (∀ c n, (c, n) ∈ verify_model.vote_distribution v →
     c ≠ p_risk_level (verify_model.v_prediction v) →
     (n < default 0%nat
            (dict_get (verify_model.vote_distribution v)
                      (p_risk_level (verify_model.v_prediction v))))%nat) →
  api_main.make_prediction doc fs = Ok (verify_model.v_prediction v).
Proof.
  unfold verify_model.predict, api_main.make_prediction.
  destruct (mapM (λ tree, verify_model.predict_tree tree fs) (doc_trees doc))
    as [leaves|] eqn:Hleaves; [|done].
  assert (mapM (λ tree, api_main.predict_tree tree fs) (doc_trees doc) = Ok leaves)
    as ->.
  { rewrite <- Hleaves. clear. induction (doc_trees doc) as [|t ts IH]; [done|].
    cbn. by rewrite predict_tree_same, IH. }
  cbn [bind].
  destruct (mapM (λ p, item (r_prediction p) "prediction") leaves)
    as [labels|] eqn:Hlabels; [|done]. cbn [bind].
  destruct (mapM (λ p, item (r_probability p) "probability") leaves)
    as [probs|] eqn:Hprobs; [|done]. cbn [bind].
  destruct (py_div (py_sum probs) _) as [avg_prob|] eqn:Hap; [|done]. cbn [bind].
  destruct (mapM (λ p, item (r_days p) "days") leaves)
    as [dayss|] eqn:Hdays; [|done]. cbn [bind].
  destruct (py_div (py_sum dayss) _) as [avg_days|] eqn:Had; [|done]. cbn [bind].
  destruct (most_common1 (Counter labels)) as [|top rest] eqn:Htop; [done|].
  cbn [py_first bind]. intros [= <-] Hwin.
  cbn [verify_model.v_prediction verify_model.vote_distribution p_risk_level] in Hwin.
  unfold api_main.votes0. rewrite (fold_vote_raw _ _ _ _ _ _ _ Hlabels Hprobs Hdays).
  rewrite !Qcplus_0_l, Hap, Had.
  assert (labels ≠ []) as Hne.
  { intros ->. by vm_compute in Htop. }
  destruct (most_common1_majority labels Hne) as (m & Hm & Hin & _).
  rewrite Hm in Htop. injection Htop as <- <-. cbn [fst] in *.
  assert (strict_majority labels m) as Hstrict.
  { split; [done|]. intros c Hc.
    pose proof (inv_get _ _ (Counter_inv labels)) as Hget.
    rewrite (Hget m), decide_True in Hwin by done. cbn [default] in Hwin.
    destruct (decide (c ∈ labels)) as [Hcin|Hcout].
    - apply (Hwin c); [|done]. by apply Counter_elem.
    - rewrite class_count_zero by done. by apply class_count_pos. }
  destruct (strict_majority_wins labels [("low", 0); ("medium", 0); ("high", 0)]%string%nat
              m) as [n Hn]; [by_compute|cbn; by repeat constructor|done|].
  unfold api_main.max_key. rewrite Hn. done.
Qed.

Lemma fold_vote_keys leaves (acc : api_main.Votes) k :
  k ∈ dict_keys (fold_left api_main.vote leaves acc).1.1 →
  k ∈ dict_keys acc.1.1
  ∨ ∃ p, p ∈ leaves ∧ default "medium"%string (r_prediction p) = k.
Proof.
  revert acc. induction leaves as [|p leaves IH]; intros acc; [by left|].
  cbn [fold_left]. intros Hk. apply IH in Hk as [Hk|(q & Hin & Hq)].
  - destruct acc as [[votes tp] td]. cbn [api_main.vote fst] in Hk.
    rewrite dict_keys_set in Hk. destruct (decide _) as [|_]; [by left|].
    apply elem_of_app in Hk as [?| ->%list_elem_of_singleton]; [by left|].
    right. exists p. split; [apply list_elem_of_here|done].
  - right. exists q. split; [by apply list_elem_of_further|done].
Qed.

Lemma fold_vote_not_nil leaves (acc : api_main.Votes) :
  acc.1.1 ≠ [] → (fold_left api_main.vote leaves acc).1.1 ≠ [].
Proof.
  revert acc. induction leaves as [|p leaves IH]; intros acc Hacc; [done|].
  cbn [fold_left]. apply IH. destruct acc as [[votes tp] td].
  cbn [api_main.vote fst]. apply dict_set_not_nil.
Qed.

Lemma py_max_elem {A} (key : A → nat) xs r : py_max key xs = Some r → r ∈ xs.
Proof.
  intros (pre & post & -> & _)%py_max_spec. apply elem_of_app. right.
  apply list_elem_of_here.
Qed.

(** On a document whose fields, where present, hold values of their types
    (the documents [RawNode] describes), [make_prediction] fails only when a
    tree traversal fails or the document has no tree: a traversal error is
    passed on, a document without trees divides by zero (it does not fall
    back to the heuristic), and with at least one reached leaf a prediction
    is returned, also when reached leaves lack [prediction], [probability]
    or [days]; its class is [low], [medium], [high] or the [prediction] of a
    reached leaf. *)
Theorem api_fails_only_on_traversal doc fs :
  match mapM (λ tree, api_main.predict_tree tree fs) (doc_trees doc) with
  | Raise e => api_main.make_prediction doc fs = Raise e
  | Ok [] => api_main.make_prediction doc fs = Raise ZeroDivisionError
  | Ok (leaf :: leaves) =>
      ∃ q, api_main.make_prediction doc fs = Ok q
           ∧ (p_risk_level q ∈ ["low"; "medium"; "high"]%string
              ∨ ∃ p, p ∈ leaf :: leaves
                     ∧ r_prediction p = Some (p_risk_level q))
  end.
Proof.
  unfold api_main.make_prediction.
  destruct (mapM _ (doc_trees doc)) as [[|leaf leaves]|e]; [done| |done].
  cbn [bind].
  pose proof (fold_vote_keys (leaf :: leaves) api_main.votes0) as Hkeys.
  pose proof (fold_vote_not_nil (leaf :: leaves) api_main.votes0) as Hne.
  destruct (fold_left api_main.vote (leaf :: leaves) api_main.votes0)
    as [[votes total_prob] total_days]. cbn [fst] in Hkeys, Hne.
  unfold api_main.max_key.
  destruct (py_max snd votes) as [[k n]|] eqn:Hmax.
  2:{ destruct votes; [by destruct Hne|done]. }
  cbn [bind]. rewrite !py_div_nat by done. cbn [bind].
  eexists. split; [done|]. cbn [p_risk_level fst].
  apply py_max_elem in Hmax.
  destruct (Hkeys k) as [Hk|(p & Hin & Hp)].
  { apply list_elem_of_fmap. by exists (k, n). }
  { left. exact Hk. }
  destruct (r_prediction p) as [c|] eqn:Hc; cbn in Hp; subst k.
  - right. by exists p.
  - left. apply list_elem_of_further, list_elem_of_here.
Qed.

(** ** The evaluation loop of [verify_model.py] *)

Lemma dict_incr_Ok d k d' :
  dict_incr d k = Ok d' →
  ∃ v, dict_get d k = Some v ∧ d' = dict_set d k (v + 1)%nat
       ∧ sum_list (dict_values d') = S (sum_list (dict_values d)).
Proof.
  unfold dict_incr, dict_item. destruct (dict_get d k) as [v|] eqn:Hget; [|done].
  cbn [bind]. intros [= <-]. exists v. split_and!; [done..|].
  pose proof (sum_values_dict_set d k (v + 1)) as Hsum. rewrite Hget in Hsum.
  cbn [default] in Hsum. change (id v) with v in Hsum. lia.
Qed.

Lemma dict_item_Ok {V} (d : list (string * V)) k v :
  dict_item d k = Ok v → dict_get d k = Some v.
Proof. unfold dict_item. destruct (dict_get d k); [by intros [= ->]|done]. Qed.

Lemma tally0_consistent : tally_consistent 0 verify_model.tally0.
Proof.
  split_and!; [done..|]. intros level Hl. exists zero_counts.
  cbn [verify_model.tally0 verify_model.confusion verify_model.risk_total
         verify_model.risk_correct].
  unfold levels in Hl.
  repeat (apply elem_of_cons in Hl as [->|Hl]; [by split_and!|]).
  by apply elem_of_nil in Hl.
Qed.

Lemma tally_row_consistent model k t row t' :
  tally_keys t → tally_consistent k t →
  verify_model.tally_row model t row = Ok t' →
  tally_consistent (S k) t'.
Proof.
  intros (_ & Hkt & _) (Htotal & Hcorrect & Hrows). unfold verify_model.tally_row.
  destruct (verify_model.predict model _) as [pred|]; [|done]. cbn [bind].
  set (actual := verify_model.row_risk_level row).
  set (predicted := p_risk_level (verify_model.v_prediction pred)).
  destruct (dict_incr (verify_model.risk_total t) actual) as [rt|] eqn:Hrt;
    [|done]. cbn [bind].
  destruct (dict_item (verify_model.confusion t) actual) as [crow|] eqn:Hrow;
    [|done]. cbn [bind].
  destruct (dict_incr crow predicted) as [crow'|] eqn:Hcrow; [|done].
  cbn [bind].
  apply dict_incr_Ok in Hrt as (v & Hv & -> & Hrt).
  apply dict_item_Ok in Hrow.
  apply dict_incr_Ok in Hcrow as (w & Hw & -> & Hcrow).
  assert (actual ∈ levels) as Hin.
  { rewrite <- Hkt. destruct (decide (actual ∈ dict_keys (verify_model.risk_total t)))
      as [|Hn]; [done|]. apply dict_get_None in Hn. congruence. }
  destruct (Hrows actual Hin) as (row0 & Hr0 & Ht0 & Hc0).
  rewrite Hrow in Hr0. injection Hr0 as <-. rewrite Hv in Ht0.
  injection Ht0 as ->.
  destruct (decide (predicted = actual)) as [Heq|Hneq].
  - destruct (dict_incr (verify_model.risk_correct t) actual) as [rc|] eqn:Hrc;
      [|done]. cbn [bind]. intros [= <-].
    apply dict_incr_Ok in Hrc as (c0 & Hc & -> & Hrc).
    split_and!; cbn [verify_model.risk_total verify_model.risk_correct
                       verify_model.confusion verify_model.correct]; [lia|lia|].
    intros level Hl. rewrite !dict_get_set.
    destruct (decide (actual = level)) as [<-|Hother].
    + eexists. split; [done|]. split; [f_equal; lia|].
      rewrite dict_get_set, decide_True by done.
      rewrite Hc0, <- Heq, Hw in Hc. by injection Hc as ->.
    + destruct (Hrows level Hl) as (row1 & Hr1 & Ht1 & Hc1). by exists row1.
  - intros [= <-].
    split_and!; cbn [verify_model.risk_total verify_model.risk_correct
                       verify_model.confusion verify_model.correct]; [lia|lia|].
    intros level Hl. rewrite !dict_get_set.
    destruct (decide (actual = level)) as [<-|Hother].
    + eexists. split; [done|]. split; [f_equal; lia|].
      by rewrite dict_get_set, decide_False.
    + destruct (Hrows level Hl) as (row1 & Hr1 & Ht1 & Hc1). by exists row1.
Qed.

Lemma tally_rows_consistent model k t rows t' :
  tally_keys t → tally_consistent k t →
  verify_model.tally_rows model t rows = Ok t' →
  tally_keys t' ∧ tally_consistent (k + length rows) t'.
Proof.
  revert k t. induction rows as [|row rows IH]; intros k t Hk Hc; cbn.
  - intros [= <-]. by rewrite Nat.add_0_r.
  - destruct (verify_model.tally_row model t row) as [t1|] eqn:Hrow; [|done].
    cbn. intros Hrest.
    replace (k + S (length rows))%nat with (S k + length rows)%nat by lia.
    apply (IH (S k) t1); [by eapply tally_row_keys|by eapply tally_row_consistent|done].
Qed.

Lemma dict_get_le_sum (d : list (string * nat)) k v :
  dict_get d k = Some v → (v ≤ sum_list (dict_values d))%nat.
Proof.
  intros Hget. apply dict_get_Some_elem in Hget.
  apply (sum_list_with_in _ id). apply list_elem_of_fmap. by exists (k, v).
Qed.

Lemma length_filter_snoc {A} (P : A → Prop) `{∀ x, Decision (P x)} l x :
  length (filter P (l ++ [x]))
  = (length (filter P l) + if decide (P x) then 1 else 0)%nat.
Proof.
  rewrite filter_app, length_app. f_equal. rewrite filter_cons.
  by destruct (decide (P x)).
Qed.

Lemma tally0_counts model : tally_counts model [] verify_model.tally0.
Proof.
  split; [done|]. intros actual Hl. unfold levels in Hl.
  repeat (apply elem_of_cons in Hl as [->|Hl];
          [split_and!; [done..|]; exists zero_counts; split; [done|];
           intros predicted Hp; unfold levels in Hp;
           repeat (apply elem_of_cons in Hp as [->|Hp]; [done|]);
           by apply elem_of_nil in Hp|]).
  by apply elem_of_nil in Hl.
Qed.

Lemma tally_row_counts model rows t row t' :
  tally_keys t → tally_counts model rows t →
  verify_model.tally_row model t row = Ok t' →
  tally_counts model (rows ++ [row]) t'.
Proof.
  intros (_ & Hkt & _ & Hkrows) (Hcorrect & Hcounts).
  unfold verify_model.tally_row.
  destruct (verify_model.predict model _) as [pred|] eqn:Hpred; [|done]. cbn [bind].
  set (actual := verify_model.row_risk_level row).
  set (predicted := p_risk_level (verify_model.v_prediction pred)).
  assert (predicted_label model row = Some predicted) as Hlabel.
  { unfold predicted_label. by rewrite Hpred. }
  destruct (dict_incr (verify_model.risk_total t) actual) as [rt|] eqn:Hrt;
    [|done]. cbn [bind].
  destruct (dict_item (verify_model.confusion t) actual) as [crow|] eqn:Hrow;
    [|done]. cbn [bind].
  destruct (dict_incr crow predicted) as [crow'|] eqn:Hcrow; [|done].
  cbn [bind].
  apply dict_incr_Ok in Hrt as (v & Hv & -> & _).
  apply dict_item_Ok in Hrow.
  apply dict_incr_Ok in Hcrow as (w & Hw & -> & _).
  assert (actual ∈ levels) as Hin by (rewrite <- Hkt; by eapply dict_get_keys).
  destruct (Hcounts actual Hin) as (Hv' & Hc' & row0 & Hrow0 & Hcells).
  rewrite Hrow in Hrow0. injection Hrow0 as <-.
  rewrite Hv in Hv'. injection Hv' as ->.
  assert (predicted ∈ levels) as Hpin.
  { rewrite <- (dict_get_values (λ r, dict_keys r = levels) _ _ _ Hkrows Hrow).
    by eapply dict_get_keys. }
  rewrite (Hcells predicted Hpin) in Hw. injection Hw as <-.
  assert (∀ rc c,
            c = hit_count model (rows ++ [row]) →
            (∀ a, a ∈ levels →
               dict_get rc a = Some (confusion_count model (rows ++ [row]) a a)) →
            tally_counts model (rows ++ [row])
              {| verify_model.correct := c; verify_model.risk_correct := rc;
                 verify_model.risk_total :=
                   dict_set (verify_model.risk_total t) actual
                            (label_count rows actual + 1)%nat;
                 verify_model.confusion :=
                   dict_set (verify_model.confusion t) actual
                     (dict_set crow predicted
                        (confusion_count model rows actual predicted + 1)%nat) |})
    as Hfinal.
  { intros rc c Hc Hrc. split; [done|]. intros a Ha.
    cbn [verify_model.risk_total verify_model.risk_correct verify_model.confusion].
    destruct (Hcounts a Ha) as (Hta & _ & rowa & Hrowa & Hcellsa).
    rewrite !dict_get_set. split_and!.
    - unfold label_count. rewrite length_filter_snoc. fold actual.
      destruct (decide (actual = a)) as [->|?]; [done|].
      rewrite Hta. unfold label_count. f_equal. lia.
    - by apply Hrc.
    - destruct (decide (actual = a)) as [<-|Hneq].
      + eexists. split; [done|]. intros p Hp. rewrite dict_get_set.
        unfold confusion_count. rewrite length_filter_snoc. fold actual.
        rewrite Hlabel.
        destruct (decide (predicted = p)) as [->|Hpp].
        * by rewrite decide_True.
        * rewrite decide_False by (intros [_ [=]]; done).
          rewrite (Hcells p Hp). unfold confusion_count. f_equal. lia.
      + exists rowa. split; [done|]. intros p Hp. rewrite (Hcellsa p Hp).
        unfold confusion_count. rewrite length_filter_snoc. fold actual.
        rewrite decide_False by (intros [? _]; done). f_equal. lia. }
  destruct (decide (predicted = actual)) as [Heq|Hneq].
  - destruct (dict_incr (verify_model.risk_correct t) actual) as [rc|] eqn:Hrc;
      [|done]. cbn [bind]. intros [= <-].
    apply dict_incr_Ok in Hrc as (c0 & Hc0 & -> & _).
    rewrite Hc' in Hc0. injection Hc0 as <-.
    apply Hfinal.
    + unfold hit_count. rewrite length_filter_snoc, Hlabel. fold actual.
      rewrite decide_True by congruence. by rewrite Hcorrect.
    + intros a Ha. rewrite dict_get_set.
      unfold confusion_count. rewrite length_filter_snoc. fold actual.
      rewrite Hlabel.
      destruct (decide (actual = a)) as [<-|Hother].
      * by rewrite decide_True by (split; congruence).
      * rewrite decide_False by (intros [? _]; done).
        destruct (Hcounts a Ha) as (_ & -> & _). unfold confusion_count.
        f_equal. lia.
  - intros [= <-]. apply Hfinal.
    + unfold hit_count. rewrite length_filter_snoc, Hlabel. fold actual.
      rewrite decide_False by congruence. rewrite Hcorrect. unfold hit_count. lia.
    + intros a Ha. destruct (Hcounts a Ha) as (_ & -> & _).
      unfold confusion_count. rewrite length_filter_snoc. fold actual.
      rewrite Hlabel.
      rewrite decide_False by (intros [? [=]]; congruence). f_equal. lia.
Qed.

Lemma tally_rows_counts model seen t rows t' :
  tally_keys t → tally_counts model seen t →
  verify_model.tally_rows model t rows = Ok t' →
  tally_counts model (seen ++ rows) t'.
Proof.
  revert seen t. induction rows as [|row rows IH]; intros seen t Hk Hc; cbn.
  - intros [= <-]. by rewrite app_nil_r.
  - destruct (verify_model.tally_row model t row) as [t1|] eqn:Hrow; [|done].
    cbn. intros Hrest.
    replace (seen ++ row :: rows) with ((seen ++ [row]) ++ rows)
      by (by rewrite <- app_assoc).
    apply (IH (seen ++ [row]) t1);
      [by eapply tally_row_keys|by eapply tally_row_counts|done].
Qed.

(** Once the evaluation loop of [verify_model.main] has gone through the
    rows, its tallies are the counts they are named after: [correct] is the
    number of rows classified as labelled, [risk_total[a]] the number of rows
    labelled [a], [confusion[a][p]] the number of rows labelled [a] and
    classified [p], and [risk_correct[a]] the diagonal cell
    [confusion[a][a]]. *)
Theorem evaluation_tallies_count_rows model rows t :
  verify_model.tally_rows model verify_model.tally0 rows = Ok t →
  verify_model.correct t = hit_count model rows
  ∧ ∀ actual, actual ∈ levels →
      dict_get (verify_model.risk_total t) actual = Some (label_count rows actual)
      ∧ dict_get (verify_model.risk_correct t) actual
        = Some (confusion_count model rows actual actual)
      ∧ ∃ row, dict_get (verify_model.confusion t) actual = Some row
          ∧ ∀ predicted, predicted ∈ levels →
              dict_get row predicted
              = Some (confusion_count model rows actual predicted).
Proof.
  intros Htally.
  exact (tally_rows_counts model [] _ rows t tally0_keys (tally0_counts model) Htally).
Qed.

Lemma tally_rows_app model t rows1 rows2 :
  verify_model.tally_rows model t (rows1 ++ rows2)
  = do t1 <- verify_model.tally_rows model t rows1;
    verify_model.tally_rows model t1 rows2.
Proof.
  revert t. induction rows1 as [|row rows1 IH]; intros t; [done|].
  cbn. destruct (verify_model.tally_row model t row); [|done]. cbn. apply IH.
Qed.

(** The evaluator accepts only the three levels: once the rows before it are
    counted, a row on which the model answers stops the evaluation with
    [KeyError] when its label is not [high], [medium] or [low], and also when
    its label is one of them but the class predicted for it is not. *)
Theorem evaluation_rejects_unknown_level model rows row rest t v :
  verify_model.tally_rows model verify_model.tally0 rows = Ok t →
  verify_model.predict model (verify_model.row_features row) = Ok v →
  (verify_model.row_risk_level row ∉ levels →
   verify_model.evaluate model (rows ++ row :: rest)
   = Raise (KeyError (verify_model.row_risk_level row)))
  ∧ (verify_model.row_risk_level row ∈ levels →
     p_risk_level (verify_model.v_prediction v) ∉ levels →
     verify_model.evaluate model (rows ++ row :: rest)
     = Raise (KeyError (p_risk_level (verify_model.v_prediction v)))).
Proof.
  intros Htally Hpred.
  pose proof (tally_rows_keys _ _ _ _ tally0_keys Htally) as (_ & Hkt & Hkm & Hkrows).
  unfold verify_model.evaluate. rewrite tally_rows_app, Htally. cbn [bind].
  cbn [verify_model.tally_rows]. unfold verify_model.tally_row.
  rewrite Hpred. cbn [bind].
  split.
  - intros Hout. rewrite <- Hkt in Hout. apply dict_get_None in Hout.
    unfold dict_incr at 1. unfold dict_item at 1. by rewrite Hout.
  - intros Hin Hout.
    destruct (dict_item_keys (verify_model.risk_total t)
                (verify_model.row_risk_level row)) as (n & Hn & _).
    { by rewrite Hkt. }
    unfold dict_incr at 1. rewrite Hn. cbn [bind].
    destruct (dict_item_keys (verify_model.confusion t)
                (verify_model.row_risk_level row)) as (crow & -> & Hget).
    { by rewrite Hkm. }
    cbn [bind]. unfold dict_incr at 1. unfold dict_item at 1.
    rewrite <- (dict_get_values (λ r, dict_keys r = levels) _ _ _ Hkrows Hget)
      in Hout.
    apply dict_get_None in Hout. by rewrite Hout.
Qed.

Lemma percentage_of_ratio (c n : nat) :
  (c ≤ n)%nat → (0 < n)%nat →
  is_percentage (Qc_of_nat c / Qc_of_nat n * Qc_of_Z 100).
Proof.
  intros Hc Hn. destruct (Qc_of_nat_div_bounds c n Hc Hn) as [H0 H1].
  assert (0 ≤ Qc_of_Z 100) as H100 by (by apply (proj1 (Qc_of_Z_le 0 100))).
  split.
  - by apply Qcmult_nonneg_nonneg.
  - rewrite <- (Qcmult_1_l (Qc_of_Z 100)) at 2. by apply Qcmult_le_compat_r.
Qed.

Lemma percentage_zero : is_percentage 0.
Proof. split; [apply Qcle_refl|by apply (proj1 (Qc_of_Z_le 0 100))]. Qed.

(** The harmonic mean of two percentages is a percentage. *)
Lemma percentage_f1 (p r : Qc) :
  is_percentage p → is_percentage r → 0 < p + r →
  is_percentage (Qc_of_Z 2 * p * r / (p + r)).
Proof.
  intros [Hp0 Hp1] [Hr0 Hr1] Hpos. split.
  - apply Qc_le_div_iff; [done|]. rewrite Qcmult_0_l.
    apply Qcmult_nonneg_nonneg; [|done].
    apply Qcmult_nonneg_nonneg; [|done]. by apply (proj1 (Qc_of_Z_le 0 2)).
  - apply Qc_div_le_iff; [done|].
    replace (Qc_of_Z 2 * p * r) with (p * r + r * p).
    2:{ change (Qc_of_Z 2) with (1 + 1). ring. }
    rewrite Qcmult_plus_distr_r, Qcplus_comm.
    apply Qcplus_le_compat; by apply Qcmult_le_compat_r.
Qed.

Lemma mapM_Forall {A B} (f : A → result B) (P : B → Prop) l ys :
  mapM f l = Ok ys → (∀ x y, x ∈ l → f x = Ok y → P y) → Forall P ys.
Proof.
  revert ys. induction l as [|x l IH]; intros ys.
  - intros [= <-] _. constructor.
  - intros (y & ys' & Hx & Hl & ->)%mapM_cons_Ok HP. constructor.
    + apply (HP x); [apply list_elem_of_here|done].
    + apply IH; [done|]. intros x' y' Hin. apply HP. by apply list_elem_of_further.
Qed.

Lemma mapM_elem {A B} (f : A → result B) l ys x :
  mapM f l = Ok ys → x ∈ l → ∃ y, f x = Ok y ∧ y ∈ ys.
Proof.
  revert ys. induction l as [|x' l IH]; intros ys Hm Hin.
  - by apply elem_of_nil in Hin.
  - apply mapM_cons_Ok in Hm as (y & ys' & Hx & Hl & ->).
    apply elem_of_cons in Hin as [->|Hin].
    + exists y. split; [done|apply list_elem_of_here].
    + destruct (IH ys' Hl Hin) as (y' & ? & ?). exists y'.
      split; [done|by apply list_elem_of_further].
Qed.

Lemma fold_left_add_ge (ys : list nat) a y :
  y ∈ ys → (y ≤ fold_left Nat.add ys a)%nat.
Proof.
  revert a. induction ys as [|y' ys IH]; intros a Hin.
  - by apply elem_of_nil in Hin.
  - cbn [fold_left]. apply elem_of_cons in Hin as [->|Hin].
    + clear IH. revert a. induction ys as [|z ys IH]; intros a; cbn; [lia|].
      etrans; [apply (IH a)|]. clear. revert a.
      assert (∀ a b, (a ≤ b)%nat → (fold_left Nat.add ys a ≤ fold_left Nat.add ys b)%nat)
        as Hmono.
      { induction ys as [|w ys IH]; intros a b Hab; cbn; [done|]. apply IH. lia. }
      intros a. apply Hmono. lia.
    + by apply IH.
Qed.

(** Every figure of the evaluation report of [verify_model.main] is a
    percentage: the overall accuracy, every per-class accuracy that is
    printed, and the precision, recall and F1 of every class lie between 0
    and 100. *)
Theorem evaluation_report_percentages model rows report :
  verify_model.evaluate model rows = Ok report →
  is_percentage (verify_model.accuracy report)
  ∧ Forall (λ la : string * option Qc, ∀ a, la.2 = Some a → is_percentage a)
           (verify_model.class_accuracy report)
  ∧ Forall (λ lm : string * verify_model.ClassMetrics,
              is_percentage (verify_model.precision lm.2)
              ∧ is_percentage (verify_model.recall lm.2)
              ∧ is_percentage (verify_model.f1 lm.2))
           (verify_model.class_metrics report).
Proof.
  unfold verify_model.evaluate.
  destruct (verify_model.tally_rows model verify_model.tally0 rows)
    as [t|] eqn:Htally; [|done]. cbn [bind].
  destruct (tally_rows_consistent _ _ _ _ _ tally0_keys tally0_consistent Htally)
    as (Hkeys & Hcons).
  assert (∀ level, level ∈ levels →
      ∃ row total hits,
        dict_get (verify_model.confusion t) level = Some row
        ∧ dict_get (verify_model.risk_total t) level = Some total
        ∧ dict_get (verify_model.risk_correct t) level = Some hits
        ∧ dict_get row level = Some hits
        ∧ (hits ≤ total)%nat) as Hlevels.
  { destruct Hkeys as (Hkc & _). destruct Hcons as (_ & _ & Hrows).
    intros level Hl. destruct (Hrows level Hl) as (row & Hrow & Ht & Hc).
    destruct (dict_item_keys (verify_model.risk_correct t) level) as (hits & _ & Hh).
    { by rewrite Hkc. }
    exists row, (sum_list (dict_values row)), hits.
    split_and!; [done..|congruence|]. apply (dict_get_le_sum row level). congruence. }
  assert (verify_model.correct t ≤ length rows)%nat as Hcorrect.
  { destruct (tally_rows_counts model [] _ rows t tally0_keys (tally0_counts model)
                Htally) as [-> _].
    apply length_filter. }
  destruct rows as [|row0 rows']; [by rewrite py_div_zero|].
  rewrite py_div_nat by done. cbn [bind].
  destruct (mapM _ levels) as [per_class|] eqn:Hpc; [|done]. cbn [bind].
  destruct (mapM (λ level, do m <- verify_model.metrics_of t level; Ok (level, m))
              levels) as [metrics|] eqn:Hms; [|done]. cbn [bind].
  intros [= <-].
  cbn [verify_model.accuracy verify_model.class_accuracy verify_model.class_metrics].
  split_and!.
  - apply percentage_of_ratio; [done|cbn; lia].
  - eapply mapM_Forall; [exact Hpc|]. intros level [l a] Hl. cbn beta.
    unfold verify_model.per_class_accuracy.
    destruct (Hlevels level Hl) as (row & total & hits & _ & Ht & Hh & _ & Hle).
    unfold dict_item. rewrite Ht. cbn [bind].
    destruct (decide (0 < total)%nat) as [Hpos|_]; cbn [bind].
    + rewrite Hh. cbn [bind]. rewrite py_div_nat by lia. cbn [bind].
      intros [= <- <-] a' [= <-]. by apply percentage_of_ratio.
    + by intros [= <- <-] a' [=].
  - eapply mapM_Forall; [exact Hms|]. intros level [l m] Hl. cbn beta.
    unfold verify_model.metrics_of.
    destruct (verify_model.predicted_total t level) as [pt|] eqn:Hpt; [|done].
    cbn [bind].
    destruct (Hlevels level Hl) as (row & total & hits & Hrow & Ht & Hh & Hdiag & Hle).
    unfold dict_item. rewrite Hrow, Ht, Hh. cbn [bind]. rewrite ?Hdiag. cbn [bind].
    assert (hits ≤ pt)%nat as Hpt_le.
    { unfold verify_model.predicted_total in Hpt.
      destruct (mapM (λ a, do r <- dict_item (verify_model.confusion t) a;
                           dict_item r level) levels)
        as [column|] eqn:Hcol; [|done].
      cbn [bind] in Hpt. injection Hpt as <-.
      destruct (mapM_elem _ _ _ level Hcol Hl) as (y & Hy & Hin).
      unfold dict_item in Hy. rewrite Hrow in Hy. cbn [bind] in Hy.
      rewrite Hdiag in Hy. injection Hy as <-. by apply fold_left_add_ge. }
    set (precision_ := if decide (0 < pt)%nat then _ else _).
    assert (∃ p, precision_ = Ok p ∧ is_percentage p) as (p & -> & Hp).
    { subst precision_. destruct (decide (0 < pt)%nat).
      - rewrite py_div_nat by lia. cbn [bind]. eexists. split; [done|].
        by apply percentage_of_ratio.
      - eexists. split; [done|apply percentage_zero]. }
    cbn [bind].
    set (recall_ := if decide (0 < total)%nat then _ else _).
    assert (∃ r, recall_ = Ok r ∧ is_percentage r) as (r & -> & Hr).
    { subst recall_. destruct (decide (0 < total)%nat).
      - rewrite py_div_nat by lia. cbn [bind]. eexists. split; [done|].
        by apply percentage_of_ratio.
      - eexists. split; [done|apply percentage_zero]. }
    cbn [bind].
    destruct (decide (0 < p + r)) as [Hpos|_].
    + unfold py_div. rewrite decide_False by (by apply Qc_pos_ne0). cbn [bind].
      intros [= <- <-]. cbn. split_and!; [done..|]. by apply percentage_f1.
    + cbn [bind]. intros [= <- <-]. cbn. split_and!; [done..|]. apply percentage_zero.
Qed.

(** ** The evaluation loop of [train_model.py] *)

Lemma predict_total self fs : trees self ≠ [] → ∃ p, predict self fs = Ok p.
Proof.
  intros Htrees. unfold predict.
  assert (length ((λ tree, _predict_tree tree fs) <$> trees self) ≠ 0%nat) as Hlen
    by (rewrite length_fmap; by destruct (trees self)).
  rewrite !py_div_nat by done. cbn [bind].
  destruct (most_common1_majority
              (prediction <$> ((λ tree, _predict_tree tree fs) <$> trees self)))
    as (m & -> & _).
  { by destruct (trees self). }
  by eexists.
Qed.

Lemma train_tally_rows_counts model correct rc rt test_data :
  trees model ≠ [] →
  dict_keys rc = levels → dict_keys rt = levels →
  Forall (λ sample, label_of sample ∈ levels) test_data →
  ∃ rc' rt',
    train_tally_rows model (correct, rc, rt) test_data
    = Ok ((correct + train_hits model test_data)%nat, rc', rt').
Proof.
  intros Htrees. revert correct rc rt.
  induction test_data as [|sample test_data IH]; intros correct rc rt Hrc Hrt Hall.
  { exists rc, rt. cbn. by rewrite Nat.add_0_r. }
  apply Forall_cons in Hall as [Hlabel Hall].
  cbn [train_tally_rows train_tally_row].
  unfold train_hits. rewrite filter_cons.
  destruct (predict_total model (features sample) Htrees) as [p Hp].
  assert (predicted_class model sample = Some (p_risk_level p)) as Hpc.
  { unfold predicted_class. by rewrite Hp. }
  rewrite Hp. cbn [bind]. fold (label_of sample).
  destruct (dict_item_keys rt (label_of sample)) as (n & Hn & _).
  { by rewrite Hrt. }
  unfold dict_incr at 1. rewrite Hn. cbn [bind].
  destruct (decide (p_risk_level p = label_of sample)) as [Heq|Hneq].
  - destruct (dict_item_keys rc (label_of sample)) as (c & Hc & _).
    { by rewrite Hrc. }
    unfold dict_incr at 1. rewrite Hc. cbn [bind].
    rewrite decide_True by (rewrite Hpc; congruence).
    destruct (IH (correct + 1)%nat (dict_set rc (label_of sample) (c + 1)%nat)
                (dict_set rt (label_of sample) (n + 1)%nat))
      as (rc' & rt' & ->); [| |done|].
    { rewrite dict_keys_set_present; [done|by rewrite Hrc]. }
    { rewrite dict_keys_set_present; [done|by rewrite Hrt]. }
    exists rc', rt'. cbn [length]. do 3 f_equal. unfold train_hits. lia.
  - rewrite decide_False by (rewrite Hpc; congruence). cbn [bind].
    destruct (IH correct rc (dict_set rt (label_of sample) (n + 1)%nat))
      as (rc' & rt' & ->); [done| |done|].
    { rewrite dict_keys_set_present; [done|by rewrite Hrt]. }
    by exists rc', rt'.
Qed.

(** The evaluation of [train_model.main] on a fitted forest and a non-empty
    test set labelled with the three levels succeeds, and the accuracy it
    stores is the share of the samples that the forest classifies as they are
    labelled, as a percentage. *)
Theorem train_accuracy_counts_hits model test_data :
  trees model ≠ [] → test_data ≠ [] →
  Forall (λ sample, label_of sample ∈ levels) test_data →
  train_accuracy model test_data
  = Ok (Some (Qc_of_nat (train_hits model test_data)
              / Qc_of_nat (length test_data) * Qc_of_Z 100))
  ∧ is_percentage (Qc_of_nat (train_hits model test_data)
                   / Qc_of_nat (length test_data) * Qc_of_Z 100).
Proof.
  intros Htrees Hne Hall. unfold train_accuracy. rewrite decide_False by done.
  destruct (train_tally_rows_counts model 0 zero_counts zero_counts test_data)
    as (rc' & rt' & ->); [done..|].
  cbn [bind fst Nat.add]. rewrite py_div_nat by (by destruct test_data).
  cbn [bind]. split; [done|].
  apply percentage_of_ratio; [apply length_filter|destruct test_data; [done|cbn; lia]].
Qed.

(** A test sample labelled outside the three levels stops the evaluation of
    [train_model.main] with [KeyError], even as the first sample. *)
Theorem train_accuracy_rejects_unknown_level model sample rest :
  trees model ≠ [] → label_of sample ∉ levels →
  train_accuracy model (sample :: rest) = Raise (KeyError (label_of sample)).
Proof.
  intros Htrees Hout. unfold train_accuracy. rewrite decide_False by done.
  cbn [train_tally_rows train_tally_row].
  destruct (predict_total model (features sample) Htrees) as [p ->].
  cbn [bind]. fold (label_of sample). unfold dict_incr at 1. unfold dict_item at 1.
  assert (dict_get zero_counts (label_of sample) = None) as ->; [|done].
  by apply dict_get_None.
Qed.

(** ** The heuristic fallback of the service *)

Lemma half_add (k c : nat) :
  Qc_of_nat k * Q2Qc (1 # 2) + Qc_of_nat c * Q2Qc (1 # 2) = Qc_of_nat (k + c) * Q2Qc (1 # 2).
Proof. rewrite Qc_of_nat_add. ring. Qed.

(** The heuristic score is a number of halves between 0 and 13. *)
Lemma heuristic_risk_score_values (features : api_prediction.AssetFeatures) :
  ∃ k : nat, (k ≤ 26)%nat
    ∧ api_prediction.heuristic_risk_score features = Qc_of_nat k * Q2Qc (1 # 2).
Proof.
  unfold api_prediction.heuristic_risk_score. cbn zeta.
  assert (0 = Qc_of_nat 0 * Q2Qc (1 # 2)) as H0 by (apply Qc_is_canon; by vm_compute).
  assert (1 = Qc_of_nat 2 * Q2Qc (1 # 2)) as H1 by (apply Qc_is_canon; by vm_compute).
  assert (Q2Qc (3 # 2) = Qc_of_nat 3 * Q2Qc (1 # 2)) as H32
    by (apply Qc_is_canon; by vm_compute).
  assert (Qc_of_Z 2 = Qc_of_nat 4 * Q2Qc (1 # 2)) as H2
    by (apply Qc_is_canon; by vm_compute).
  assert (Qc_of_Z 3 = Qc_of_nat 6 * Q2Qc (1 # 2)) as H3
    by (apply Qc_is_canon; by vm_compute).
  set (by_age := if decide (Qc_of_Z 120 < _) then _ else _).
  assert (∃ k, (k ≤ 6)%nat ∧ by_age = Qc_of_nat k * Q2Qc (1 # 2)) as (k1 & ? & ->).
  { subst by_age. repeat case_decide; rewrite ?H3, ?H32, H0, ?half_add;
      eexists; (split; [|reflexivity]); lia. }
  set (by_maintenance := if decide (Qc_of_Z 180 < _) then _ else _).
  assert (∃ k, (k ≤ 12)%nat ∧ by_maintenance = Qc_of_nat k * Q2Qc (1 # 2))
    as (k2 & ? & ->).
  { subst by_maintenance. repeat case_decide; rewrite ?H3, ?H32, ?half_add;
      eexists; (split; [|reflexivity]); lia. }
  set (by_repairs := if decide (_ < api_prediction.total_maintenance_count _)
                     then _ else _).
  assert (∃ k, (k ≤ 16)%nat ∧ by_repairs = Qc_of_nat k * Q2Qc (1 # 2))
    as (k3 & ? & ->).
  { subst by_repairs. case_decide; rewrite ?H2, ?half_add;
      eexists; (split; [|reflexivity]); lia. }
  set (by_temperature := if decide (Qc_of_Z 38 < _) then _ else _).
  assert (∃ k, (k ≤ 18)%nat ∧ by_temperature = Qc_of_nat k * Q2Qc (1 # 2))
    as (k4 & ? & ->).
  { subst by_temperature. case_decide; rewrite ?H1, ?half_add;
      eexists; (split; [|reflexivity]); lia. }
  set (by_humidity := if decide (Qc_of_Z 80 < _) then _ else _).
  assert (∃ k, (k ≤ 20)%nat ∧ by_humidity = Qc_of_nat k * Q2Qc (1 # 2))
    as (k5 & ? & ->).
  { subst by_humidity. case_decide; rewrite ?H1, ?half_add;
      eexists; (split; [|reflexivity]); lia. }
  set (by_rating := if decide (_ ≤ Qc_of_Z 2) then _ else _).
  assert (∃ k, (k ≤ 22)%nat ∧ by_rating = Qc_of_nat k * Q2Qc (1 # 2))
    as (k6 & ? & ->).
  { subst by_rating. case_decide; rewrite ?H1, ?half_add;
      eexists; (split; [|reflexivity]); lia. }
  case_decide; rewrite ?H2, ?half_add;
    eexists; (split; [|reflexivity]); lia.
Qed.

(** The three branches of the heuristic: the class with the range of its
    probability and of its days. *)
Lemma heuristic_prediction_ranges (features : api_prediction.AssetFeatures)
    level p days :
  api_prediction.heuristic_prediction features = (level, p, days) →
  (level = "high"%string
   ∧ Q2Qc (83 # 100) ≤ p ∧ p ≤ Q2Qc (95 # 100) ∧ (8 ≤ days ≤ 36)%Z)
  ∨ (level = "medium"%string
     ∧ Q2Qc (45 # 100) ≤ p ∧ p ≤ Q2Qc (575 # 1000) ∧ (68 ≤ days ≤ 105)%Z)
  ∨ (level = "low"%string
     ∧ Q2Qc (10 # 100) ≤ p ∧ p ≤ Q2Qc (175 # 1000) ∧ (220 ≤ days ≤ 320)%Z).
Proof.
  unfold api_prediction.heuristic_prediction. cbn zeta.
  destruct (heuristic_risk_score_values features) as (k & Hk & ->).
  do 27 (destruct k as [|k];
         [intros Hh; vm_compute in Hh; injection Hh as <- <- <-; by_compute|]).
  lia.
Qed.

Section Fallback.
Context `{!StrOps}.

(** Without a loaded model [make_prediction] never fails, and the heuristic
    keeps the three classes apart: [high] comes with a probability in
    [0.83, 0.95] and 8 to 36 days, [medium] with a probability in
    [0.45, 0.575] and 68 to 105 days, [low] with a probability in
    [0.10, 0.175] and 220 to 320 days. *)
Theorem fallback_prediction_ranges (features : api_prediction.AssetFeatures) :
  ∃ r, api_prediction.make_prediction None features = Ok r
    ∧ ((api_prediction.risk_level r = "high"%string
        ∧ Q2Qc (83 # 100) ≤ api_prediction.failure_probability r
        ∧ api_prediction.failure_probability r ≤ Q2Qc (95 # 100)
        ∧ (8 ≤ api_prediction.estimated_days_to_failure r ≤ 36)%Z)
       ∨ (api_prediction.risk_level r = "medium"%string
          ∧ Q2Qc (45 # 100) ≤ api_prediction.failure_probability r
          ∧ api_prediction.failure_probability r ≤ Q2Qc (575 # 1000)
          ∧ (68 ≤ api_prediction.estimated_days_to_failure r ≤ 105)%Z)
       ∨ (api_prediction.risk_level r = "low"%string
          ∧ Q2Qc (10 # 100) ≤ api_prediction.failure_probability r
          ∧ api_prediction.failure_probability r ≤ Q2Qc (175 # 1000)
          ∧ (220 ≤ api_prediction.estimated_days_to_failure r ≤ 320)%Z)).
Proof.
  unfold api_prediction.make_prediction. cbn [bind].
  destruct (api_prediction.heuristic_prediction features) as [[level p] days] eqn:Hh.
  eexists. split; [reflexivity|].
  cbn [api_prediction.risk_level api_prediction.failure_probability
         api_prediction.estimated_days_to_failure].
  exact (heuristic_prediction_ranges features level p days Hh).
Qed.
End Fallback.

Section Explanations.
Context `{!StrOps}.

(** [generate_suggested_actions] always recommends something, and never more
    than four actions: the cut at five actions never removes anything. *)
Theorem suggested_actions_bounds (features : api_prediction.AssetFeatures)
    (risk_level : string) :
  (1 ≤ length (api_prediction.generate_suggested_actions features risk_level) ≤ 4)%nat.
Proof.
  unfold api_prediction.generate_suggested_actions. cbn zeta.
  set (maintenance := if decide (Qc_of_Z 180 < _) then _ else _).
  assert (length maintenance ≤ 1)%nat as H1.
  { subst maintenance. repeat case_decide; cbn; lia. }
  clearbody maintenance.
  set (by_type := if decide (str_lower _ = "hvac"%string) then _ else _).
  assert (length maintenance ≤ length by_type ≤ length maintenance + 2)%nat as H2.
  { subst by_type. unfold append_if.
    repeat case_decide; rewrite ?length_app; cbn; lia. }
  clearbody by_type.
  set (by_age := append_if _ _ by_type).
  assert (length by_type ≤ length by_age ≤ length by_type + 1)%nat as H3.
  { subst by_age. unfold append_if.
    case_decide; rewrite ?length_app; cbn; lia. }
  clearbody by_age.
  rewrite length_take. destruct (decide (by_age = [])) as [->|Hne].
  - cbn [app length]. lia.
  - destruct by_age; [done|]. cbn [length] in *. lia.
Qed.

(** [generate_contributing_factors] returns between one and four factors. *)
Theorem contributing_factors_bounds (features : api_prediction.AssetFeatures)
    (risk_level : string) :
  (1 ≤ length (api_prediction.generate_contributing_factors features risk_level)
   ≤ 4)%nat.
Proof.
  unfold api_prediction.generate_contributing_factors.
  cbn zeta.
  match goal with
  | |- context [decide (?l = [])] => generalize l
  end.
  intros factors. rewrite length_take.
  destruct (decide (factors = [])) as [->|Hne].
  - destruct (decide (risk_level = "low"%string)); cbn [length]; lia.
  - destruct factors; [done|cbn [length]; lia].
Qed.

(** The base cost and the two multipliers take finitely many values. *)
Lemma estimate_cost_factors (asset_type risk_level : string) (days : Z) :
  default 5000000%Z (dict_get api_prediction.base_costs (str_lower asset_type))
  ∈ [8000000; 15000000; 4000000; 3000000; 2500000; 2000000; 5000000]%Z
  ∧ default 1 (dict_get api_prediction.risk_multipliers risk_level)
    ∈ [Q2Qc (3 # 2); 1; Q2Qc (1 # 2)]
  ∧ (if decide (days < 30)%Z then Q2Qc (13 # 10) else 1) ∈ [Q2Qc (13 # 10); 1].
Proof.
  split; [|split].
  - unfold api_prediction.base_costs. cbn [dict_get].
    repeat (destruct (decide (_ = str_lower asset_type)); [by_compute|]).
    by_compute.
  - unfold api_prediction.risk_multipliers. cbn [dict_get].
    repeat (destruct (decide (_ = risk_level)); [by_compute|]).
    by_compute.
  - destruct (decide _); by_compute.
Qed.

Lemma estimate_cost_range (asset_type risk_level : string) (days : Z) :
  (1000000 ≤ api_prediction.estimate_cost asset_type risk_level days ≤ 29250000)%Z.
Proof.
  unfold api_prediction.estimate_cost.
  destruct (estimate_cost_factors asset_type risk_level days)
    as (Hbase & Hmult & Hurgency).
  revert Hbase Hmult Hurgency.
  generalize (default 5000000%Z
    (dict_get api_prediction.base_costs (str_lower asset_type))).
  generalize (default 1 (dict_get api_prediction.risk_multipliers risk_level)).
  generalize (if decide (days < 30)%Z then Q2Qc (13 # 10) else 1).
  intros urgency mult base Hbase Hmult Hurgency.
  repeat (apply elem_of_cons in Hbase as [->|Hbase]);
    [..|by apply elem_of_nil in Hbase];
    (repeat (apply elem_of_cons in Hmult as [->|Hmult]);
     [..|by apply elem_of_nil in Hmult]);
    (repeat (apply elem_of_cons in Hurgency as [->|Hurgency]);
     [..|by apply elem_of_nil in Hurgency]); by vm_compute.
Qed.

(** [estimate_cost] is at least 1,000,000 and at most 29,250,000 paisa; for
    the same asset and days it does not decrease from [low] to [medium] to
    [high], and a risk level outside the three is priced as [medium]. *)
Theorem estimate_cost_bounds (asset_type risk_level : string) (days : Z) :
  (1000000 ≤ api_prediction.estimate_cost asset_type risk_level days ≤ 29250000)%Z
  ∧ (api_prediction.estimate_cost asset_type "low" days
     ≤ api_prediction.estimate_cost asset_type "medium" days)%Z
  ∧ (api_prediction.estimate_cost asset_type "medium" days
     ≤ api_prediction.estimate_cost asset_type "high" days)%Z
  ∧ (risk_level ∉ ["high"; "medium"; "low"]%string →
     api_prediction.estimate_cost asset_type risk_level days
     = api_prediction.estimate_cost asset_type "medium" days).
Proof.
  split; [apply estimate_cost_range|].
  unfold api_prediction.estimate_cost.
  destruct (estimate_cost_factors asset_type risk_level days) as (Hbase & _ & Hurgency).
  revert Hbase Hurgency.
  generalize (default 5000000%Z
    (dict_get api_prediction.base_costs (str_lower asset_type))).
  generalize (if decide (days < 30)%Z then Q2Qc (13 # 10) else 1).
  intros urgency base Hbase Hurgency.
  split; [|split].
  - repeat (apply elem_of_cons in Hbase as [->|Hbase]);
      [..|by apply elem_of_nil in Hbase];
      (repeat (apply elem_of_cons in Hurgency as [->|Hurgency]);
       [..|by apply elem_of_nil in Hurgency]); by vm_compute.
  - repeat (apply elem_of_cons in Hbase as [->|Hbase]);
      [..|by apply elem_of_nil in Hbase];
      (repeat (apply elem_of_cons in Hurgency as [->|Hurgency]);
       [..|by apply elem_of_nil in Hurgency]); by vm_compute.
  - intros Hout. unfold api_prediction.risk_multipliers. cbn [dict_get].
    repeat (destruct (decide (_ = risk_level)) as [<-|?];
            [exfalso; apply Hout; by_compute|]).
    done.
Qed.
End Explanations.

(** ** Ticket classification *)

Section TicketPriority.
Context `{!StrOps}.

Lemma scan_priority_keywords_inv text priority score keywords state :
  (priority, score) ∈ [("urgent", 3); ("high", 2); ("medium", 1); ("low", 0)]%string%nat →
  priority_scan_inv state →
  priority_scan_inv
    (fold_left (api_tickets.scan_priority_keyword text priority score) keywords state).
Proof.
  intros Hentry. revert state.
  induction keywords as [|keyword keywords IH]; intros state Hinv; [done|].
  cbn [fold_left]. apply IH. clear IH.
  destruct Hinv as (a & b & c & reasons & -> & Hreasons).
  unfold api_tickets.scan_priority_keyword. cbn [bind].
  destruct (str_contains text keyword); [|by exists a, b, c, reasons].
  repeat (apply elem_of_cons in Hentry as [[= -> ->]|Hentry]);
    [..|by apply elem_of_nil in Hentry]; cbn.
  - exists (a + 3)%nat, b, c. eexists. split; [done|]. intros _. by destruct reasons.
  - exists a, (b + 2)%nat, c. eexists. split; [done|]. intros _. by destruct reasons.
  - exists a, b, (c + 1)%nat. eexists. split; [done|]. intros _. by destruct reasons.
  - exists a, b, c. eexists. split; [done|]. intros _. by destruct reasons.
Qed.

Lemma scan_priorities_inv text :
  priority_scan_inv
    (fold_left (api_tickets.scan_priority text) api_tickets.PRIORITY_KEYWORDS
       (Ok ([("urgent", 0); ("high", 0); ("medium", 0); ("low", 0)]%string%nat, []))).
Proof.
  unfold api_tickets.PRIORITY_KEYWORDS. cbn [fold_left].
  unfold api_tickets.scan_priority. cbn [fst snd].
  repeat (apply scan_priority_keywords_inv; [by_compute|]).
  exists 0%nat, 0%nat, 0%nat, []. split; [done|]. cbn. lia.
Qed.

(** [classify_ticket_priority] never fails and never answers [low]: the
    keywords of [low] score 0, so the priority is [urgent], [high] or
    [medium]; the confidence is 0.5, 0.65, 0.8 or 0.95, and between one and
    five reasons are given. *)
Theorem classify_ticket_priority_never_low (request : api_tickets.TicketClassifyRequest) :
  ∃ r, api_tickets.classify_ticket_priority request = Ok r
    ∧ api_tickets.priority r ∈ ["urgent"; "high"; "medium"]%string
    ∧ api_tickets.confidence r
      ∈ [Q2Qc (1 # 2); Q2Qc (65 # 100); Q2Qc (8 # 10); Q2Qc (95 # 100)]
    ∧ (1 ≤ length (api_tickets.reasoning r) ≤ 5)%nat.
Proof.
  unfold api_tickets.classify_ticket_priority. cbn zeta.
  destruct (scan_priorities_inv (api_tickets.ticket_text request))
    as (a & b & c & reasons & -> & Hreasons).
  cbn [bind dict_values fmap list_fmap snd py_max_list fold_left].
  set (max_score := ((a `max` b) `max` c) `max` 0).
  destruct (decide (max_score = 0%nat)) as [Hzero|Hpos].
  { cbn [bind]. eexists. split; [reflexivity|].
    cbn [api_tickets.priority api_tickets.confidence api_tickets.reasoning].
    split_and!; [by_compute|by_compute|cbn; lia|cbn; lia]. }
  assert (∃ winner, api_main.max_key
            [("urgent", a); ("high", b); ("medium", c); ("low", 0)]%string%nat
          = Ok winner ∧ winner ∈ ["urgent"; "high"; "medium"]%string)
    as (winner & -> & Hwinner).
  { unfold api_main.max_key, py_max. cbn [py_max_from snd].
    repeat (case_decide; cbn [py_max_from snd]);
      try lia; eexists; (split; [reflexivity|by_compute]). }
  cbn [bind]. eexists. split; [reflexivity|].
  cbn [api_tickets.priority api_tickets.confidence api_tickets.reasoning].
  split_and!; [done| | |].
  - assert (max_score = 1 ∨ max_score = 2 ∨ 3 ≤ max_score)%nat as [->|[->|Hbig]]
      by lia; [by_compute|by_compute|].
    unfold py_min2. rewrite decide_False.
    { by_compute. }
    apply Qcle_not_lt.
    replace (Q2Qc (95 # 100)) with (Q2Qc (1 # 2) + Qc_of_nat 3 * Q2Qc (15 # 100))
      by (apply Qc_is_canon; by vm_compute).
    apply Qcplus_le_compat; [apply Qcle_refl|].
    apply Qcmult_le_compat_r; [by apply Qc_of_nat_le|by_compute].
  - assert (reasons ≠ []) as Hne by (apply Hreasons; lia).
    rewrite length_take. destruct reasons; [done|cbn [length]; lia].
  - rewrite length_take. lia.
Qed.
End TicketPriority.

(** Rounding to [ndigits] decimals never leaves an interval whose end points
    have at most [ndigits] decimals. *)
Lemma py_round_n_between (x : Qc) ndigits (a b : Z) :
  let scale := Qc_of_Z (10 ^ Z.of_nat ndigits) in
  Qc_of_Z a / scale ≤ x → x ≤ Qc_of_Z b / scale →
  Qc_of_Z a / scale ≤ py_round_n x ndigits
  ∧ py_round_n x ndigits ≤ Qc_of_Z b / scale.
Proof.
  intros scale Ha Hb. unfold py_round_n. fold scale.
  assert (0 < scale) as Hs.
  { apply (proj1 (Qc_of_Z_lt 0 (10 ^ Z.of_nat ndigits))).
    apply Z.pow_pos_nonneg; lia. }
  destruct (py_round_bounds (x * scale) a b) as [H1 H2].
  { by apply Qc_div_le_iff. }
  { by apply Qc_le_div_iff. }
  split.
  - apply Qc_le_div_iff; [done|]. rewrite Qc_div_mul by (by apply Qc_pos_ne0).
    by apply (proj1 (Qc_of_Z_le _ _)).
  - apply Qc_div_le_iff; [done|]. rewrite Qc_div_mul by (by apply Qc_pos_ne0).
    by apply (proj1 (Qc_of_Z_le _ _)).
Qed.

Lemma fold_left_add_sum (xs : list nat) a :
  fold_left Nat.add xs a = (a + sum_list xs)%nat.
Proof.
  revert a. induction xs as [|x xs IH]; intros a; cbn; [lia|].
  rewrite IH. lia.
Qed.

Lemma dict_add_present d k n :
  k ∈ dict_keys d →
  ∃ d', dict_add d k n = Ok d' ∧ dict_keys d' = dict_keys d
        ∧ sum_list (dict_values d') = (sum_list (dict_values d) + n)%nat.
Proof.
  intros Hk. unfold dict_add.
  destruct (dict_item_keys d k Hk) as (v & -> & Hget). cbn [bind].
  eexists. split; [done|]. split; [by apply dict_keys_set_present|].
  pose proof (sum_values_dict_set d k (v + n)) as Hsum. rewrite Hget in Hsum.
  cbn [default] in Hsum. change (id v) with v in Hsum. lia.
Qed.

Lemma mapM_shares (scores : list (string * nat)) (total : nat) :
  total ≠ 0%nat →
  mapM (λ kv : string * nat,
          do share <- py_div (Qc_of_nat kv.2) (Qc_of_nat total);
          Ok (kv.1, py_round_n share 2)) scores
  = Ok ((λ kv, (kv.1, py_round_n (Qc_of_nat kv.2 / Qc_of_nat total) 2)) <$> scores).
Proof.
  intros Hne. induction scores as [|kv scores IH]; [done|].
  cbn [mapM]. rewrite py_div_nat by done. cbn [bind]. rewrite IH. done.
Qed.

Lemma filter_none {A} (f : A → bool) (l : list A) :
  Forall (λ x, f x = false) l → filter (λ x, f x) l = [].
Proof.
  induction 1 as [|x l Hx _ IH]; [done|].
  rewrite filter_cons, decide_False; [done|]. rewrite Hx. by intros [].
Qed.

Section TicketCategory.
Context `{!StrOps}.

Lemma scan_category_keywords text category keywords scores :
  category ∈ dict_keys scores →
  ∃ scores',
    fold_left (api_tickets.scan_category_keyword text category) keywords (Ok scores)
    = Ok scores'
    ∧ dict_keys scores' = dict_keys scores
    ∧ sum_list (dict_values scores')
      = (sum_list (dict_values scores)
         + length (filter (λ keyword, str_contains text keyword) keywords))%nat.
Proof.
  revert scores. induction keywords as [|keyword keywords IH]; intros scores Hk.
  { exists scores. cbn. split_and!; [done..|lia]. }
  cbn [fold_left]. unfold api_tickets.scan_category_keyword at 2. cbn [bind].
  rewrite filter_cons. destruct (str_contains text keyword) eqn:Hc.
  - destruct (dict_add_present scores category 1 Hk) as (s1 & -> & Hk1 & Hsum1).
    destruct (IH s1) as (s2 & -> & Hk2 & Hsum2); [by rewrite Hk1|].
    exists s2. rewrite decide_True by done.
    split_and!; [done|congruence|]. cbn [length]. lia.
  - destruct (IH scores Hk) as (s2 & -> & Hk2 & Hsum2).
    exists s2. rewrite decide_False by (by intros []). by split_and!.
Qed.

Lemma scan_categories text entries scores :
  (∀ entry, entry ∈ entries → entry.1 ∈ dict_keys scores) →
  ∃ scores',
    fold_left (api_tickets.scan_category text) entries (Ok scores) = Ok scores'
    ∧ dict_keys scores' = dict_keys scores
    ∧ sum_list (dict_values scores')
      = (sum_list (dict_values scores)
         + length (filter (λ keyword, str_contains text keyword)
                          (entries ≫= snd)))%nat.
Proof.
  revert scores. induction entries as [|entry entries IH]; intros scores Hk.
  { exists scores. cbn. split_and!; [done..|lia]. }
  cbn [fold_left]. unfold api_tickets.scan_category at 2.
  destruct (scan_category_keywords text entry.1 entry.2 scores)
    as (s1 & -> & Hk1 & Hsum1).
  { apply Hk, list_elem_of_here. }
  destruct (IH s1) as (s2 & -> & Hk2 & Hsum2).
  { intros e He. rewrite Hk1. by apply Hk, list_elem_of_further. }
  exists s2. split_and!; [done|congruence|].
  rewrite bind_cons, filter_app, length_app. lia.
Qed.

(** [classify_ticket_category] never fails; it reports a share for each of
    the six categories, in the order of the table; it suggests [other], with
    confidence 0.3, exactly when no keyword of the table occurs in the text,
    and otherwise one of the six categories with a confidence between 0.3
    and 0.95. *)
Theorem classify_ticket_category_spec (request : api_tickets.TicketClassifyRequest) :
  ∃ r, api_tickets.classify_ticket_category request = Ok r
    ∧ dict_keys (api_tickets.all_categories r)
      = ["hvac"; "electrical"; "plumbing"; "elevator"; "security"; "appliance"]%string
    ∧ (Forall (λ keyword,
                 str_contains (api_tickets.ticket_text request) keyword = false)
              category_keywords →
       api_tickets.suggested_category r = "other"%string
       ∧ api_tickets.category_confidence r = Q2Qc (3 # 10))
    ∧ (Exists (λ keyword,
                 str_contains (api_tickets.ticket_text request) keyword = true)
              category_keywords →
       api_tickets.suggested_category r
       ∈ ["hvac"; "electrical"; "plumbing"; "elevator"; "security"; "appliance"]%string
       ∧ Q2Qc (3 # 10) ≤ api_tickets.category_confidence r
       ∧ api_tickets.category_confidence r ≤ Q2Qc (95 # 100)).
Proof.
  unfold api_tickets.classify_ticket_category. cbn zeta.
  set (text := api_tickets.ticket_text request).
  destruct (scan_categories text api_tickets.CATEGORY_KEYWORDS
              ((λ entry, (entry.1, 0%nat)) <$> api_tickets.CATEGORY_KEYWORDS))
    as (scores & -> & Hkeys & Hsum).
  { intros entry He. unfold dict_keys. rewrite <- list_fmap_compose.
    apply list_elem_of_fmap. by exists entry. }
  assert (sum_list (dict_values scores)
          = length (filter (λ keyword, str_contains text keyword) category_keywords))
    as Htotal by (by rewrite Hsum).
  clear Hsum. cbn [bind]. rewrite fold_left_add_sum, Nat.add_0_l, Htotal.
  change (dict_keys ((λ entry, (entry.1, 0%nat)) <$> api_tickets.CATEGORY_KEYWORDS))
    with ["hvac"; "electrical"; "plumbing"; "elevator"; "security"; "appliance"]%string
    in Hkeys.
  set (hits := filter (λ keyword, str_contains text keyword) category_keywords) in *.
  assert (Forall (λ keyword, str_contains text keyword = false) category_keywords
          → hits = []) as Hnone.
  { intros Hall. subst hits. by apply filter_none. }
  assert (Exists (λ keyword, str_contains text keyword = true) category_keywords
          → hits ≠ []) as Hsome.
  { intros Hex Hnil. apply Exists_exists in Hex as (k & Hin & Hk).
    assert (k ∈ hits) as Hhit by (apply list_elem_of_filter; by rewrite Hk).
    rewrite Hnil in Hhit. by apply elem_of_nil in Hhit. }
  destruct (decide (length hits = 0%nat)) as [Hzero|Hpos].
  - cbn [bind]. eexists. split; [reflexivity|].
    cbn [api_tickets.all_categories api_tickets.suggested_category
           api_tickets.category_confidence].
    split_and!.
    + unfold dict_keys in *. by rewrite <- list_fmap_compose.
    + intros _. split; [done|]. apply Qc_is_canon. by vm_compute.
    + intros Hex. destruct (Hsome Hex). by destruct hits.
  - cbn [bind]. rewrite mapM_shares by done. cbn [bind].
    unfold api_main.max_key.
    destruct (py_max snd scores) as [[winner v]|] eqn:Hmax.
    2:{ destruct scores; [discriminate Hkeys|done]. }
    cbn [bind fst]. apply py_max_elem in Hmax.
    assert (winner ∈ dict_keys scores) as Hwin.
    { apply list_elem_of_fmap. by exists (winner, v). }
    destruct (dict_item_keys scores winner Hwin) as (v' & _ & Hget).
    unfold dict_item.
    rewrite (dict_get_fmap
               (λ kv, py_round_n (Qc_of_nat kv.2 / Qc_of_nat (length hits)) 2)
               scores winner), Hget.
    cbn [fmap option_fmap option_map bind snd].
    eexists. split; [reflexivity|].
    cbn [api_tickets.all_categories api_tickets.suggested_category
           api_tickets.category_confidence].
    split_and!.
    + unfold dict_keys in *. by rewrite <- list_fmap_compose.
    + intros Hall. by rewrite (Hnone Hall) in Hpos.
    + intros _. split; [by rewrite <- Hkeys|].
      assert (v' ≤ length hits)%nat as Hle.
      { rewrite <- Htotal. by eapply dict_get_le_sum. }
      destruct (Qc_of_nat_div_bounds v' (length hits) Hle ltac:(lia)) as [H0 H1].
      destruct (py_round_n_bounds _ 2 0 1 H0 H1) as [Hs0 Hs1].
      set (share := py_round_n (Qc_of_nat v' / Qc_of_nat (length hits)) 2) in *.
      assert (Q2Qc (3 # 10) ≤ py_min2 (Q2Qc (95 # 100)) (share + Q2Qc (3 # 10))
              ∧ py_min2 (Q2Qc (95 # 100)) (share + Q2Qc (3 # 10)) ≤ Q2Qc (95 # 100))
        as [Hc0 Hc1].
      { unfold py_min2. destruct (decide _) as [Hlt|_].
        - split; [|by apply Qclt_le_weak].
          rewrite <- (Qcplus_0_l (Q2Qc (3 # 10))) at 1.
          apply Qcplus_le_compat; [done|apply Qcle_refl].
        - split; [by_compute|apply Qcle_refl]. }
      replace (Q2Qc (3 # 10)) with (Qc_of_Z 30 / Qc_of_Z (10 ^ Z.of_nat 2)) in *
        by (apply Qc_is_canon; by vm_compute).
      replace (Q2Qc (95 # 100)) with (Qc_of_Z 95 / Qc_of_Z (10 ^ Z.of_nat 2)) in *
        by (apply Qc_is_canon; by vm_compute).
      by apply py_round_n_between.
Qed.
End TicketCategory.

(** ** The risk summary *)

Lemma py_sum_Z_bounds (xs : list Z) (lo hi : Z) :
  Forall (λ x, lo ≤ x ≤ hi)%Z xs →
  (lo * Z.of_nat (length xs) ≤ py_sum_Z xs ≤ hi * Z.of_nat (length xs))%Z.
Proof.
  induction 1 as [|x xs Hx _ IH]; [unfold py_sum_Z; cbn; lia|].
  rewrite py_sum_Z_cons. cbn [length]. lia.
Qed.

(** Three disjoint classes that cover a list split it into three parts. *)
Lemma length_filter_three {A} (f : A → string) (a b c : string) (l : list A) :
  a ≠ b → a ≠ c → b ≠ c →
  Forall (λ x, f x ∈ [a; b; c]) l →
  (length (filter (λ x, f x = a) l) + length (filter (λ x, f x = b) l)
   + length (filter (λ x, f x = c) l) = length l)%nat.
Proof.
  intros Hab Hac Hbc. induction 1 as [|x l Hx _ IH]; [done|].
  rewrite !filter_cons.
  apply elem_of_cons in Hx as [Hx|Hx];
    [|apply elem_of_cons in Hx as [Hx|Hx];
      [|apply elem_of_cons in Hx as [Hx|Hx]; [|by apply elem_of_nil in Hx]]];
    rewrite Hx;
    repeat (first [rewrite decide_True by done
                  |rewrite decide_False by congruence]);
    cbn [length]; lia.
Qed.

Lemma length_filter_impl {A} (P Q : A → Prop) `{!∀ x, Decision (P x)}
    `{!∀ x, Decision (Q x)} (l : list A) :
  Forall (λ x, P x → Q x) l → (length (filter P l) ≤ length (filter Q l))%nat.
Proof.
  induction 1 as [|x l Hx _ IH]; [done|].
  rewrite !filter_cons. destruct (decide (P x)) as [HP|HP].
  - rewrite decide_True by auto. cbn [length]. lia.
  - destruct (decide (Q x)); cbn [length]; lia.
Qed.

Section RiskSummary.
Context `{!StrOps}.

Lemma fallback_prediction_result (features : api_prediction.AssetFeatures) :
  ∃ r, api_prediction.make_prediction None features = Ok r ∧ fallback_result r.
Proof.
  unfold api_prediction.make_prediction. cbn [bind].
  destruct (api_prediction.heuristic_prediction features) as [[level p] days] eqn:Hh.
  eexists. split; [reflexivity|].
  unfold fallback_result.
  cbn [api_prediction.risk_level api_prediction.failure_probability
         api_prediction.estimated_days_to_failure
         api_prediction.estimated_cost_if_ignored].
  split; [|split; [|split]]; [..|apply estimate_cost_range].
  - destruct (heuristic_prediction_ranges features level p days Hh)
      as [(-> & _)|[(-> & _)|(-> & _)]]; by_compute.
  - destruct (heuristic_prediction_ranges features level p days Hh)
      as [(_ & H1 & H2 & _)|[(_ & H1 & H2 & _)|(_ & H1 & H2 & _)]];
      (split; [eapply Qcle_trans; [|exact H1]|eapply Qcle_trans; [exact H2|]]);
      by vm_compute.
  - destruct (heuristic_prediction_ranges features level p days Hh)
      as [(-> & _)|[(_ & _ & _ & ?)|(_ & _ & _ & ?)]]; [done|lia..].
Qed.

Lemma fallback_predictions (assets : list api_prediction.AssetFeatures) :
  ∃ predictions,
    mapM (api_prediction.make_prediction None) assets = Ok predictions
    ∧ length predictions = length assets
    ∧ Forall fallback_result predictions.
Proof.
  destruct (mapM_total (api_prediction.make_prediction None) assets)
    as [predictions Hp].
  { intros a _. destruct (fallback_prediction_result a) as (r & -> & _). by eexists. }
  exists predictions. split; [done|]. split; [by eapply mapM_length|].
  eapply mapM_Forall; [exact Hp|].
  intros a r _ Hr. destruct (fallback_prediction_result a) as (r' & Hr' & Hres).
  congruence.
Qed.

(** While no model is loaded, [calculate_risk_summary] always answers; the
    three risk counts add up to the number of assets, the urgent assets are
    among the high-risk ones, the total cost lies between 1,000,000 and
    29,250,000 paisa per asset, and the average probability of a non-empty
    list lies between 0.10 and 0.95. *)
Theorem risk_summary_without_model (assets : list api_prediction.AssetFeatures) :
  ∃ r, api_risk_summary.calculate_risk_summary None assets = Ok r
    ∧ api_risk_summary.total_assets r = length assets
    ∧ (api_risk_summary.high_risk r + api_risk_summary.medium_risk r
       + api_risk_summary.low_risk r = length assets)%nat
    ∧ (api_risk_summary.urgent_actions_needed r ≤ api_risk_summary.high_risk r)%nat
    ∧ (1000000 * Z.of_nat (length assets)
       ≤ api_risk_summary.estimated_total_cost r
       ≤ 29250000 * Z.of_nat (length assets))%Z
    ∧ (if decide (assets = []) then api_risk_summary.avg_failure_probability r = 0
       else Q2Qc (1 # 10) ≤ api_risk_summary.avg_failure_probability r
            ∧ api_risk_summary.avg_failure_probability r ≤ Q2Qc (95 # 100)).
Proof.
  unfold api_risk_summary.calculate_risk_summary.
  destruct (decide (assets = [])) as [->|Hne].
  { eexists. split; [reflexivity|]. cbn. repeat split; lia. }
  destruct (fallback_predictions assets) as (predictions & -> & Hlen & Hall).
  cbn [bind].
  assert (predictions ≠ []) as Hpne.
  { intros ->. destruct assets; [done|discriminate]. }
  rewrite py_div_nat by (destruct predictions; [done|cbn; lia]).
  cbn [bind]. eexists. split; [reflexivity|].
  cbn [api_risk_summary.total_assets api_risk_summary.high_risk
         api_risk_summary.medium_risk api_risk_summary.low_risk
         api_risk_summary.urgent_actions_needed
         api_risk_summary.estimated_total_cost
         api_risk_summary.avg_failure_probability].
  split; [done|]. split; [|split; [|split]].
  - rewrite <- Hlen. apply length_filter_three; [done..|].
    eapply Forall_impl; [exact Hall|]. by intros r (? & _).
  - apply length_filter_impl.
    eapply Forall_impl; [exact Hall|]. by intros r (_ & _ & ? & _).
  - rewrite <- Hlen.
    rewrite <- (length_fmap api_prediction.estimated_cost_if_ignored predictions).
    apply py_sum_Z_bounds. apply Forall_fmap.
    eapply Forall_impl; [exact Hall|]. by intros r (_ & _ & _ & ?).
  - rewrite <- (length_fmap api_prediction.failure_probability predictions).
    apply (py_round_n_between _ 4 1000 9500).
    + eapply Qcle_trans; [|apply (py_mean_bounds _ (Q2Qc (1 # 10)) (Q2Qc (95 # 100)))].
      * by vm_compute.
      * by destruct predictions.
      * apply Forall_fmap. eapply Forall_impl; [exact Hall|]. by intros r (_ & ? & _).
    + eapply Qcle_trans; [apply (py_mean_bounds _ (Q2Qc (1 # 10)) (Q2Qc (95 # 100)))|].
      * by destruct predictions.
      * apply Forall_fmap. eapply Forall_impl; [exact Hall|]. by intros r (_ & ? & _).
      * by vm_compute.
Qed.
End RiskSummary.

(** ** The maintenance schedule *)

(** *** Sorting by key *)

Lemma insert_by_Permutation {A} (x : (Z * Z) * A) l : insert_by x l ≡ₚ x :: l.
Proof.
  induction l as [|y l IH]; [done|]. cbn [insert_by].
  case_decide; [|done]. rewrite IH. apply Permutation_swap.
Qed.

Lemma sort_by_Permutation {A} (l : list ((Z * Z) * A)) : foldr insert_by [] l ≡ₚ l.
Proof.
  induction l as [|x l IH]; [done|]. cbn [foldr].
  by rewrite insert_by_Permutation, IH.
Qed.

Lemma insert_by_sorted {A} (x : (Z * Z) * A) l :
  StronglySorted (λ a b, ¬ pair_lt b.1 a.1) l →
  StronglySorted (λ a b, ¬ pair_lt b.1 a.1) (insert_by x l).
Proof.
  induction 1 as [|y l Hs IH Hy]; cbn [insert_by].
  { repeat constructor. }
  case_decide as Hlt.
  - constructor; [done|].
    rewrite insert_by_Permutation. constructor; [|done].
    unfold pair_lt in *. lia.
  - constructor; [by constructor|]. constructor; [done|].
    eapply Forall_impl; [exact Hy|]. intros z Hz. unfold pair_lt in *. lia.
Qed.

Lemma sort_by_sorted {A} (l : list ((Z * Z) * A)) :
  StronglySorted (λ a b, ¬ pair_lt b.1 a.1) (foldr insert_by [] l).
Proof.
  induction l as [|x l IH]; cbn [foldr]; [constructor|by apply insert_by_sorted].
Qed.

Lemma mapM_zip {A B} (f : A → result B) l ys :
  mapM f l = Ok ys →
  (zip ys l).*2 = l ∧ Forall (λ yx, f yx.2 = Ok yx.1) (zip ys l).
Proof.
  revert ys. induction l as [|x l IH]; intros ys Hm.
  { cbn in Hm. injection Hm as <-. by split. }
  apply mapM_cons_Ok in Hm as (y & ys' & Hy & Hm & ->).
  destruct (IH _ Hm) as [H1 H2]. cbn [zip zip_with fmap list_fmap].
  split; [cbn; f_equal; exact H1|]. by constructor.
Qed.

Lemma StronglySorted_fmap {A B} (R : A → A → Prop) (S : B → B → Prop)
    (f : A → B) l :
  (∀ a b, a ∈ l → b ∈ l → R a b → S (f a) (f b)) →
  StronglySorted R l → StronglySorted S (f <$> l).
Proof.
  intros HRS Hs. induction Hs as [|x l Hs IH Hx]; [constructor|].
  cbn [fmap list_fmap]. constructor.
  - apply IH. intros a b Ha Hb. apply HRS; by apply list_elem_of_further.
  - apply Forall_fmap. apply Forall_forall. intros y Hy.
    apply HRS; [apply list_elem_of_here|by apply list_elem_of_further|].
    by eapply Forall_forall in Hx.
Qed.

(** [lst.sort(key=f)] permutes the list and puts the keys in order. *)
Lemma py_sort_by_spec {A} (key : A → result (Z * Z)) l l' :
  py_sort_by key l = Ok l' →
  l' ≡ₚ l
  ∧ StronglySorted (λ a b, ∃ ka kb, key a = Ok ka ∧ key b = Ok kb ∧ ¬ pair_lt kb ka) l'.
Proof.
  unfold py_sort_by. destruct (mapM key l) as [keys|] eqn:Hk; [|done].
  cbn [bind]. intros [= <-].
  destruct (mapM_zip _ _ _ Hk) as [Hz Hall]. split.
  - by rewrite sort_by_Permutation, Hz.
  - eapply StronglySorted_fmap; [|apply sort_by_sorted].
    intros a b Ha Hb Hab. exists a.1, b.1.
    rewrite sort_by_Permutation in Ha, Hb.
    eapply Forall_forall in Ha; [|exact Hall].
    eapply Forall_forall in Hb; [|exact Hall].
    done.
Qed.

Lemma py_sort_by_total {A} (key : A → result (Z * Z)) l :
  (∀ x, x ∈ l → ∃ k, key x = Ok k) → ∃ l', py_sort_by key l = Ok l'.
Proof.
  intros Hk. unfold py_sort_by.
  destruct (mapM_total key l Hk) as [keys ->]. cbn [bind]. by eexists.
Qed.

(** *** Truncation *)

Lemma py_int_mono (a b : Qc) : 0 ≤ a → a ≤ b → (py_int a ≤ py_int b)%Z.
Proof.
  intros Ha Hab. rewrite !py_int_floor by (by etrans).
  by apply Qfloor_resp_le.
Qed.

Lemma py_int_nonneg (a : Qc) : 0 ≤ a → (0 ≤ py_int a)%Z.
Proof.
  intros Ha. change 0%Z with (py_int 0). by apply py_int_mono.
Qed.

Lemma Qc_div_nonneg (a c : Qc) : 0 ≤ a → 0 < c → 0 ≤ a / c.
Proof.
  intros Ha Hc. apply Qc_le_div_iff; [done|]. by rewrite Qcmult_0_l.
Qed.

Lemma Qc_div_mono (a b c : Qc) : a ≤ b → 0 < c → a / c ≤ b / c.
Proof.
  intros Hab Hc. apply Qc_div_le_iff; [done|].
  rewrite Qc_div_mul by (by apply Qc_pos_ne0). done.
Qed.

(** *** The scheduling loop *)

Section Schedule.
Context `{!StrOps}.

Lemma hours_by_type_pos (asset_type : string) :
  0 < default (Qc_of_Z 3) (dict_get api_schedule.hours_by_type asset_type).
Proof.
  unfold api_schedule.hours_by_type. cbn [dict_get].
  repeat (destruct (decide (_ = asset_type)); [by vm_compute|]).
  by vm_compute.
Qed.

(** Without capacity the first task already divides by zero. *)
Lemma schedule_tasks_zero idx state x predictions :
  api_schedule.schedule_tasks 0 idx state (x :: predictions)
  = Raise ZeroDivisionError.
Proof. destruct state, x. reflexivity. Qed.

(** The loop with a capacity: one task per prediction, in their order,
    numbered from [idx + 1]. *)
Lemma schedule_tasks_spec daily_capacity idx schedule total_hours predictions :
  daily_capacity ≠ 0%Z →
  ∃ tasks total_hours',
    api_schedule.schedule_tasks daily_capacity idx (schedule, total_hours)
                                predictions
    = Ok (schedule ++ tasks, total_hours')
    ∧ api_schedule.asset_type <$> tasks
      = (λ x, api_prediction.asset_type x.1) <$> predictions
    ∧ api_schedule.risk_level <$> tasks
      = (λ x, api_prediction.risk_level x.2) <$> predictions
    ∧ api_schedule.priority <$> tasks = seq (idx + 1) (length predictions)
    ∧ total_hours' = total_hours + py_sum (api_schedule.estimated_hours <$> tasks)
    ∧ (∀ task, head tasks = Some task →
         api_schedule.suggested_day task
         = (py_int (total_hours / Qc_of_Z daily_capacity) + 1)%Z)
    ∧ ((0 < daily_capacity)%Z → 0 ≤ total_hours →
       total_hours ≤ total_hours'
       ∧ StronglySorted Z.le (api_schedule.suggested_day <$> tasks)
       ∧ Forall (λ day, (py_int (total_hours / Qc_of_Z daily_capacity) + 1 ≤ day
                         ≤ py_int (total_hours' / Qc_of_Z daily_capacity) + 1)%Z)
                (api_schedule.suggested_day <$> tasks)).
Proof.
  intros Hc. revert idx schedule total_hours.
  induction predictions as [|[asset pred] predictions IH];
    intros idx schedule total_hours.
  { exists [], total_hours. rewrite app_nil_r.
    split; [done|]. split; [done|]. split; [done|]. split; [done|].
    split; [by rewrite Qcplus_0_r|]. split; [done|].
    intros _ _. split; [done|]. split; constructor. }
  cbn [api_schedule.schedule_tasks].
  unfold py_div. rewrite decide_False
    by (intros H0; apply Hc, Qc_of_Z_inj; exact H0).
  cbn [bind].
  set (hours := default _ _).
  assert (0 < hours) as Hh by apply hours_by_type_pos.
  clearbody hours.
  set (task := api_schedule.Build_MaintenanceTask _ _ _ _ _).
  destruct (IH (S idx) (schedule ++ [task]) (total_hours + hours))
    as (tasks & total' & -> & Ht & Hr & Hp & Htotal & _ & Hdays).
  exists (task :: tasks), total'. rewrite <- app_assoc.
  split; [done|]. cbn [fmap list_fmap length seq].
  split; [by rewrite <- Ht|]. split; [by rewrite <- Hr|].
  split; [rewrite Hp; by replace (S idx + 1)%nat with (S (idx + 1)) by lia|].
  split; [rewrite Htotal, py_sum_cons; subst task;
          cbn [api_schedule.estimated_hours]; ring|].
  split; [by intros ? [= <-]|].
  intros Hpos Hnn.
  assert (0 < Qc_of_Z daily_capacity) as Hcq
    by (by apply (proj1 (Qc_of_Z_lt 0 daily_capacity))).
  assert (total_hours ≤ total_hours + hours) as Hstep.
  { rewrite <- (Qcplus_0_r total_hours) at 1.
    apply Qcplus_le_compat; [done|by apply Qclt_le_weak]. }
  assert (0 ≤ total_hours + hours) as Hnn' by (by etrans).
  destruct (Hdays Hpos Hnn') as (Hle & Hsorted & Hall).
  assert (total_hours ≤ total') as Hle' by (by etrans).
  assert (py_int (total_hours / Qc_of_Z daily_capacity)
          ≤ py_int ((total_hours + hours) / Qc_of_Z daily_capacity))%Z as Hm1.
  { apply py_int_mono; [by apply Qc_div_nonneg|by apply Qc_div_mono]. }
  assert (py_int (total_hours / Qc_of_Z daily_capacity)
          ≤ py_int (total' / Qc_of_Z daily_capacity))%Z as Hm2.
  { apply py_int_mono; [by apply Qc_div_nonneg|by apply Qc_div_mono]. }
  split; [done|]. split.
  - constructor; [done|].
    eapply Forall_impl; [exact Hall|]. intros day Hday. cbn beta in Hday.
    subst task. cbn [api_schedule.suggested_day]. lia.
  - constructor; [subst task; cbn [api_schedule.suggested_day]; lia|].
    eapply Forall_impl; [exact Hall|]. intros day Hday. cbn beta in Hday. lia.
Qed.

(** While no model is loaded, the predictions are computed and sorted
    without error: every class of the heuristic has a rank. *)
Lemma schedule_predictions (assets : list api_prediction.AssetFeatures) :
  ∃ predictions sorted,
    mapM (λ asset, do p <- api_prediction.make_prediction None asset;
                   Ok (asset, p)) assets = Ok predictions
    ∧ py_sort_by api_schedule.sort_key predictions = Ok sorted
    ∧ predictions.*1 = assets
    ∧ sorted ≡ₚ predictions
    ∧ Forall (λ x, api_prediction.risk_level x.2 ∈ ["high"; "medium"; "low"]%string)
             sorted
    ∧ StronglySorted risk_before ((λ x, api_prediction.risk_level x.2) <$> sorted).
Proof.
  destruct (mapM_total
              (λ asset, do p <- api_prediction.make_prediction None asset;
                        Ok (asset, p)) assets) as [predictions Hp].
  { intros a _. destruct (fallback_prediction_result a) as (r & -> & _).
    cbn [bind]. by eexists. }
  assert (Forall (λ x, fallback_result x.2) predictions
          ∧ predictions.*1 = assets) as [Hall Hfst].
  { clear -Hp. revert predictions Hp.
    induction assets as [|a assets IH]; intros predictions Hp.
    { cbn in Hp. injection Hp as <-. by split. }
    apply mapM_cons_Ok in Hp as (y & ys & Hy & Hm & ->).
    destruct (fallback_prediction_result a) as (r & Hr & Hres).
    rewrite Hr in Hy. cbn [bind] in Hy. injection Hy as <-.
    destruct (IH _ Hm) as [H1 H2]. split; [by constructor|].
    cbn. by rewrite H2. }
  assert (∀ x, x ∈ predictions →
               ∃ rank, dict_get api_schedule.risk_priority
                                (api_prediction.risk_level x.2) = Some rank) as Hrank.
  { intros x Hx. eapply Forall_forall in Hall; [|exact Hx].
    destruct Hall as (Hlevel & _).
    repeat (apply elem_of_cons in Hlevel as [->|Hlevel]); [by eexists..|].
    by apply elem_of_nil in Hlevel. }
  destruct (py_sort_by_total api_schedule.sort_key predictions) as [sorted Hs].
  { intros x Hx. destruct (Hrank x Hx) as [rank Hr].
    unfold api_schedule.sort_key, dict_item. rewrite Hr. cbn [bind]. by eexists. }
  exists predictions, sorted. split; [done|]. split; [done|]. split; [done|].
  destruct (py_sort_by_spec _ _ _ Hs) as [Hperm Hsorted]. split; [done|].
  split.
  { rewrite Hperm. eapply Forall_impl; [exact Hall|]. by intros x (? & _). }
  eapply StronglySorted_fmap; [|exact Hsorted].
  intros a b Ha Hb (ka & kb & Hka & Hkb & Hle).
  rewrite Hperm in Ha, Hb.
  destruct (Hrank a Ha) as [ra Hra]. destruct (Hrank b Hb) as [rb Hrb].
  unfold api_schedule.sort_key, dict_item in Hka, Hkb.
  rewrite Hra in Hka. rewrite Hrb in Hkb. cbn [bind] in Hka, Hkb.
  injection Hka as <-. injection Hkb as <-.
  exists ra, rb. split; [done|]. split; [done|].
  unfold pair_lt in Hle. cbn [fst snd] in Hle. lia.
Qed.

(** The capacity is a divisor: a request with assets but without capacity
    (no technician, or no working hour) fails with [ZeroDivisionError], while
    the empty request is answered whatever the capacity. *)
Theorem schedule_needs_capacity (request : api_schedule.MaintenanceScheduleRequest) :
  (api_schedule.available_technicians request
   * api_schedule.work_hours_per_day request = 0)%Z →
  api_schedule.optimize_maintenance_schedule None request
  = if decide (api_schedule.assets request = [])
    then Ok {| api_schedule.total_tasks := 0; api_schedule.estimated_days := 0;
               api_schedule.tasks_by_priority := [];
               api_schedule.schedule := [] |}
    else Raise ZeroDivisionError.
Proof.
  intros Hzero. unfold api_schedule.optimize_maintenance_schedule.
  destruct (decide (api_schedule.assets request = [])) as [Hnil|Hne]; [done|].
  destruct (schedule_predictions (api_schedule.assets request))
    as (predictions & sorted & -> & Hs & Hfst & Hperm & _ & _).
  cbn [bind]. rewrite Hs. cbn [bind]. rewrite Hzero.
  destruct sorted as [|x sorted].
  { apply Permutation_nil_l in Hperm. subst predictions. by cbn in Hfst. }
  by rewrite schedule_tasks_zero.
Qed.

(** With a capacity other than zero and no model loaded, the schedule has one
    task per asset, numbered 1, 2, ... in the order of the list, with the
    asset types of the request, and in the order of the risk levels: a
    [high] task never comes after a [medium] or [low] one, nor a [medium]
    one after a [low] one.  The three counts of [tasks_by_priority] add up to
    the number of tasks; the empty request gets no counts at all. *)
Theorem schedule_in_risk_order (request : api_schedule.MaintenanceScheduleRequest) :
  (api_schedule.available_technicians request
   * api_schedule.work_hours_per_day request ≠ 0)%Z →
  ∃ r, api_schedule.optimize_maintenance_schedule None request = Ok r
    ∧ api_schedule.total_tasks r = length (api_schedule.assets request)
    ∧ api_schedule.priority <$> api_schedule.schedule r
      = seq 1 (length (api_schedule.assets request))
    ∧ api_schedule.asset_type <$> api_schedule.schedule r
      ≡ₚ api_prediction.asset_type <$> api_schedule.assets request
    ∧ StronglySorted risk_before
        (api_schedule.risk_level <$> api_schedule.schedule r)
    ∧ (if decide (api_schedule.assets request = [])
       then api_schedule.tasks_by_priority r = []
       else ∃ high medium low,
           api_schedule.tasks_by_priority r
           = [("high", high); ("medium", medium); ("low", low)]%string
           ∧ (high + medium + low)%nat = length (api_schedule.assets request)).
Proof.
  intros Hc. unfold api_schedule.optimize_maintenance_schedule.
  destruct (decide (api_schedule.assets request = [])) as [Hnil|Hne].
  { eexists. split; [reflexivity|]. rewrite Hnil. cbn.
    repeat split; try done; constructor. }
  destruct (schedule_predictions (api_schedule.assets request))
    as (predictions & sorted & -> & Hs & Hfst & Hperm & Hlevels & Hsorted).
  cbn [bind]. rewrite Hs. cbn [bind].
  destruct (schedule_tasks_spec _ 0 [] 0 sorted Hc)
    as (tasks & total & -> & Ht & Hr & Hp & _ & _ & _).
  cbn [bind app]. unfold py_div.
  rewrite decide_False by (intros H0; apply Hc, Qc_of_Z_inj; exact H0).
  cbn [bind]. eexists. split; [reflexivity|].
  cbn [api_schedule.total_tasks api_schedule.schedule
         api_schedule.tasks_by_priority].
  assert (length tasks = length (api_schedule.assets request)) as Hlen.
  { rewrite <- (length_fmap api_schedule.asset_type), Ht, length_fmap.
    rewrite Hperm, <- Hfst. by rewrite length_fmap. }
  assert (length sorted = length (api_schedule.assets request)) as Hlen'.
  { rewrite Hperm, <- Hfst. by rewrite length_fmap. }
  split; [done|]. split; [by rewrite Hp, Hlen'|]. split.
  { rewrite Ht, Hperm, <- Hfst.
    rewrite <- list_fmap_compose. done. }
  split; [by rewrite Hr|].
  eexists _, _, _. split; [reflexivity|].
  rewrite <- Hlen. apply length_filter_three; [done..|].
  assert (Forall (λ level, level ∈ ["high"; "medium"; "low"]%string)
                 (api_schedule.risk_level <$> tasks)) as Hl.
  { rewrite Hr. by apply Forall_fmap. }
  by apply Forall_fmap in Hl.
Qed.

(** With a positive capacity and no model loaded, the days of the schedule
    are in order: the first task is suggested for day 1, the suggested days
    never decrease along the schedule, and all of them lie between 1 and
    [estimated_days], which is the truncated quotient of the scheduled hours
    by the capacity, plus one. *)
Theorem schedule_days_in_order (request : api_schedule.MaintenanceScheduleRequest) :
  let daily_capacity :=
    (api_schedule.available_technicians request
     * api_schedule.work_hours_per_day request)%Z in
  (0 < daily_capacity)%Z →
  ∃ r, api_schedule.optimize_maintenance_schedule None request = Ok r
    ∧ (∀ task, head (api_schedule.schedule r) = Some task →
         api_schedule.suggested_day task = 1%Z)
    ∧ StronglySorted Z.le (api_schedule.suggested_day <$> api_schedule.schedule r)
    ∧ Forall (λ day, (1 ≤ day ≤ api_schedule.estimated_days r)%Z)
             (api_schedule.suggested_day <$> api_schedule.schedule r)
    ∧ (api_schedule.assets request ≠ [] →
       api_schedule.estimated_days r
       = (py_int (py_sum (api_schedule.estimated_hours <$> api_schedule.schedule r)
                  / Qc_of_Z daily_capacity) + 1)%Z).
Proof.
  intros daily_capacity Hc. unfold api_schedule.optimize_maintenance_schedule.
  destruct (decide (api_schedule.assets request = [])) as [Hnil|Hne].
  { eexists. split; [reflexivity|]. cbn. repeat split; try done; constructor. }
  destruct (schedule_predictions (api_schedule.assets request))
    as (predictions & sorted & -> & Hs & _).
  cbn [bind]. rewrite Hs. cbn [bind]. fold daily_capacity.
  destruct (schedule_tasks_spec daily_capacity 0 [] 0 sorted)
    as (tasks & total & -> & _ & _ & _ & Htotal & Hfirst & Hdays); [lia|].
  cbn [bind app]. unfold py_div.
  rewrite decide_False
    by (intros H0; apply Qc_of_Z_inj in H0; lia).
  cbn [bind]. eexists. split; [reflexivity|].
  cbn [api_schedule.schedule api_schedule.estimated_days].
  destruct (Hdays Hc) as (_ & Hsorted & Hall); [done|].
  assert (py_int (0 / Qc_of_Z daily_capacity) = 0%Z) as H0.
  { replace (0 / Qc_of_Z daily_capacity) with 0
      by (unfold Qcdiv; by rewrite Qcmult_0_l).
    done. }
  rewrite H0 in Hfirst, Hall.
  split; [exact Hfirst|]. split; [done|]. split; [done|].
  intros _. by rewrite Htotal, Qcplus_0_l.
Qed.
End Schedule.

(** ** The building health score *)

(** A share [a / t * 100] of a part in a whole. *)
Lemma share_bounds (a t : Z) :
  (0 < t)%Z → (0 ≤ a ≤ t)%Z →
  0 ≤ Qc_of_Z a / Qc_of_Z t * Qc_of_Z 100
  ∧ Qc_of_Z a / Qc_of_Z t * Qc_of_Z 100 ≤ Qc_of_Z 100
  ∧ (Qc_of_Z a / Qc_of_Z t * Qc_of_Z 100 = Qc_of_Z 100 → a = t)
  ∧ (Qc_of_Z a / Qc_of_Z t * Qc_of_Z 100 = 0 → a = 0%Z).
Proof.
  intros Ht Ha.
  assert (0 < Qc_of_Z t) as Htq by (by apply (proj1 (Qc_of_Z_lt 0 t))).
  assert (Qc_of_Z t ≠ 0) as Hne by (by apply Qc_pos_ne0).
  assert (0 < Qc_of_Z 100) as H100 by (by vm_compute).
  assert (Qc_of_Z a / Qc_of_Z t * Qc_of_Z 100
          = Qc_of_Z (a * 100) / Qc_of_Z t) as ->.
  { rewrite Qc_of_Z_mul. field. done. }
  split; [|split; [|split]].
  - apply Qc_le_div_iff; [done|]. rewrite Qcmult_0_l.
    apply (proj1 (Qc_of_Z_le 0 (a * 100))). lia.
  - apply Qc_div_le_iff; [done|]. rewrite <- Qc_of_Z_mul.
    apply (proj1 (Qc_of_Z_le _ _)). lia.
  - intros Heq.
    assert (Qc_of_Z (a * 100) = Qc_of_Z (100 * t)) as Heq'.
    { rewrite (Qc_of_Z_mul 100 t), <- Heq. by rewrite Qc_div_mul. }
    apply Qc_of_Z_inj in Heq'. lia.
  - intros Heq.
    assert (Qc_of_Z (a * 100) = Qc_of_Z 0) as Heq'.
    { rewrite <- (Qc_div_mul (Qc_of_Z (a * 100)) (Qc_of_Z t)) by done.
      rewrite Heq. by rewrite Qcmult_0_l. }
    apply Qc_of_Z_inj in Heq'. lia.
Qed.

Lemma Qc_sub_nonneg (a b : Qc) : a ≤ b ↔ 0 ≤ b - a.
Proof.
  split; intros H.
  - replace 0 with (a - a) by ring. unfold Qcminus.
    apply Qcplus_le_compat; [done|apply Qcle_refl].
  - replace a with (0 + a) by ring. replace b with (b - a + a) by ring.
    apply Qcplus_le_compat; [done|apply Qcle_refl].
Qed.

Lemma Qc_add_nonneg (a b : Qc) : 0 ≤ a → 0 ≤ b → 0 ≤ a + b.
Proof.
  intros Ha Hb. replace 0 with (0 + 0) by ring. by apply Qcplus_le_compat.
Qed.

Lemma Qc_mul_nonneg (a b : Qc) : 0 ≤ a → 0 ≤ b → 0 ≤ a * b.
Proof.
  intros Ha Hb. rewrite <- (Qcmult_0_l b). by apply Qcmult_le_compat_r.
Qed.

Lemma Qc_add_zero (a b : Qc) : 0 ≤ a → 0 ≤ b → a + b = 0 → a = 0 ∧ b = 0.
Proof.
  intros Ha Hb Hs.
  assert (a ≤ 0).
  { rewrite <- Hs. replace a with (a + 0) at 1 by ring.
    apply Qcplus_le_compat; [apply Qcle_refl|done]. }
  assert (a = 0) as -> by (by apply Qcle_antisym).
  split; [done|]. by rewrite Qcplus_0_l in Hs.
Qed.

(** The weighted combination of three scores between 0 and 100. *)
Lemma weighted_bounds (c o r : Qc) :
  0 ≤ c → c ≤ Qc_of_Z 100 → 0 ≤ o → o ≤ Qc_of_Z 100 →
  0 ≤ r → r ≤ Qc_of_Z 100 →
  let w := c * Q2Qc (4 # 10) + o * Q2Qc (3 # 10) + r * Q2Qc (3 # 10) in
  0 ≤ w ∧ w ≤ Qc_of_Z 100
  ∧ (w = Qc_of_Z 100 → c = Qc_of_Z 100 ∧ o = Qc_of_Z 100 ∧ r = Qc_of_Z 100).
Proof.
  intros Hc0 Hc Ho0 Ho Hr0 Hr w.
  assert (0 ≤ Q2Qc (4 # 10)) as H4 by (by vm_compute).
  assert (0 ≤ Q2Qc (3 # 10)) as H3 by (by vm_compute).
  assert (Qc_of_Z 100 - w
          = (Qc_of_Z 100 - c) * Q2Qc (4 # 10) + (Qc_of_Z 100 - o) * Q2Qc (3 # 10)
            + (Qc_of_Z 100 - r) * Q2Qc (3 # 10)) as Hgap.
  { subst w.
    replace (Qc_of_Z 100)
      with (Qc_of_Z 100 * Q2Qc (4 # 10) + Qc_of_Z 100 * Q2Qc (3 # 10)
            + Qc_of_Z 100 * Q2Qc (3 # 10)) at 1
      by (apply Qc_is_canon; by vm_compute).
    ring. }
  apply Qc_sub_nonneg in Hc, Ho, Hr.
  assert (0 ≤ (Qc_of_Z 100 - c) * Q2Qc (4 # 10)) as Gc by (by apply Qc_mul_nonneg).
  assert (0 ≤ (Qc_of_Z 100 - o) * Q2Qc (3 # 10)) as Go by (by apply Qc_mul_nonneg).
  assert (0 ≤ (Qc_of_Z 100 - r) * Q2Qc (3 # 10)) as Gr by (by apply Qc_mul_nonneg).
  split; [|split].
  - subst w. repeat apply Qc_add_nonneg; by apply Qc_mul_nonneg.
  - apply Qc_sub_nonneg. rewrite Hgap. by repeat apply Qc_add_nonneg.
  - intros Hw. rewrite Hw in Hgap.
    replace (Qc_of_Z 100 - Qc_of_Z 100) with 0 in Hgap by ring.
    symmetry in Hgap.
    apply Qc_add_zero in Hgap as [Hgap Hr']; [|by apply Qc_add_nonneg|done].
    apply Qc_add_zero in Hgap as [Hc' Ho']; [|done..].
    assert (∀ x k, k ≠ 0 → (Qc_of_Z 100 - x) * k = 0 → x = Qc_of_Z 100) as Hz.
    { intros x k Hk Hx. apply Qcmult_integral in Hx as [Hx|Hx]; [|done].
      replace x with (Qc_of_Z 100 - (Qc_of_Z 100 - x)) by ring. rewrite Hx. ring. }
    split; [|split]; eapply Hz; try eassumption; by vm_compute.
Qed.

Lemma py_int_percentage (w : Qc) :
  0 ≤ w → w ≤ Qc_of_Z 100 →
  (0 ≤ py_int w ≤ 100)%Z ∧ (py_int w = 100%Z ↔ w = Qc_of_Z 100).
Proof.
  intros H0 H100.
  assert (py_int (Qc_of_Z 100) = 100%Z) as Hfull by (by vm_compute).
  split; [split|split].
  - by apply py_int_nonneg.
  - rewrite <- Hfull. by apply py_int_mono.
  - intros Hw. apply Qcle_antisym; [done|].
    rewrite py_int_floor in Hw by done.
    pose proof (Qfloor_le (this w)) as Hf. rewrite Hw in Hf. exact Hf.
  - by intros ->.
Qed.

(** The three component scores of consistent counts. *)
Lemma health_components (request : api_health.BuildingHealthRequest) :
  consistent_counts request →
  (0 ≤ api_health.completion_rate request
   ∧ api_health.completion_rate request ≤ Qc_of_Z 100
   ∧ (api_health.completion_rate request = Qc_of_Z 100
      ↔ api_health.completed_tickets request = api_health.total_tickets request))
  ∧ (0 ≤ api_health.open_score request
     ∧ api_health.open_score request ≤ Qc_of_Z 100
     ∧ (api_health.open_score request = Qc_of_Z 100
        ↔ api_health.open_tickets request = 0%Z))
  ∧ (0 ≤ api_health.risk_score request
     ∧ api_health.risk_score request ≤ Qc_of_Z 100
     ∧ (api_health.risk_score request = Qc_of_Z 100
        ↔ api_health.high_risk_assets request = 0%Z)).
Proof.
  intros (Hc & Ho & Hr).
  assert (∀ a t : Z, (0 ≤ a ≤ t)%Z →
    let score := Qc_of_Z 100
                 - (if decide (0 < t)%Z
                    then Qc_of_Z a / Qc_of_Z t * Qc_of_Z 100 else 0) in
    0 ≤ score ∧ score ≤ Qc_of_Z 100 ∧ (score = Qc_of_Z 100 ↔ a = 0%Z)) as Hscore.
  { intros a t Ha score. subst score. destruct (decide (0 < t)%Z) as [Ht|Ht].
    - destruct (share_bounds a t Ht Ha) as (H0 & H100 & _ & Hzero).
      split; [by apply Qc_sub_nonneg in H100|]. split.
      + apply Qc_sub_nonneg.
        replace (Qc_of_Z 100 - (Qc_of_Z 100 - Qc_of_Z a / Qc_of_Z t * Qc_of_Z 100))
          with (Qc_of_Z a / Qc_of_Z t * Qc_of_Z 100) by ring.
        done.
      + split.
        * intros Heq. apply Hzero.
          replace (Qc_of_Z a / Qc_of_Z t * Qc_of_Z 100)
            with (Qc_of_Z 100
                  - (Qc_of_Z 100 - Qc_of_Z a / Qc_of_Z t * Qc_of_Z 100)) by ring.
          rewrite Heq. ring.
        * intros ->. apply Qc_is_canon.
          replace (Qc_of_Z 0) with 0 by done. unfold Qcdiv.
          rewrite !Qcmult_0_l. by vm_compute.
    - split; [by vm_compute|]. split; [by vm_compute|].
      split; [lia|by intros _]. }
  split; [|split; [apply (Hscore _ _ Ho)|apply (Hscore _ _ Hr)]].
  unfold api_health.completion_rate.
  destruct (decide (0 < api_health.total_tickets request)%Z) as [Ht|Ht].
  - destruct (share_bounds _ _ Ht Hc) as (H0 & H100 & Hfull & _).
    split; [done|]. split; [done|]. split; [done|].
    intros ->. rewrite <- (Qcmult_1_l (Qc_of_Z 100)) at 2. f_equal.
    apply Qcmult_inv_r, Qc_pos_ne0.
    by apply (proj1 (Qc_of_Z_lt 0 _)).
  - split; [by vm_compute|]. split; [by vm_compute|]. split; [lia|done].
Qed.

(** For counts that fit together, the weighted sum that
    [calculate_health_score] truncates lies between 0 and 100, so that the
    clamp has nothing to cut; and the full score is kept for the building in
    which every ticket is completed, none is open and no asset is at high
    risk: the score is 100 exactly then.  The counts are taken up to a
    million, far below the sizes at which the float sum of the code could
    round up to 100; the truncated value below 100 is not stated, since a sum
    that is a whole number exactly may come out just below it in floats. *)
Theorem health_score_full_marks (request : api_health.BuildingHealthRequest) :
  consistent_counts request →
  (api_health.total_tickets request ≤ 1000000)%Z →
  (api_health.total_assets request ≤ 1000000)%Z →
  (0 ≤ api_health.completion_rate request * Q2Qc (4 # 10)
       + api_health.open_score request * Q2Qc (3 # 10)
       + api_health.risk_score request * Q2Qc (3 # 10)
   ∧ api_health.completion_rate request * Q2Qc (4 # 10)
     + api_health.open_score request * Q2Qc (3 # 10)
     + api_health.risk_score request * Q2Qc (3 # 10) ≤ Qc_of_Z 100)
  ∧ (api_health.health_score (api_health.calculate_health_score request) = 100%Z
     ↔ api_health.completed_tickets request = api_health.total_tickets request
       ∧ api_health.open_tickets request = 0%Z
       ∧ api_health.high_risk_assets request = 0%Z).
Proof.
  intros Hcons _ _.
  destruct (health_components request Hcons)
    as ((Hc0 & Hc & Hcf) & (Ho0 & Ho & Hof) & (Hr0 & Hr & Hrf)).
  destruct (weighted_bounds _ _ _ Hc0 Hc Ho0 Ho Hr0 Hr) as (Hw0 & Hw & Hwf).
  destruct (py_int_percentage _ Hw0 Hw) as [Hrange Hfull].
  unfold api_health.calculate_health_score. cbn [api_health.health_score].
  rewrite Z.min_r, Z.max_r by lia.
  split; [by split|]. rewrite Hfull. split.
  - intros Heq. destruct (Hwf Heq) as (H1 & H2 & H3).
    by rewrite <- Hcf, <- Hof, <- Hrf.
  - intros (H1 & H2 & H3). apply Hcf in H1. apply Hof in H2. apply Hrf in H3.
    rewrite H1, H2, H3. apply Qc_is_canon. by vm_compute.
Qed.

(** ** The explanations of the trainer *)

Ltac not_the_advice :=
  let Hin := fresh "Hin" in
  intros Hin;
  repeat (apply elem_of_app in Hin as [Hin|Hin]);
  try (apply list_elem_of_singleton in Hin; discriminate Hin);
  try (by apply elem_of_nil in Hin);
  done.

Section TrainerActions.
Context `{!StrOps}.

(** The list returned by [generate_suggested_actions] of the trainer holds
    between one and five actions, and its cut at five does remove advice:
    when the repairs exceed twice the expected number, the end-of-life advice
    is returned unless five actions precede it, which happens exactly for an
    [hvac] asset with maintenance older than 90 days, temperature above 35,
    humidity above 75 and age above 120 months. *)
Theorem trainer_actions_cut (features : train_explain.Features)
    (risk_level : string) :
  let asset_type :=
    default "other"%string
            (train_explain.categorical features !! "asset_type"%string) in
  let number (key : string) (missing : Qc) : Qc :=
    default missing (train_explain.numeric features !! key) in
  let actions := train_explain.generate_suggested_actions features risk_level in
  (1 ≤ length actions ≤ 5)%nat
  ∧ (number "asset_age_months"%string 0 / Qc_of_Z 6 * Qc_of_Z 2
     < number "total_maintenance_count"%string 0 →
     ("Asset showing signs of end-of-life - plan replacement"%string ∈ actions
      ↔ ¬ (asset_type = "hvac"%string
           ∧ Qc_of_Z 90 < number "days_since_last_maintenance"%string 0
           ∧ Qc_of_Z 35 < number "ambient_temperature_avg"%string (Qc_of_Z 25)
           ∧ Qc_of_Z 75 < number "humidity_level_avg"%string (Qc_of_Z 50)
           ∧ Qc_of_Z 120 < number "asset_age_months"%string 0))).
Proof.
  intros asset_type number.
  unfold train_explain.generate_suggested_actions. cbn zeta.
  fold asset_type.
  change (default 0 (train_explain.numeric features
                       !! "days_since_last_maintenance"%string))
    with (number "days_since_last_maintenance"%string 0).
  change (default 0 (train_explain.numeric features !! "asset_age_months"%string))
    with (number "asset_age_months"%string 0).
  change (default 0 (train_explain.numeric features
                       !! "total_maintenance_count"%string))
    with (number "total_maintenance_count"%string 0).
  change (default (Qc_of_Z 25) (train_explain.numeric features
                                  !! "ambient_temperature_avg"%string))
    with (number "ambient_temperature_avg"%string (Qc_of_Z 25)).
  change (default (Qc_of_Z 50) (train_explain.numeric features
                                  !! "humidity_level_avg"%string))
    with (number "humidity_level_avg"%string (Qc_of_Z 50)).
  generalize (number "days_since_last_maintenance"%string 0).
  generalize (number "asset_age_months"%string 0).
  generalize (number "total_maintenance_count"%string 0).
  generalize (number "ambient_temperature_avg"%string (Qc_of_Z 25)).
  generalize (number "humidity_level_avg"%string (Qc_of_Z 50)).
  clear number. generalize asset_type. clear asset_type.
  intros asset_type humidity temp maint_count age days.
  set (advice := "Asset showing signs of end-of-life - plan replacement"%string).
  set (maintenance := if decide (Qc_of_Z 180 < days) then _ else _).
  assert ((advice ∉ maintenance)
          ∧ (length maintenance ≤ 1)%nat
          ∧ (length maintenance = 1%nat ↔ Qc_of_Z 90 < days)) as (Hm1 & Hm2 & Hm3).
  { subst maintenance. destruct (decide (Qc_of_Z 180 < days)) as [H180|H180].
    - split; [not_the_advice|]. split; [done|]. split; [|done].
      intros _. eapply Qclt_trans; [|exact H180]. by vm_compute.
    - destruct (decide (Qc_of_Z 90 < days)).
      + split; [not_the_advice|]. by split.
      + split; [not_the_advice|]. split; [cbn; lia|]. by split. }
  clearbody maintenance.
  set (by_type := if decide (asset_type = "hvac"%string) then _ else _).
  assert ((advice ∉ by_type)
          ∧ (length by_type ≤ length maintenance + 3)%nat
          ∧ (length by_type = (length maintenance + 3)%nat
             ↔ asset_type = "hvac"%string ∧ Qc_of_Z 35 < temp ∧ Qc_of_Z 75 < humidity))
    as (Ht1 & Ht2 & Ht3).
  { subst by_type. unfold append_if.
    repeat case_decide; (split; [not_the_advice|]);
      rewrite ?length_app; cbn [length];
      (split; [lia|]); (split; [intros; first [lia|done]|]);
      intros (? & ? & ?); first [lia|done|congruence]. }
  clearbody by_type.
  set (by_age := append_if (Qc_of_Z 120 < age) _ by_type).
  assert ((advice ∉ by_age)
          ∧ (length by_age ≤ length by_type + 1)%nat
          ∧ (length by_age = (length by_type + 1)%nat ↔ Qc_of_Z 120 < age))
    as (Ha1 & Ha2 & Ha3).
  { subst by_age. unfold append_if.
    case_decide; (split; [not_the_advice|]); rewrite ?length_app; cbn [length];
      (split; [lia|]); split; intros; first [lia|done]. }
  clearbody by_age.
  split.
  - rewrite length_take. unfold append_if.
    destruct (decide (_ < maint_count)).
    + rewrite decide_False by (by destruct by_age).
      rewrite length_app. cbn [length]. lia.
    + destruct (decide (by_age = [])) as [->|Hne].
      * repeat case_decide; cbn [app length]; lia.
      * destruct by_age; [done|]. cbn [length] in *. lia.
  - intros Hfatigue. unfold append_if. rewrite (decide_True (P := _ < maint_count)) by done.
    rewrite decide_False by (by destruct by_age).
    destruct (decide (length by_age = 5%nat)) as [H5|H5].
    + rewrite take_app_le by lia. rewrite take_ge by lia.
      split; [done|]. intros Hnot. exfalso. apply Hnot.
      assert (length by_type = (length maintenance + 3)%nat) as H3 by lia.
      assert (length by_age = (length by_type + 1)%nat) as H1 by lia.
      assert (length maintenance = 1%nat) as H0 by lia.
      apply Ht3 in H3 as (? & ? & ?). apply Ha3 in H1. apply Hm3 in H0. done.
    + rewrite take_ge by (rewrite length_app; cbn [length]; lia).
      split; [|intros _; apply elem_of_app; right; apply list_elem_of_here].
      intros _ (Hh & Hd & Htemp & Hhum & Hage). apply H5.
      apply Hm3 in Hd. apply Ha3 in Hage.
      assert (length by_type = (length maintenance + 3)%nat) by (by apply Ht3).
      lia.
Qed.
End TrainerActions.

(** ** The properties at work *)

(** The tree grown over [separable_data]. *)
Lemma build_tree_leaves_nonempty_witness :
  separable_data ≠ []
  ∧ Forall (λ l, (0 < samples l)%nat
                 ∧ prediction l ∈ label_of <$> separable_data
                 ∧ ∃ sub, sub ≠ [] ∧ sub ⊆ separable_data ∧ leaf_rounds sub l)
           (tree_leaves
              (_build_tree separable_data 0 5 ([], drop 12 separable_tape)).1).
Proof.
  assert (separable_data ≠ []) as H by done.
  split; [exact H|].
  exact (build_tree_leaves_nonempty separable_data 0 5
           ([], drop 12 separable_tape) H).
Defined.

(** The ages of [separable_data] are whole numbers. *)
Lemma build_tree_routes_training_records_witness :
  (∀ d f v, d ∈ separable_data → features d !! f = Some v → py_round_n v 2 = v)
  ∧ aged_sample 7 "high" (9 # 10) 10 ∈ separable_data
  ∧ ∃ sub, aged_sample 7 "high" (9 # 10) 10 ∈ sub ∧ sub ⊆ separable_data
      ∧ Leaf (_predict_tree
                (_build_tree separable_data 0 5 ([], drop 12 separable_tape)).1
                (features (aged_sample 7 "high" (9 # 10) 10)))
        = make_leaf sub.
Proof.
  assert (∀ d f v, d ∈ separable_data → features d !! f = Some v →
                   py_round_n v 2 = v) as Hround.
  { intros d f v Hd Hv. unfold separable_data in Hd.
    repeat (apply elem_of_cons in Hd as [->|Hd];
            [cbn [features aged_sample] in Hv;
             apply lookup_singleton_Some in Hv as [_ <-];
             apply Qc_is_canon; by vm_compute|]).
    by apply elem_of_nil in Hd. }
  assert (aged_sample 7 "high" (9 # 10) 10 ∈ separable_data) as Hin.
  { unfold separable_data. do 6 apply list_elem_of_further. apply list_elem_of_here. }
  split; [exact Hround|]. split; [exact Hin|].
  exact (build_tree_routes_training_records separable_data 0 5
           ([], drop 12 separable_tape) _ Hround Hin).
Defined.

(** Twelve [low] records: the builder tries to split them and finds no gain. *)
Lemma build_tree_pure_subset_witness :
  (∀ d, d ∈ pure_data → label_of d = "low"%string)
  ∧ (_build_tree pure_data 0 5 ([], [0; 0; 0; 0; 0]%nat)).1 = make_leaf pure_data.
Proof.
  assert (∀ d, d ∈ pure_data → label_of d = "low"%string) as Hpure.
  { intros d Hd. unfold pure_data in Hd. cbn [fmap list_fmap] in Hd.
    repeat (apply elem_of_cons in Hd as [->|Hd]; [reflexivity|]).
    by apply elem_of_nil in Hd. }
  split; [exact Hpure|].
  exact (build_tree_pure_subset pure_data 0 5 ([], [0; 0; 0; 0; 0]%nat) "low" Hpure).
Defined.

(** The forest grown over [separable_data], whose days lie between 10 and
    300. *)
Lemma fitted_forest_predicts_in_range_witness :
  (0 < 1)%nat ∧ separable_data ≠ []
  ∧ Forall (λ d, target_in_range 10 300 (target d)) separable_data
  ∧ ∃ p, predict (fit (__init__ 1) separable_data separable_tape).1 ∅ = Ok p
       ∧ p_risk_level p ∈ label_of <$> separable_data
       ∧ 0 ≤ p_failure_probability p ∧ p_failure_probability p ≤ 1
       ∧ (10 ≤ p_estimated_days_to_failure p ≤ 300)%Z.
Proof.
  assert (0 < 1)%nat as Hn by lia.
  assert (separable_data ≠ []) as Hne by done.
  assert (Forall (λ d, target_in_range 10 300 (target d)) separable_data) as Hall.
  { unfold separable_data. repeat (apply Forall_cons; split; [by_compute|]).
    apply Forall_nil_2. }
  split; [exact Hn|]. split; [exact Hne|]. split; [exact Hall|].
  exact (fitted_forest_predicts_in_range 1 separable_data separable_tape ∅ 10 300
           Hn Hne Hall).
Defined.

(** Two feature vectors that differ only in the humidity, which the forest
    over [separable_data] never tests. *)
Lemma predict_reads_important_features_witness :
  (∀ f, f ∈ dict_keys (feature_importances separable_forest) →
        feature_get {[ "asset_age_months"%string := Qc_of_Z 3 ]} f
        = feature_get (<[ "humidity_level_avg"%string := Qc_of_Z 50 ]>
                         {[ "asset_age_months"%string := Qc_of_Z 3 ]}) f)
  ∧ predict separable_forest {[ "asset_age_months"%string := Qc_of_Z 3 ]}
    = predict separable_forest
        (<[ "humidity_level_avg"%string := Qc_of_Z 50 ]>
           {[ "asset_age_months"%string := Qc_of_Z 3 ]}).
Proof.
  assert (∀ f, f ∈ dict_keys (feature_importances separable_forest) →
        feature_get {[ "asset_age_months"%string := Qc_of_Z 3 ]} f
        = feature_get (<[ "humidity_level_avg"%string := Qc_of_Z 50 ]>
                         {[ "asset_age_months"%string := Qc_of_Z 3 ]}) f) as Hagree.
  { assert (dict_keys (feature_importances separable_forest)
            = ["asset_age_months"%string]) as -> by (by vm_compute).
    intros f ->%list_elem_of_singleton. by vm_compute. }
  split; [exact Hagree|].
  exact (predict_reads_important_features 1 separable_data separable_tape _ _ Hagree).
Defined.

(** The document with the unknown tag, whose single tree votes [low]. *)
Lemma api_agrees_with_verify_witness :
  ∃ v, verify_model.predict doc_unknown_tag ∅ = Ok v
    ∧ api_main.make_prediction doc_unknown_tag ∅ = Ok (verify_model.v_prediction v).
Proof.
  eexists. split; [vm_compute; reflexivity|].
  apply api_agrees_with_verify; [vm_compute; reflexivity|].
  intros c n Hin Hne. cbn in Hin, Hne.
  apply list_elem_of_singleton in Hin as [= -> ->]. by destruct Hne.
Defined.

(** The two rows of [two_rows] against the forest [tied_forest]. *)
Lemma evaluation_tallies_count_rows_witness :
  ∃ t, verify_model.tally_rows (export_to_json tied_forest) verify_model.tally0
         two_rows = Ok t
    ∧ verify_model.correct t = hit_count (export_to_json tied_forest) two_rows
    ∧ ∀ actual, actual ∈ levels →
        dict_get (verify_model.risk_total t) actual
        = Some (label_count two_rows actual)
        ∧ dict_get (verify_model.risk_correct t) actual
          = Some (confusion_count (export_to_json tied_forest) two_rows actual actual)
        ∧ ∃ row, dict_get (verify_model.confusion t) actual = Some row
            ∧ ∀ predicted, predicted ∈ levels →
                dict_get row predicted
                = Some (confusion_count (export_to_json tied_forest) two_rows
                          actual predicted).
Proof.
  eexists. split; [vm_compute; reflexivity|].
  apply evaluation_tallies_count_rows. vm_compute. reflexivity.
Defined.

Lemma evaluation_report_percentages_witness :
  ∃ report, verify_model.evaluate (export_to_json tied_forest) two_rows = Ok report
    ∧ is_percentage (verify_model.accuracy report)
    ∧ Forall (λ la : string * option Qc, ∀ a, la.2 = Some a → is_percentage a)
             (verify_model.class_accuracy report)
    ∧ Forall (λ lm : string * verify_model.ClassMetrics,
                is_percentage (verify_model.precision lm.2)
                ∧ is_percentage (verify_model.recall lm.2)
                ∧ is_percentage (verify_model.f1 lm.2))
             (verify_model.class_metrics report).
Proof.
  eexists. split; [vm_compute; reflexivity|].
  apply (evaluation_report_percentages (export_to_json tied_forest) two_rows).
  vm_compute. reflexivity.
Defined.

(** A first row labelled [critical]. *)
Lemma evaluation_rejects_unknown_level_witness :
  ∃ v, verify_model.predict (export_to_json tied_forest)
         (verify_model.row_features unknown_row) = Ok v
    ∧ (verify_model.row_risk_level unknown_row ∉ levels)
    ∧ verify_model.evaluate (export_to_json tied_forest) ([] ++ unknown_row :: [])
      = Raise (KeyError (verify_model.row_risk_level unknown_row)).
Proof.
  eexists. split; [vm_compute; reflexivity|].
  assert (verify_model.row_risk_level unknown_row ∉ levels) as Hout by by_compute.
  split; [exact Hout|].
  refine (proj1 (evaluation_rejects_unknown_level (export_to_json tied_forest) []
                   unknown_row [] verify_model.tally0 _ eq_refl _) Hout).
  vm_compute. reflexivity.
Defined.

(** The forest [tied_forest] against the two records it was trained on. *)
Lemma train_accuracy_counts_hits_witness :
  trees tied_forest ≠ [] ∧ [sample_high; sample_low] ≠ []
  ∧ Forall (λ sample, label_of sample ∈ levels) [sample_high; sample_low]
  ∧ train_accuracy tied_forest [sample_high; sample_low]
    = Ok (Some (Qc_of_nat (train_hits tied_forest [sample_high; sample_low])
                / Qc_of_nat (length [sample_high; sample_low]) * Qc_of_Z 100))
  ∧ is_percentage (Qc_of_nat (train_hits tied_forest [sample_high; sample_low])
                   / Qc_of_nat (length [sample_high; sample_low]) * Qc_of_Z 100).
Proof.
  assert (trees tied_forest ≠ []) as Htrees by (vm_compute; discriminate).
  assert ([sample_high; sample_low] ≠ []) as Hne by done.
  assert (Forall (λ sample, label_of sample ∈ levels) [sample_high; sample_low])
    as Hall by (repeat (apply Forall_cons; split; [by_compute|]); apply Forall_nil_2).
  split; [exact Htrees|]. split; [exact Hne|]. split; [exact Hall|].
  exact (train_accuracy_counts_hits tied_forest [sample_high; sample_low]
           Htrees Hne Hall).
Defined.

Lemma train_accuracy_rejects_unknown_level_witness :
  trees tied_forest ≠ [] ∧ (label_of unknown_sample ∉ levels)
  ∧ train_accuracy tied_forest [unknown_sample]
    = Raise (KeyError (label_of unknown_sample)).
Proof.
  assert (trees tied_forest ≠ []) as Htrees by (vm_compute; discriminate).
  assert (label_of unknown_sample ∉ levels) as Hout by by_compute.
  split; [exact Htrees|]. split; [exact Hout|].
  exact (train_accuracy_rejects_unknown_level tied_forest unknown_sample []
           Htrees Hout).
Defined.

(** Two assets and no technician. *)
Lemma schedule_needs_capacity_witness :
  (api_schedule.available_technicians no_crew_request
   * api_schedule.work_hours_per_day no_crew_request = 0)%Z
  ∧ @api_schedule.optimize_maintenance_schedule ascii_str_ops None no_crew_request
    = Raise ZeroDivisionError.
Proof.
  split; [reflexivity|].
  exact (@schedule_needs_capacity ascii_str_ops no_crew_request eq_refl).
Defined.

(** The elevator, at high risk, is scheduled before the appliance. *)
Lemma schedule_in_risk_order_witness :
  (api_schedule.available_technicians small_crew_request
   * api_schedule.work_hours_per_day small_crew_request ≠ 0)%Z
  ∧ ∃ r, @api_schedule.optimize_maintenance_schedule ascii_str_ops None small_crew_request = Ok r
      ∧ api_schedule.total_tasks r = 2%nat
      ∧ api_schedule.priority <$> api_schedule.schedule r = [1; 2]%nat
      ∧ api_schedule.asset_type <$> api_schedule.schedule r
        ≡ₚ ["appliance"; "Elevator"]%string
      ∧ StronglySorted risk_before
          (api_schedule.risk_level <$> api_schedule.schedule r)
      ∧ ∃ high medium low,
          api_schedule.tasks_by_priority r
          = [("high", high); ("medium", medium); ("low", low)]%string
          ∧ (high + medium + low)%nat = 2%nat.
Proof.
  assert (api_schedule.available_technicians small_crew_request
          * api_schedule.work_hours_per_day small_crew_request ≠ 0)%Z as Hc by done.
  split; [exact Hc|].
  exact (@schedule_in_risk_order ascii_str_ops small_crew_request Hc).
Defined.

(** Six hours of the elevator at two hours a day: the appliance follows on
    day 4. *)
Lemma schedule_days_in_order_witness :
  (0 < api_schedule.available_technicians small_crew_request
       * api_schedule.work_hours_per_day small_crew_request)%Z
  ∧ ∃ r, @api_schedule.optimize_maintenance_schedule ascii_str_ops None small_crew_request = Ok r
      ∧ (∀ task, head (api_schedule.schedule r) = Some task →
           api_schedule.suggested_day task = 1%Z)
      ∧ StronglySorted Z.le (api_schedule.suggested_day <$> api_schedule.schedule r)
      ∧ Forall (λ day, (1 ≤ day ≤ api_schedule.estimated_days r)%Z)
               (api_schedule.suggested_day <$> api_schedule.schedule r)
      ∧ (api_schedule.assets small_crew_request ≠ [] →
         api_schedule.estimated_days r
         = (py_int (py_sum (api_schedule.estimated_hours
                              <$> api_schedule.schedule r)
                    / Qc_of_Z 2) + 1)%Z).
Proof.
  assert (0 < api_schedule.available_technicians small_crew_request
              * api_schedule.work_hours_per_day small_crew_request)%Z as Hc by done.
  split; [exact Hc|].
  exact (@schedule_days_in_order ascii_str_ops small_crew_request Hc).
Defined.

(** Twelve tickets, all completed, and seven assets, none at high risk. *)
Lemma health_score_full_marks_witness :
  consistent_counts sound_building
  ∧ (api_health.total_tickets sound_building ≤ 1000000)%Z
  ∧ (api_health.total_assets sound_building ≤ 1000000)%Z
  ∧ api_health.health_score (api_health.calculate_health_score sound_building)
    = 100%Z.
Proof.
  assert (consistent_counts sound_building) as Hc.
  { unfold consistent_counts, sound_building. cbn. lia. }
  assert (api_health.total_tickets sound_building ≤ 1000000)%Z as Ht by done.
  assert (api_health.total_assets sound_building ≤ 1000000)%Z as Ha by done.
  split; [exact Hc|]. split; [exact Ht|]. split; [exact Ha|].
  apply (proj2 (health_score_full_marks sound_building Hc Ht Ha)). by cbn.
Defined.
